(** * Emission estimation engine (services/emissionService.js)

    A shallow embedding of the carbon-emission calculator: the dish-string
    parser, the recipe resolver with its three tiers, the emission-factor
    resolver, the travel-distance resolver, the packaging model and the
    aggregator [calculateFoodEmission], followed by the properties of the
    specification.

    Modelling conventions.
    - A JavaScript number is an exact rational ([Q]) or [NaN]; the binary
      rounding of IEEE doubles is not represented, so a property below speaks
      of printed digits only at a concrete input, of integers only up to
      [MAX_SAFE_INTEGER], and of other numbers up to a tolerance.  A value
      that may be [undefined] is an [option].
    - A string is a [string] of 8-bit characters; [toLowerCase], [trim] and
      the regular expression classes act on the ASCII range.
    - An object literal used as a table or map is an association list in
      insertion order.  [get] looks a key up among the own keys.  Where the
      program reads a table at a name it was given (a dish, an ingredient, a
      packaging type or size, a transport type), the read is [read], which
      also finds the members every object inherits from [Object.prototype]
      (such as [constructor]).  The maps the program fills itself are read
      with [get]: none of their keys is such a name ([tracked_keys_are_own]).
    - An external service (recipe search, geocoder, router) is a function
      that returns or throws; [try]/[catch] is written out on [Attempt]. *)

From Stdlib Require Import ZArith QArith Qabs Qround List String Ascii Bool Lia Lqa.
From Stdlib Require Import DecimalString DecimalN.
Import ListNotations.

Local Open Scope string_scope.
Local Open Scope Z_scope.

(** ** JavaScript primitives *)

Module JS.

(** *** Exceptions *)

Inductive Attempt (A : Type) : Type :=
| Returned (a : A)
| Thrown.
Arguments Returned {A} a.
Arguments Thrown {A}.

Definition bind {A B} (m : Attempt A) (k : A -> Attempt B) : Attempt B :=
  match m with
  | Returned a => k a
  | Thrown => Thrown
  end.

(** [try { body } catch { handler }] *)
Definition try_catch {A} (body : Attempt A) (handler : Attempt A) : Attempt A :=
  match body with
  | Returned a => Returned a
  | Thrown => handler
  end.

Notation "x <- m ;; k" := (bind m (fun x => k))
  (at level 61, m at next level, right associativity).

(** *** Characters and strings *)

Definition isDigit (c : ascii) : bool :=
  let n := N_of_ascii c in ((48 <=? n) && (n <=? 57))%N.

(** WhiteSpace and LineTerminator code points below 128. *)
Definition isWhiteSpace (c : ascii) : bool :=
  let n := N_of_ascii c in (((9 <=? n) && (n <=? 13)) || (n =? 32))%N.

Definition isLineTerminator (c : ascii) : bool :=
  let n := N_of_ascii c in ((n =? 10) || (n =? 13))%N.

Definition lowerChar (c : ascii) : ascii :=
  let n := N_of_ascii c in
  if ((65 <=? n) && (n <=? 90))%N then ascii_of_N (n + 32) else c.

Fixpoint toLowerCase (s : string) : string :=
  match s with
  | EmptyString => EmptyString
  | String c s' => String (lowerChar c) (toLowerCase s')
  end.

Fixpoint trimStart (s : string) : string :=
  match s with
  | EmptyString => EmptyString
  | String c s' => if isWhiteSpace c then trimStart s' else s
  end.

Fixpoint trimEnd (s : string) : string :=
  match s with
  | EmptyString => EmptyString
  | String c s' =>
      match trimEnd s' with
      | EmptyString => if isWhiteSpace c then EmptyString else String c EmptyString
      | r => String c r
      end
  end.

Definition trim (s : string) : string := trimEnd (trimStart s).

(** [s.includes(sub)] *)
Fixpoint includes (s sub : string) : bool :=
  prefix sub s ||
  match s with
  | EmptyString => false
  | String _ s' => includes s' sub
  end.

(** [s.split(sep)] for a one-character separator. *)
Fixpoint split (sep : ascii) (s : string) : list string :=
  match s with
  | EmptyString => [EmptyString]
  | String c s' =>
      if Ascii.eqb c sep then EmptyString :: split sep s'
      else match split sep s' with
           | [] => [String c EmptyString]
           | piece :: pieces => String c piece :: pieces
           end
  end.

(** [parseInt] on a string of decimal digits.  The value is the program's
    number up to [MAX_SAFE_INTEGER]; above it the program holds the nearest
    double. *)
Definition MAX_SAFE_INTEGER : Z := 2 ^ 53 - 1.

Definition digitValue (c : ascii) : Z := Z.of_N (N_of_ascii c) - 48.

Fixpoint parseDigits (acc : Z) (s : string) : Z :=
  match s with
  | EmptyString => acc
  | String c s' => parseDigits (10 * acc + digitValue c) s'
  end.

Definition parseInt (s : string) : Z := parseDigits 0 s.

(** *** Numbers *)

Inductive number : Type :=
| Num (q : Q)
| NaN.

(** ToNumber on a value that may be [undefined]. *)
Definition toNumber (v : option Q) : number :=
  match v with
  | Some q => Num q
  | None => NaN
  end.

Definition mul (a b : number) : number :=
  match a, b with
  | Num x, Num y => Num (x * y)
  | _, _ => NaN
  end.

Definition add (a b : number) : number :=
  match a, b with
  | Num x, Num y => Num (x + y)
  | _, _ => NaN
  end.

(** [a / b] with a non-zero finite divisor; the aggregator guards its only
    division by [totalIngredientEmission > 0]. *)
Definition div (a b : number) : number :=
  match a, b with
  | Num x, Num y => if Qeq_bool y 0 then NaN else Num (x / y)
  | _, _ => NaN
  end.

(** [a > 0] *)
Definition gtZero (a : number) : bool :=
  match a with
  | Num x => negb (Qle_bool x 0)
  | NaN => false
  end.

(** Truthiness of a number that may be [undefined]: [undefined] and [0] are
    falsy. *)
Definition truthyNum (v : option Q) : bool :=
  match v with
  | Some q => negb (Qeq_bool q 0)
  | None => false
  end.

(** [a || b] on such values. *)
Definition orElse (a b : option Q) : option Q :=
  if truthyNum a then a else b.

(** Truthiness of a string that may be [undefined]. *)
Definition truthyStr (v : option string) : bool :=
  match v with
  | Some EmptyString => false
  | Some _ => true
  | None => false
  end.

(** *** Number.prototype.toFixed

    For a finite [x]: the sign is split off, [n] is the integer for which
    [n / 10^f - x] is closest to zero, the larger one on a tie, and its
    decimal digits are padded on the left with zeros to [f + 1] places. *)

Definition pow10 (f : nat) : Z := 10 ^ Z.of_nat f.

Definition scaledRound (x : Q) (f : nat) : Z :=
  Qfloor (Qabs x * inject_Z (pow10 f) + (1 # 2)).

Fixpoint zeros (k : nat) : string :=
  match k with
  | O => EmptyString
  | S k' => String "0" (zeros k')
  end.

Definition digitsOf (n : Z) : string :=
  NilEmpty.string_of_uint (N.to_uint (Z.to_N n)).

Definition padDigits (m : string) (f : nat) : string :=
  zeros (S f - String.length m) ++ m.

Definition fixedQ (x : Q) (f : nat) : string :=
  let sign := if Qlt_le_dec x 0 then "-" else EmptyString in
  let m := padDigits (digitsOf (scaledRound x f)) f in
  let k := String.length m in
  match f with
  | O => sign ++ m
  | _ => sign ++ substring 0 (k - f) m ++ "." ++ substring (k - f) f m
  end.

Definition toFixed (a : number) (f : nat) : string :=
  match a with
  | Num x => fixedQ x f
  | NaN => "NaN"
  end.

(** *** parseFloat

    The longest prefix that is a decimal literal: an optional sign, digits,
    and an optional fraction; [NaN] when there is no such prefix.  (Exponents
    and [Infinity] do not occur in the strings this program parses.) *)

Fixpoint spanDigits (s : string) : string * string :=
  match s with
  | EmptyString => (EmptyString, EmptyString)
  | String c s' =>
      if isDigit c then let (ds, r) := spanDigits s' in (String c ds, r)
      else (EmptyString, s)
  end.

Definition unsignedLiteral (s : string) : number :=
  let (ip, r) := spanDigits s in
  let fp := match r with
            | String "." r' => fst (spanDigits r')
            | _ => EmptyString
            end in
  match ip, fp with
  | EmptyString, EmptyString => NaN
  | _, _ =>
      Num (inject_Z (parseInt ip)
           + inject_Z (parseInt fp) / inject_Z (pow10 (String.length fp)))
  end.

Definition negate (a : number) : number :=
  match a with
  | Num x => Num (- x)
  | NaN => NaN
  end.

Definition parseFloat (s : string) : number :=
  match trimStart s with
  | String "-" r => negate (unsignedLiteral r)
  | String "+" r => unsignedLiteral r
  | r => unsignedLiteral r
  end.

End JS.

Import JS.

(** ** Objects used as tables and maps *)

Section Objects.
Context {V : Type}.

Definition Obj := list (string * V).

(** [obj[key]]; [None] is [undefined]. *)
Fixpoint get (obj : Obj) (key : string) : option V :=
  match obj with
  | [] => None
  | (k, v) :: rest => if String.eqb k key then Some v else get rest key
  end.

(** [obj[key] = v]: an existing key keeps its place. *)
Fixpoint set (obj : Obj) (key : string) (v : V) : Obj :=
  match obj with
  | [] => [(key, v)]
  | (k, w) :: rest =>
      if String.eqb k key then (k, v) :: rest else (k, w) :: set rest key v
  end.

Definition has (obj : Obj) (key : string) : bool :=
  match get obj key with
  | Some _ => true
  | None => false
  end.
End Objects.
Arguments Obj V : clear implicits.

(** *** Inherited properties

    An object literal has [Object.prototype] behind it, and [obj[key]] finds
    the members of that prototype when [obj] has no own property [key]:
    eleven built-in functions and the accessor [__proto__], whose value is
    the prototype itself.  Each of them is truthy, and none is a number. *)

Definition OBJECT_PROTOTYPE : list string :=
  ["constructor"; "__defineGetter__"; "__defineSetter__"; "hasOwnProperty";
   "__lookupGetter__"; "__lookupSetter__"; "isPrototypeOf";
   "propertyIsEnumerable"; "toString"; "valueOf"; "__proto__";
   "toLocaleString"].

Definition inherited (key : string) : bool :=
  existsb (String.eqb key) OBJECT_PROTOTYPE.

(** What [obj[key]] evaluates to. *)
Inductive Member (V : Type) : Type :=
| Own (v : V)    (**r the value of the own property [key] *)
| Inherited      (**r the member [key] of [Object.prototype] *)
| Undefined.     (**r [undefined]: no such property *)
Arguments Own {V} v.
Arguments Inherited {V}.
Arguments Undefined {V}.

(** [obj[key]] on an object literal. *)
Definition read {V : Type} (obj : Obj V) (key : string) : Member V :=
  match get obj key with
  | Some v => Own v
  | None => if inherited key then Inherited else Undefined
  end.

(** Truthiness of [obj[key]] in a table of objects. *)
Definition present {V : Type} (m : Member V) : bool :=
  match m with
  | Own _ => true
  | Inherited => true
  | Undefined => false
  end.

(** Truthiness of [obj[key]] in a table of numbers. *)
Definition truthy (m : Member Q) : bool :=
  match m with
  | Own q => negb (Qeq_bool q 0)
  | Inherited => true
  | Undefined => false
  end.

(** ToNumber, as a factor of a product applies it: [undefined], a function
    and the prototype object are all [NaN]. *)
Definition numberOf (m : Member Q) : number :=
  match m with
  | Own q => Num q
  | Inherited => NaN
  | Undefined => NaN
  end.

(** The text of a member of [Object.prototype] where a string is wanted (a
    property key): the source text of a built-in function, which carries the
    function's name, and [[object Object]] for the prototype object. *)
Definition memberText (key : string) : string :=
  if String.eqb key "__proto__" then "[object Object]"
  else "function "
       ++ (if String.eqb key "constructor" then "Object" else key)
       ++ "() { [native code] }".

(** The [length] of the built-in function that is the member [key]. *)
Definition memberLength (key : string) : Z :=
  if String.eqb key "__defineGetter__" || String.eqb key "__defineSetter__"
  then 2
  else if String.eqb key "toString" || String.eqb key "valueOf"
          || String.eqb key "toLocaleString"
  then 0
  else 1.

(** ** Static tables *)

Local Open Scope Q_scope.

(** Food emissions (kg CO2e per kg of food). *)
Definition FOOD_EMISSIONS_DB : Obj Q :=
  [("beef", 60.0); ("lamb", 24.0); ("mutton", 24.0); ("pork", 7.0);
   ("bacon", 7.2); ("ham", 6.8); ("chicken", 6.0); ("turkey", 5.5);
   ("duck", 9.8); ("eggs", 4.8); ("fish", 5.1); ("salmon", 6.0);
   ("tuna", 6.1); ("shrimp", 12.0); ("prawns", 12.0); ("cheese", 13.5);
   ("paneer", 13.0); ("milk", 3.2); ("butter", 12.0); ("cream", 9.0);
   ("yogurt", 2.5); ("ghee", 12.5); ("cream cheese", 11.8); ("lentils", 0.9);
   ("tofu", 2.0); ("beans", 1.1); ("chickpeas", 0.9); ("soybeans", 1.0);
   ("tempeh", 2.2); ("seitan", 1.2); ("plant-based meat", 3.5);
   ("wheat", 1.6); ("rice", 4.0); ("oats", 1.4); ("barley", 1.0);
   ("corn", 1.1); ("quinoa", 1.3); ("bread", 1.7); ("pasta", 1.5);
   ("flour", 1.6); ("vegetables", 1.5); ("potatoes", 0.5); ("tomatoes", 1.1);
   ("onions", 0.5); ("garlic", 0.6); ("bell pepper", 1.0);
   ("tomato puree", 1.8); ("carrots", 0.4); ("broccoli", 0.6);
   ("spinach", 0.5); ("lettuce", 0.7); ("kale", 0.5); ("cabbage", 0.4);
   ("cucumber", 0.6); ("eggplant", 0.7); ("mushrooms", 0.6); ("fruits", 1.0);
   ("apples", 0.4); ("bananas", 0.8); ("oranges", 0.4); ("berries", 1.1);
   ("grapes", 1.0); ("mangoes", 1.2); ("oil", 3.3); ("olive oil", 5.1);
   ("coconut oil", 2.3); ("nuts", 2.5); ("almonds", 3.5); ("walnuts", 2.3);
   ("cashews", 2.2); ("seeds", 1.8); ("spices", 1.5); ("sugar", 1.9);
   ("salt", 0.3); ("pepper", 1.1); ("vinegar", 0.9); ("tomato ketchup", 2.1);
   ("mayonnaise", 4.5); ("coffee", 17.0); ("tea", 2.0); ("beer", 1.1);
   ("wine", 1.8); ("soft drink", 0.5)].

(** Variations of ingredient names, mapped to the names of the table above. *)
Definition INGREDIENT_NORMALIZATION : Obj string :=
  [("garbanzo beans", "chickpeas"); ("chana", "chickpeas");
   ("chick peas", "chickpeas"); ("gram", "chickpeas"); ("dahl", "lentils");
   ("dal", "lentils"); ("moong", "lentils"); ("masoor", "lentils");
   ("gram flour", "flour"); ("besan", "flour"); ("maida", "flour");
   ("atta", "flour"); ("naan", "bread"); ("chapati", "bread");
   ("roti", "bread"); ("paratha", "bread"); ("chicken breast", "chicken");
   ("chicken thigh", "chicken"); ("lamb chop", "lamb");
   ("ground beef", "beef"); ("minced beef", "beef"); ("steak", "beef");
   ("mutton", "lamb"); ("egg", "eggs"); ("capsicum", "bell pepper");
   ("pepper", "bell pepper"); ("tomato", "tomatoes"); ("onion", "onions");
   ("potato", "potatoes"); ("mushroom", "mushrooms");
   ("eggplant", "eggplant"); ("aubergine", "eggplant");
   ("brinjal", "eggplant"); ("cream cheese", "cheese"); ("cheddar", "cheese");
   ("mozzarella", "cheese"); ("parmesan", "cheese"); ("feta", "cheese");
   ("cottage cheese", "paneer"); ("creamer", "cream"); ("yoghurt", "yogurt");
   ("curd", "yogurt"); ("refined oil", "oil"); ("cooking oil", "oil");
   ("vegetable oil", "oil"); ("canola oil", "oil"); ("sunflower oil", "oil");
   ("margarine", "butter"); ("ketchup", "tomato ketchup");
   ("soy sauce", "spices"); ("hot sauce", "spices");
   ("chilli sauce", "spices"); ("masala", "spices");
   ("garam masala", "spices")].

(** Category fallbacks (kg CO2e per kg); its properties are read by name. *)
Module Category.
Record t : Type := {
  meat : Q; seafood : Q; dairy : Q; vegetables : Q; fruits : Q; grains : Q;
  spices : Q; pulses : Q; oil : Q; nuts : Q; beverages : Q; processed : Q
}.
End Category.

Definition INGREDIENT_CATEGORY_FALLBACK : Category.t := {|
  Category.meat := 30.0;
  Category.seafood := 6.0;
  Category.dairy := 10.0;
  Category.vegetables := 1.0;
  Category.fruits := 1.0;
  Category.grains := 1.6;
  Category.spices := 1.5;
  Category.pulses := 0.9;
  Category.oil := 3.3;
  Category.nuts := 2.5;
  Category.beverages := 1.5;
  Category.processed := 4.0
|}.

(** Packaging emissions (kg CO2e per unit) by material and size. *)
Definition PACKAGING_EMISSIONS : Obj (Obj Q) :=
  [("plastic", [("small", 0.1); ("medium", 0.2); ("large", 0.4)]);
   ("paper", [("small", 0.05); ("medium", 0.1); ("large", 0.2)]);
   ("aluminum", [("small", 0.15); ("medium", 0.3); ("large", 0.5)]);
   ("styrofoam", [("small", 0.15); ("medium", 0.25); ("large", 0.45)]);
   ("glass", [("small", 0.3); ("medium", 0.5); ("large", 0.8)])].

Module DEFAULT_PACKAGING.
Definition type : string := "plastic".
Definition size : string := "medium".
End DEFAULT_PACKAGING.

Definition PACKAGING_EMISSION_PER_DISH : Q := 0.2.

(** Travel emissions (kg CO2e per km). *)
Definition TRAVEL_EMISSIONS : Obj Q :=
  [("motorcycle", 0.115); ("scooter", 0.09); ("car", 0.18);
   ("electric-car", 0.06); ("van", 0.23); ("bicycle", 0.008);
   ("e-bicycle", 0.01); ("walking", 0.0)].

Definition DEFAULT_TRANSPORT : string := "motorcycle".

Definition TRAVEL_EMISSION_PER_KM : Q := 0.105.

(** Recipes of common dishes, in grams per standard serving. *)
Definition RECIPE_DB : Obj (Obj Q) :=
  [("kadhai paneer",
    [("paneer", 100); ("bell pepper", 50); ("onions", 50); ("tomatoes", 100);
     ("oil", 10); ("spices", 5)]);
   ("tawa roti", [("wheat", 50); ("oil", 2)]);
   ("dal fry",
    [("lentils", 100); ("onions", 30); ("tomatoes", 50); ("oil", 10);
     ("spices", 5)]);
   ("chicken curry",
    [("chicken", 150); ("onions", 50); ("tomatoes", 100); ("oil", 15);
     ("spices", 8)]);
   ("chole kulche",
    [("chickpeas", 150); ("onions", 30); ("tomatoes", 50); ("oil", 10);
     ("flour", 80); ("butter", 5); ("spices", 8)]);
   ("butter chicken",
    [("chicken", 200); ("butter", 30); ("cream", 50); ("tomatoes", 100);
     ("onions", 30); ("spices", 10)]);
   ("palak paneer",
    [("paneer", 100); ("spinach", 200); ("onions", 30); ("tomatoes", 20);
     ("cream", 20); ("oil", 10); ("spices", 5)]);
   ("biryani",
    [("rice", 150); ("chicken", 100); ("onions", 50); ("oil", 15);
     ("spices", 10)]);
   ("naan", [("flour", 80); ("yogurt", 20); ("butter", 10)]);
   ("samosa",
    [("flour", 50); ("potatoes", 80); ("peas", 20); ("oil", 30);
     ("spices", 5)])].

(** ** External services

    Each call either returns the part of the payload the program reads or
    throws (network error, rejected promise, or a payload on which reading
    that part fails). *)

(** One entry of [ingredientWidget.json]: [item.name], a string, and
    [item.amount.metric.value], a number; [None] when reading either one
    throws.  Payloads whose name is not a string or whose amount is not a
    number are outside the model. *)
Module Item.
Record t : Type := { name : string; value : Q }.
End Item.

Module Spoonacular.
Record t : Type := {
  (** [searchRes.data.results], as the list of recipe ids; absent results
      are the empty list. *)
  complexSearch : string -> Attempt (list Z);
  (** [detailsRes.data.ingredients] *)
  ingredientWidget : Z -> Attempt (list (option Item.t))
}.
End Spoonacular.

Module Coords.
Record t : Type := { lat : Q; lng : Q }.
End Coords.

Module RouteRequest.
Record t : Type := {
  coordinates : (Q * Q) * (Q * Q);
  profile : string;
  preference : string
}.
End RouteRequest.

Module Services.
Record t : Type := {
  recipes : Spoonacular.t;
  (** Geoapify: [data.features], each as its [geometry.coordinates]. *)
  geocode : string -> Attempt (list (Q * Q));
  (** OpenRouteService: [res.data.routes[0].summary.distance], in meters. *)
  directions : RouteRequest.t -> Attempt Q
}.
End Services.

(** ** Recipe resolution *)

(** Fallback estimate of the ingredients of a dish from words in its name. *)
Definition estimateDishIngredients (dishName : string) : Obj Q :=
  let name := toLowerCase dishName in
  if includes name "chicken" || includes name "murgh" then
    [("chicken", 150); ("onions", 40); ("tomatoes", 60); ("oil", 15);
     ("spices", 10)]
  else if includes name "paneer" then
    [("paneer", 100); ("onions", 40); ("tomatoes", 60); ("oil", 10);
     ("spices", 8)]
  else if includes name "dal" || includes name "lentil" then
    [("lentils", 100); ("onions", 30); ("tomatoes", 40); ("oil", 10);
     ("spices", 5)]
  else if includes name "rice" || includes name "biryani"
          || includes name "pulao" then
    let result := [("rice", 150); ("onions", 30); ("oil", 15); ("spices", 8)] in
    if includes name "chicken" || includes name "murgh" then
      set result "chicken" 100
    else if includes name "mutton" || includes name "lamb" then
      set result "lamb" 100
    else if includes name "veg" then
      set result "vegetables" 100
    else result
  else if includes name "roti" || includes name "naan"
          || includes name "bread" then
    [("flour", 80); ("oil", 5)]
  else
    [("vegetables", 150); ("onions", 40); ("tomatoes", 50); ("oil", 10);
     ("spices", 5)].

(** [INGREDIENT_NORMALIZATION[name] || name] *)
Definition normalize (name : string) : string :=
  match read INGREDIENT_NORMALIZATION name with
  | Own (String c r) => String c r
  | Own EmptyString => name
  | Inherited => memberText name
  | Undefined => name
  end.

(** The loop over the ingredients of the widget; reading a malformed item
    throws. *)
Fixpoint collectIngredients (items : list (option Item.t)) (result : Obj Q)
  : Attempt (Obj Q) :=
  match items with
  | [] => Returned result
  | None :: _ => Thrown
  | Some item :: rest =>
      let name := normalize (toLowerCase (Item.name item)) in
      collectIngredients rest (set result name (Item.value item))
  end.

Definition fetchIngredientsFromAPI (api : Spoonacular.t) (dishName : string)
  : Attempt (Obj Q) :=
  try_catch
    (results <- Spoonacular.complexSearch api dishName ;;
     match results with
     | [] => Returned (estimateDishIngredients dishName)
     | recipeId :: _ =>
         ingredients <- Spoonacular.ingredientWidget api recipeId ;;
         collectIngredients ingredients []
     end)
    (Returned (estimateDishIngredients dishName)).

(** ** Emission factors *)

(** Category of an ingredient that is not in the table, by keywords. *)
Definition estimateEmissionCategory (ingredient : string) : Q :=
  let lower := toLowerCase ingredient in
  if includes lower "meat" || includes lower "beef" || includes lower "lamb"
     || includes lower "pork" || includes lower "veal"
  then Category.meat INGREDIENT_CATEGORY_FALLBACK
  else if includes lower "fish" || includes lower "prawn"
          || includes lower "shrimp" || includes lower "salmon"
          || includes lower "seafood"
  then Category.seafood INGREDIENT_CATEGORY_FALLBACK
  else if includes lower "milk" || includes lower "cream"
          || includes lower "cheese" || includes lower "curd"
          || includes lower "yogurt" || includes lower "butter"
          || includes lower "ghee"
  then Category.dairy INGREDIENT_CATEGORY_FALLBACK
  else if includes lower "flour" || includes lower "bread"
          || includes lower "roti" || includes lower "naan"
          || includes lower "rice" || includes lower "cereal"
          || includes lower "grain" || includes lower "pasta"
  then Category.grains INGREDIENT_CATEGORY_FALLBACK
  else if includes lower "chickpeas" || includes lower "lentils"
          || includes lower "dal" || includes lower "beans"
          || includes lower "peas"
  then Category.pulses INGREDIENT_CATEGORY_FALLBACK
  else if includes lower "oil" || includes lower "fat"
          || includes lower "ghee"
  then Category.oil INGREDIENT_CATEGORY_FALLBACK
  else if includes lower "spice" || includes lower "masala"
          || includes lower "powder" || includes lower "sauce"
          || includes lower "paste" || includes lower "extract"
  then Category.spices INGREDIENT_CATEGORY_FALLBACK
  else if includes lower "nut" || includes lower "almond"
          || includes lower "cashew" || includes lower "seed"
  then Category.nuts INGREDIENT_CATEGORY_FALLBACK
  else if includes lower "drink" || includes lower "juice"
          || includes lower "tea" || includes lower "coffee"
  then Category.beverages INGREDIENT_CATEGORY_FALLBACK
  else if includes lower "processed" || includes lower "frozen"
          || includes lower "ready" || includes lower "instant"
  then Category.processed INGREDIENT_CATEGORY_FALLBACK
  else Category.vegetables INGREDIENT_CATEGORY_FALLBACK.

(** [FOOD_EMISSIONS_DB[ingredient] || estimateEmissionCategory(ingredient)] *)
Definition emissionFactorOf (ingredient : string) : Member Q :=
  let found := read FOOD_EMISSIONS_DB ingredient in
  if truthy found then found else Own (estimateEmissionCategory ingredient).

Definition computeEmissionFromIngredients (ingredients : Obj Q) : number :=
  match ingredients with
  | [] => Num 1.5
  | _ =>
      fold_left
        (fun total entry =>
           let '(ingredient, grams) := entry in
           let kg := grams / 1000.0 in
           let emissionFactor := emissionFactorOf ingredient in
           add total (mul (numberOf emissionFactor) (Num kg)))
        ingredients (Num 0)
  end.

(** ** Travel distance *)

(** A travel description: the result of [getTravelDistanceKm], and the
    structured form of the travel input of [calculateFoodEmission], where
    every property may be absent.  A distance or factor that is present is a
    number, a transport type that is present is a string; objects with other
    values there are outside the model. *)
Module Travel.
Record t : Type := {
  distance : option Q;
  transportType : option string;
  emissionFactor : option Q
}.
End Travel.

Definition getCoordinatesFromAddress
    (geocode : string -> Attempt (list (Q * Q))) (address : option string)
  : Attempt (option Coords.t) :=
  match address with
  | None => Returned None
  | Some a =>
      if negb (truthyStr (Some a)) || negb (truthyStr (Some (trim a))) then
        Returned None
      else
        try_catch
          (features <- geocode a ;;
           match features with
           | [] => Returned None
           | coords :: _ =>
               Returned
                 (Some {| Coords.lng := fst coords; Coords.lat := snd coords |})
           end)
          (Returned None)
  end.

(** [TRAVEL_EMISSIONS[transportType] || TRAVEL_EMISSIONS[DEFAULT_TRANSPORT]]
    for a transport type that is not a member of [Object.prototype].  (For
    such a member the program's factor is the member itself, which
    [Travel.emissionFactor] has no value for; the properties of the factor
    below leave those names out.) *)
Definition travelFactor (transportType : string) : option Q :=
  orElse (get TRAVEL_EMISSIONS transportType)
         (get TRAVEL_EMISSIONS DEFAULT_TRANSPORT).

Definition fallbackTravel (transportType : string) : Travel.t :=
  {| Travel.distance := Some 5;
     Travel.transportType := Some transportType;
     Travel.emissionFactor := travelFactor transportType |}.

(** The request body for routing. *)
Definition routeBody (originCoords destCoords : Coords.t)
    (transportType : string) : RouteRequest.t :=
  {| RouteRequest.coordinates :=
       ((Coords.lng originCoords, Coords.lat originCoords),
        (Coords.lng destCoords, Coords.lat destCoords));
     RouteRequest.profile :=
       if String.eqb transportType "bicycle"
          || String.eqb transportType "e-bicycle"
       then "cycling-regular" else "driving-car";
     RouteRequest.preference := "recommended" |}.

(** [transportArg] is [None] when the third argument is omitted. *)
Definition getTravelDistanceKm (services : Services.t)
    (originAddress : option string) (destCoords : option Coords.t)
    (transportArg : option string) : Attempt Travel.t :=
  let transportType :=
    match transportArg with Some t => t | None => DEFAULT_TRANSPORT end in
  if negb (truthyStr originAddress)
     || match destCoords with Some _ => false | None => true end
  then Returned (fallbackTravel transportType)
  else
    originCoords <-
      getCoordinatesFromAddress (Services.geocode services) originAddress ;;
    match originCoords with
    | None => Returned (fallbackTravel transportType)
    | Some origin =>
        try_catch
          (match destCoords with
           | None => Thrown
           | Some dest =>
               let body := routeBody origin dest transportType in
               meters <- Services.directions services body ;;
               let km := meters / 1000.0 in
               Returned
                 {| Travel.distance := Some km;
                    Travel.transportType := Some transportType;
                    Travel.emissionFactor := travelFactor transportType |}
           end)
          (Returned (fallbackTravel transportType))
    end.

(** ** Packaging *)

(** [None] for an omitted type or size argument.  Reading a size of a type
    that is not in the table would throw.

    When [PACKAGING_EMISSIONS[type]] is a member of [Object.prototype],
    [PACKAGING_EMISSIONS[type][packagingSize]] is a property of a built-in.
    Reading [caller] or [arguments] of a built-in function throws; its
    [length] is a number; anything else a built-in has under a name is a
    function, a string, an object, [null] or [undefined], and whether it is
    kept as the size or replaced by the default size, the factor read next
    is not a number. *)
Definition calculatePackagingEmissions (numberOfDishes : Z)
    (typeArg sizeArg : option string) : Attempt number :=
  let packagingType :=
    match typeArg with Some t => t | None => DEFAULT_PACKAGING.type end in
  let packagingSize :=
    match sizeArg with Some s => s | None => DEFAULT_PACKAGING.size end in
  let type :=
    if present (read PACKAGING_EMISSIONS packagingType) then packagingType
    else DEFAULT_PACKAGING.type in
  let additionalEmissions := 0.05 in
  match read PACKAGING_EMISSIONS type with
  | Undefined => Thrown
  | Own sizes =>
      let size :=
        if truthy (read sizes packagingSize) then packagingSize
        else DEFAULT_PACKAGING.size in
      let emissionFactor := read sizes size in
      Returned
        (add (mul (numberOf emissionFactor) (Num (inject_Z numberOfDishes)))
             (Num additionalEmissions))
  | Inherited =>
      let isFunction := negb (String.eqb type "__proto__") in
      if isFunction
         && (String.eqb packagingSize "caller"
             || String.eqb packagingSize "arguments")
      then Thrown
      else
        let emissionFactor :=
          if isFunction && String.eqb packagingSize "length"
             && negb (memberLength type =? 0)%Z
          then Num (inject_Z (memberLength type))
          else NaN in
        Returned
          (add (mul emissionFactor (Num (inject_Z numberOfDishes)))
               (Num additionalEmissions))
  end.

(** ** Dish string parser *)

(** The longest prefix without a line terminator: what [.+] can take. *)
Fixpoint takeLine (s : string) : string :=
  match s with
  | EmptyString => EmptyString
  | String c s' => if isLineTerminator c then EmptyString else String c (takeLine s')
  end.

(** [/(\d+) x (.+)/] tried at the start of [s].  The digits are taken
    greedily; giving one back leaves a digit where the space must be, so no
    shorter run of digits can match. *)
Definition matchHere (s : string) : option (string * string) :=
  let (digits, rest) := spanDigits s in
  match digits, rest with
  | String _ _, String " " (String "x" (String " " tail)) =>
      match takeLine tail with
      | EmptyString => None
      | name => Some (digits, name)
      end
  | _, _ => None
  end.

(** [item.match(/(\d+) x (.+)/)]: the leftmost position where the pattern
    matches, with its two groups. *)
Fixpoint regexMatch (item : string) : option (string * string) :=
  match matchHere item with
  | Some groups => Some groups
  | None =>
      match item with
      | EmptyString => None
      | String _ item' => regexMatch item'
      end
  end.

(** An order line: [count] and [dishName]. *)
Definition parseItem (item : string) : option (Z * string) :=
  match regexMatch item with
  | None => None
  | Some (digits, name) => Some (parseInt digits, trim name)
  end.

(** [dishString.toLowerCase().split(",").map(s => s.trim())] *)
Definition splitDishes (dishString : string) : list string :=
  map trim (split "," (toLowerCase dishString)).

(** The order lines the loop of [calculateFoodEmission] processes. *)
Definition parseDishes (dishString : string) : list (Z * string) :=
  flat_map (fun item => match parseItem item with
                        | Some line => [line]
                        | None => []
                        end)
           (splitDishes dishString).

(** ** Aggregator *)

(** The second argument of [calculateFoodEmission]: a number that is not
    [NaN], an object, or a value of another type.  [null], whose type is
    ['object'] and whose [distance] cannot be read, is outside the model. *)
Inductive TravelInput : Type :=
| TravelNumber (km : Q)         (**r [typeof travelDetails === 'number'] *)
| TravelObject (o : Travel.t)   (**r [typeof travelDetails === 'object'] *)
| TravelOther.                  (**r any other type, such as a string *)

Module Dish.
Record t : Type := {
  name : string;
  count : Z;
  emission : string;
  totalEmission : string;
  ingredients : Obj Q
}.
End Dish.

Module Share.
Record t : Type := {
  amount : string;
  emission : string;
  percentage : option string
}.
End Share.

Module Details.
Record t : Type := {
  dishes : list Dish.t;
  ingredients : Obj Share.t;
  dishCount : option Z;
  packagingType : option string
}.
End Details.

Module Result.
Record t : Type := {
  food : string;
  packaging : string;
  travel : string;
  travelDistance : string;
  transportType : string;
  total : string;
  details : Details.t
}.
End Result.

(** The state of the loop over the dishes. *)
Module Loop.
Record t : Type := {
  totalFoodEmission : number;
  totalDishCount : Z;
  allIngredients : Obj Q;
  dishDetails : list Dish.t
}.
End Loop.

(** [allIngredients[ingredient]] grows by [amount * count].  The keys are
    those of the recipes of the order. *)
Definition trackIngredients (allIngredients ingredients : Obj Q) (count : Z)
  : Obj Q :=
  fold_left
    (fun all entry =>
       let '(ingredient, amount) := entry in
       match get all ingredient with
       | Some present =>
           if truthyNum (Some present)
           then set all ingredient (present + amount * inject_Z count)
           else set all ingredient (amount * inject_Z count)
       | None => set all ingredient (amount * inject_Z count)
       end)
    ingredients allIngredients.

(** The recipe of a dish: the recipe database first, otherwise the API,
    which falls back to the estimate.  When [RECIPE_DB[dishName]] is a
    member of [Object.prototype] it is taken for the recipe; a built-in has
    no enumerable property of its own, so it is a recipe without
    ingredients. *)
Definition resolveIngredients (api : Spoonacular.t) (dishName : string)
  : Attempt (Obj Q) :=
  match read RECIPE_DB dishName with
  | Own recipe => Returned recipe
  | Inherited => Returned []
  | Undefined => fetchIngredientsFromAPI api dishName
  end.

(** One round of the loop. *)
Definition processDish (api : Spoonacular.t) (st : Loop.t) (item : string)
  : Attempt Loop.t :=
  match parseItem item with
  | None => Returned st
  | Some (count, dishName) =>
      let totalDishCount := (Loop.totalDishCount st + count)%Z in
      ingredients <- resolveIngredients api dishName ;;
      let emission := computeEmissionFromIngredients ingredients in
      Returned
        {| Loop.totalFoodEmission :=
             add (Loop.totalFoodEmission st)
                 (mul emission (Num (inject_Z count)));
           Loop.totalDishCount := totalDishCount;
           Loop.allIngredients :=
             trackIngredients (Loop.allIngredients st) ingredients count;
           Loop.dishDetails :=
             Loop.dishDetails st ++
             [{| Dish.name := dishName;
                 Dish.count := count;
                 Dish.emission := toFixed emission 2;
                 Dish.totalEmission :=
                   toFixed (mul emission (Num (inject_Z count))) 2;
                 Dish.ingredients := ingredients |}] |}
  end.

Fixpoint processDishes (api : Spoonacular.t) (st : Loop.t) (items : list string)
  : Attempt Loop.t :=
  match items with
  | [] => Returned st
  | item :: rest =>
      st' <- processDish api st item ;;
      processDishes api st' rest
  end.

(** The emission of every ingredient of the order and their total. *)
Definition ingredientShares (allIngredients : Obj Q)
  : Obj Share.t * number :=
  fold_left
    (fun acc entry =>
       let '(ingredientEmissions, totalIngredientEmission) := acc in
       let '(ingredient, amount) := entry in
       let kg := amount / 1000.0 in
       let emissionFactor := emissionFactorOf ingredient in
       let emission := mul (numberOf emissionFactor) (Num kg) in
       (set ingredientEmissions ingredient
            {| Share.amount := toFixed (Num amount) 1;
               Share.emission := toFixed emission 2;
               Share.percentage := None |},
        add totalIngredientEmission emission))
    allIngredients ([], Num 0).

(** The percentage of every ingredient. *)
Definition addPercentages (ingredientEmissions : Obj Share.t)
    (totalIngredientEmission : number) : Obj Share.t :=
  map
    (fun entry =>
       let '(ingredient, share) := entry in
       let emission := parseFloat (Share.emission share) in
       (ingredient,
        {| Share.amount := Share.amount share;
           Share.emission := Share.emission share;
           Share.percentage :=
             Some (if gtZero totalIngredientEmission
                   then toFixed
                          (mul (div emission totalIngredientEmission)
                               (Num 100)) 1
                   else "0.0") |}))
    ingredientEmissions.

(** The branch taken for a travel object with a truthy [distance]. *)
Definition structuredTravel (o : Travel.t) : option (Q * string * number) :=
  if truthyNum (Travel.distance o) then
    match Travel.distance o with
    | Some travelDistance =>
        let transportType :=
          match Travel.transportType o with
          | Some t => if truthyStr (Some t) then t else DEFAULT_TRANSPORT
          | None => DEFAULT_TRANSPORT
          end in
        Some (travelDistance, transportType,
              mul (Num travelDistance)
                  (if truthyNum (Travel.emissionFactor o)
                   then toNumber (Travel.emissionFactor o)
                   else numberOf (read TRAVEL_EMISSIONS transportType)))
    | None => None
    end
  else None.

(** The travel step of the early return for an empty dish string:
    [travelDistance], [transportType] and [travelEmission]. *)
Definition travelOfEmptyOrder (travelDetails : TravelInput)
  : Q * string * number :=
  match travelDetails with
  | TravelObject o =>
      match structuredTravel o with
      | Some r => r
      | None => (0, DEFAULT_TRANSPORT, Num 0)
      end
  | TravelNumber km =>
      (km, DEFAULT_TRANSPORT,
       mul (Num km) (toNumber (get TRAVEL_EMISSIONS DEFAULT_TRANSPORT)))
  | TravelOther => (0, DEFAULT_TRANSPORT, Num 0)
  end.

(** The travel step after the dishes are processed. *)
Definition travelOfOrder (travelDetails : TravelInput) : Q * string * number :=
  match travelDetails with
  | TravelObject o =>
      match structuredTravel o with
      | Some r => r
      | None => (0, DEFAULT_TRANSPORT, Num 0)
      end
  | TravelNumber km =>
      (km, DEFAULT_TRANSPORT, Num (km * TRAVEL_EMISSION_PER_KM))
  | TravelOther => (0, DEFAULT_TRANSPORT, Num 0)
  end.

(** The packaging step: the detailed calculation when
    [PACKAGING_EMISSIONS[packagingType]] is truthy, the old per-dish
    constant otherwise. *)
Definition packagingOfOrder (totalDishCount : Z) (packagingType : string)
  : Attempt number :=
  if truthyStr (Some packagingType)
     && present (read PACKAGING_EMISSIONS packagingType)
  then
    calculatePackagingEmissions totalDishCount (Some packagingType)
      (Some (if (totalDishCount >? 2)%Z then "large" else "medium"))
  else
    Returned (Num (PACKAGING_EMISSION_PER_DISH * inject_Z totalDishCount)).

(** [None] stands for an omitted argument: [travelDetails = 0] and
    [packagingType = "plastic"] are the defaults; a missing [dishString] is
    [undefined]. *)
Definition calculateFoodEmission (api : Spoonacular.t)
    (dishString : option string) (travelArg : option TravelInput)
    (packagingArg : option string) : Attempt Result.t :=
  let travelDetails :=
    match travelArg with Some t => t | None => TravelNumber 0 end in
  let packagingType :=
    match packagingArg with Some p => p | None => "plastic" end in
  match (if truthyStr dishString then dishString else None) with
  | None =>
      (* Handle empty dishes *)
      let '(travelDistance, transportType, travelEmission) :=
        travelOfEmptyOrder travelDetails in
      Returned
        {| Result.food := "0.00";
           Result.packaging := "0.00";
           Result.travel := toFixed travelEmission 2;
           Result.travelDistance := toFixed (Num travelDistance) 2;
           Result.transportType := transportType;
           Result.total := toFixed travelEmission 2;
           Result.details :=
             {| Details.dishes := [];
                Details.ingredients := [];
                Details.dishCount := None;
                Details.packagingType := None |} |}
  | Some dishString =>
      (* Parse dishes from the input string and process each dish *)
      let dishes := splitDishes dishString in
      st <- processDishes api
              {| Loop.totalFoodEmission := Num 0;
                 Loop.totalDishCount := 0;
                 Loop.allIngredients := [];
                 Loop.dishDetails := [] |}
              dishes ;;
      let totalFoodEmission := Loop.totalFoodEmission st in
      let totalDishCount := Loop.totalDishCount st in
      (* Calculate packaging emissions *)
      packagingEmission <- packagingOfOrder totalDishCount packagingType ;;
      (* Process travel details *)
      let '(travelDistance, transportType, travelEmission) :=
        travelOfOrder travelDetails in
      (* Calculate ingredient emission percentages *)
      let '(ingredientEmissions, totalIngredientEmission) :=
        ingredientShares (Loop.allIngredients st) in
      let ingredientEmissions :=
        addPercentages ingredientEmissions totalIngredientEmission in
      Returned
        {| Result.food := toFixed totalFoodEmission 2;
           Result.packaging := toFixed packagingEmission 2;
           Result.travel := toFixed travelEmission 2;
           Result.travelDistance := toFixed (Num travelDistance) 2;
           Result.transportType := transportType;
           Result.total :=
             toFixed (add (add totalFoodEmission packagingEmission)
                          travelEmission) 2;
           Result.details :=
             {| Details.dishes := Loop.dishDetails st;
                Details.ingredients := ingredientEmissions;
                Details.dishCount := Some totalDishCount;
                Details.packagingType := Some packagingType |} |}
  end.

(** The test of the module, [testWithRealExample]. *)
Definition testWithRealExample (api : Spoonacular.t) : Attempt Result.t :=
  let dishString := "2 x butter chicken, 1 x naan" in
  let travelDistance := 7.5 in
  calculateFoodEmission api (Some dishString)
    (Some (TravelNumber travelDistance)) None.

(** A recipe service that is never reachable. *)
Definition offline : Spoonacular.t :=
  {| Spoonacular.complexSearch := fun _ => Thrown;
     Spoonacular.ingredientWidget := fun _ => Thrown |}.

(** ** Vocabulary of the specification *)

(** Equality and distance of numbers; nothing is equal or close to [NaN]. *)
Definition numEq (a b : number) : Prop :=
  match a, b with
  | Num x, Num y => x == y
  | _, _ => False
  end.

Definition within (tolerance : Q) (a b : number) : Prop :=
  match a, b with
  | Num x, Num y => Qabs (x - y) <= tolerance
  | _, _ => False
  end.

(** *** Parser: clauses of a dish string *)

Fixpoint commaFree (s : string) : bool :=
  match s with
  | EmptyString => true
  | String c s' => negb (Ascii.eqb c ",") && commaFree s'
  end.

Definition joinClauses (clauses : list string) : string :=
  String.concat "," clauses.

(** The order line of a clause, if it has one. *)
Definition lineOf (clause : string) : option (Z * string) :=
  parseItem (trim (toLowerCase clause)).



Fixpoint validLines (clauses : list string) : list (Z * string) :=
  match clauses with
  | [] => []
  | clause :: rest =>
      match lineOf clause with
      | Some line => line :: validLines rest
      | None => validLines rest
      end
  end.

Fixpoint allDigits (s : string) : bool :=
  match s with
  | EmptyString => true
  | String c s' => isDigit c && allDigits s'
  end.

Fixpoint oneLine (s : string) : bool :=
  match s with
  | EmptyString => true
  | String c s' => negb (isLineTerminator c) && oneLine s'
  end.

(** *** Emission factor resolver: ordered keyword rules

    The classifier as the specification words it: a fixed sequence of
    (keywords, category factor) pairs, the first pair with a keyword that
    occurs in the lower-cased name wins, and the vegetables factor is the
    final default. *)

Definition meatKeywords : list string := ["meat"; "beef"; "lamb"; "pork"; "veal"].
Definition seafoodKeywords : list string :=
  ["fish"; "prawn"; "shrimp"; "salmon"; "seafood"].
Definition dairyKeywords : list string :=
  ["milk"; "cream"; "cheese"; "curd"; "yogurt"; "butter"; "ghee"].
Definition oilKeywords : list string := ["oil"; "fat"; "ghee"].

Definition categoryRules : list (list string * Q) :=
  [(meatKeywords, Category.meat INGREDIENT_CATEGORY_FALLBACK);
   (seafoodKeywords, Category.seafood INGREDIENT_CATEGORY_FALLBACK);
   (dairyKeywords, Category.dairy INGREDIENT_CATEGORY_FALLBACK);
   (["flour"; "bread"; "roti"; "naan"; "rice"; "cereal"; "grain"; "pasta"],
    Category.grains INGREDIENT_CATEGORY_FALLBACK);
   (["chickpeas"; "lentils"; "dal"; "beans"; "peas"],
    Category.pulses INGREDIENT_CATEGORY_FALLBACK);
   (oilKeywords, Category.oil INGREDIENT_CATEGORY_FALLBACK);
   (["spice"; "masala"; "powder"; "sauce"; "paste"; "extract"],
    Category.spices INGREDIENT_CATEGORY_FALLBACK);
   (["nut"; "almond"; "cashew"; "seed"],
    Category.nuts INGREDIENT_CATEGORY_FALLBACK);
   (["drink"; "juice"; "tea"; "coffee"],
    Category.beverages INGREDIENT_CATEGORY_FALLBACK);
   (["processed"; "frozen"; "ready"; "instant"],
    Category.processed INGREDIENT_CATEGORY_FALLBACK)].

Definition mentionsAny (lower : string) (keywords : list string) : bool :=
  existsb (includes lower) keywords.

Fixpoint firstMatch (rules : list (list string * Q)) (lower : string)
  : option Q :=
  match rules with
  | [] => None
  | (keywords, factor) :: rest =>
      if mentionsAny lower keywords then Some factor else firstMatch rest lower
  end.

Definition categoryByRules (ingredient : string) : Q :=
  match firstMatch categoryRules (toLowerCase ingredient) with
  | Some factor => factor
  | None => Category.vegetables INGREDIENT_CATEGORY_FALLBACK
  end.

(** *** Travel resolver: the degraded cases *)

Definition requestedTransport (transportArg : option string) : string :=
  match transportArg with
  | Some t => t
  | None => DEFAULT_TRANSPORT
  end.

Inductive Degraded (services : Services.t) (originAddress : option string)
    (destCoords : option Coords.t) (transportType : string) : Prop :=
| MissingOrigin :
    truthyStr originAddress = false ->
    Degraded services originAddress destCoords transportType
| MissingDestination :
    destCoords = None ->
    Degraded services originAddress destCoords transportType
| BlankOrigin (a : string) :
    originAddress = Some a -> trim a = EmptyString ->
    Degraded services originAddress destCoords transportType
| GeocodingErrors (a : string) :
    originAddress = Some a -> Services.geocode services a = Thrown ->
    Degraded services originAddress destCoords transportType
| GeocodingFindsNothing (a : string) :
    originAddress = Some a -> Services.geocode services a = Returned [] ->
    Degraded services originAddress destCoords transportType
| RoutingFails (a : string) (found : Q * Q) (others : list (Q * Q))
    (dest : Coords.t) :
    originAddress = Some a -> destCoords = Some dest ->
    Services.geocode services a = Returned (found :: others) ->
    Services.directions services
      (routeBody {| Coords.lng := fst found; Coords.lat := snd found |}
                 dest transportType)
    = Thrown ->
    Degraded services originAddress destCoords transportType.

(** Services where the geocoder finds the address and no route comes back. *)
Definition noRoute : Services.t :=
  {| Services.recipes := offline;
     Services.geocode := fun _ => Returned [(77.0687, 28.6343)];
     Services.directions := fun _ => Thrown |}.

(** *** Packaging model as the specification words it *)

Definition unitFactor (type size : string) : option Q :=
  match get PACKAGING_EMISSIONS type with
  | Some sizes => get sizes size
  | None => None
  end.

Definition resolvedType (packagingType : string) : string :=
  if has PACKAGING_EMISSIONS packagingType then packagingType
  else DEFAULT_PACKAGING.type.

Definition resolvedSize (type packagingSize : string) : string :=
  match unitFactor type packagingSize with
  | Some _ => packagingSize
  | None => DEFAULT_PACKAGING.size
  end.

(** The size the aggregator asks for. *)
Definition escalatedSize (dishCount : Z) : string :=
  if (dishCount >? 2)%Z then "large" else "medium".

(** [unitFactor * dishCount + fixedAdditionalEmission] *)
Definition packagingFormula (dishCount : Z) (packagingType packagingSize : string)
  : number :=
  let type := resolvedType packagingType in
  add (mul (toNumber (unitFactor type (resolvedSize type packagingSize)))
           (Num (inject_Z dishCount)))
      (Num 0.05).

(** *** Aggregator: the packaging type in effect *)

Definition requestedPackaging (packagingArg : option string) : string :=
  match packagingArg with
  | Some p => p
  | None => "plastic"
  end.

(** *** Recipe resolver: failures of the external lookup *)

Inductive LookupFails (api : Spoonacular.t) (dishName : string) : Prop :=
| SearchErrors :
    Spoonacular.complexSearch api dishName = Thrown ->
    LookupFails api dishName
| NothingFound :
    Spoonacular.complexSearch api dishName = Returned [] ->
    LookupFails api dishName
| WidgetErrors (recipeId : Z) (others : list Z) :
    Spoonacular.complexSearch api dishName = Returned (recipeId :: others) ->
    Spoonacular.ingredientWidget api recipeId = Thrown ->
    LookupFails api dishName
| WidgetMalformed (recipeId : Z) (others : list Z)
    (items : list (option Item.t)) :
    Spoonacular.complexSearch api dishName = Returned (recipeId :: others) ->
    Spoonacular.ingredientWidget api recipeId = Returned items ->
    In None items ->
    LookupFails api dishName.

(** A recipe service that knows a recipe and lists no ingredient for it. *)
Definition noIngredients : Spoonacular.t :=
  {| Spoonacular.complexSearch := fun _ => Returned [716429%Z];
     Spoonacular.ingredientWidget := fun _ => Returned [] |}.

(** *** Aggregator: reading a result back *)

(** The sum of the [percentage] entries of a result. *)
Definition percentageSum (ingredients : Obj Share.t) : number :=
  fold_left
    (fun sum entry =>
       match Share.percentage (snd entry) with
       | Some p => add sum (parseFloat p)
       | None => NaN
       end)
    ingredients (Num 0).

(** [food + packaging + travel], each read back from its two decimals. *)
Definition sumOfParts (result : Result.t) : number :=
  add (add (parseFloat (Result.food result))
           (parseFloat (Result.packaging result)))
      (parseFloat (Result.travel result)).

(** A travel object with a transport type that is not in the travel table
    and no emission factor of its own. *)
Definition byRocket : Travel.t :=
  {| Travel.distance := Some 5;
     Travel.transportType := Some "rocket";
     Travel.emissionFactor := None |}.

(** *** Rounding to [f] decimals, as [toFixed] does it

    [signedRound x f] is the integer nearest to [x * 10^f], away from zero
    on a tie; [roundedTo x f] is the number [toFixed] prints. *)

Definition signedRound (x : Q) (f : nat) : Z :=
  if Qlt_le_dec x 0 then (- scaledRound x f)%Z else scaledRound x f.

Definition roundedTo (x : Q) (f : nat) : Q :=
  let v := inject_Z (scaledRound x f) / inject_Z (pow10 f) in
  if Qlt_le_dec x 0 then - v else v.

(** *** Aggregator: what the loop accumulates *)

(** The sum of the counts of a list of order lines. *)
Definition countOfLines (lines : list (Z * string)) : Z :=
  fold_right (fun line total => (fst line + total)%Z) 0%Z lines.

Definition lineOfDish (dish : Dish.t) : Z * string :=
  (Dish.count dish, Dish.name dish).

(** A map none of whose keys is a member of [Object.prototype]. *)
Definition ownKeys {V : Type} (map : Obj V) : bool :=
  forallb (fun entry => negb (inherited (fst entry))) map.

(** The factor of an ingredient whose name is no member of
    [Object.prototype]: its entry of the table when that is not zero, the
    factor of its category otherwise. *)
Definition factorOf (ingredient : string) : Q :=
  match get FOOD_EMISSIONS_DB ingredient with
  | Some f => if truthyNum (Some f) then f else estimateEmissionCategory ingredient
  | None => estimateEmissionCategory ingredient
  end.

(** [sum(grams / 1000 * factor)] over the entries of such a map. *)
Definition emissionOfMap (ingredients : Obj Q) : Q :=
  fold_right
    (fun entry total => factorOf (fst entry) * (snd entry / 1000.0) + total)
    0 ingredients.

(** The dishes charged the default emission: those without ingredients. *)
Definition defaultedCount (dishes : list Dish.t) : Z :=
  fold_right
    (fun dish total =>
       match Dish.ingredients dish with
       | [] => (Dish.count dish + total)%Z
       | _ => total
       end)
    0%Z dishes.

(** The invariant of the loop: no key of the cumulative ingredients is a
    member of [Object.prototype], and the food total is a number, the
    emission of the cumulative ingredients plus the default 1.5 for each
    dish without any. *)
Definition foodInvariant (st : Loop.t) : Prop :=
  ownKeys (Loop.allIngredients st) = true
  /\ numEq (Loop.totalFoodEmission st)
           (Num (emissionOfMap (Loop.allIngredients st)
                 + 1.5 * inject_Z (defaultedCount (Loop.dishDetails st)))).

(** The per-dish emissions of the reported dishes, times their counts. *)
Definition dishesTotal (dishes : list Dish.t) : number :=
  fold_left
    (fun total dish =>
       add total
           (mul (computeEmissionFromIngredients (Dish.ingredients dish))
                (Num (inject_Z (Dish.count dish)))))
    dishes (Num 0).

(** A dish entry whose two printed emissions are, to the cent, those of its
    ingredients. *)
Definition dishConsistent (dish : Dish.t) : Prop :=
  within 0.01 (parseFloat (Dish.emission dish))
              (computeEmissionFromIngredients (Dish.ingredients dish))
  /\ within 0.01 (parseFloat (Dish.totalEmission dish))
                 (mul (computeEmissionFromIngredients (Dish.ingredients dish))
                      (Num (inject_Z (Dish.count dish)))).

(** Services where the geocoder finds the address and the route is 7.5 km. *)
Definition routeFound : Services.t :=
  {| Services.recipes := offline;
     Services.geocode := fun _ => Returned [(77.0687, 28.6343)];
     Services.directions := fun _ => Returned 7500 |}.

(** *** Recipe lookup: what a well-formed payload yields *)

(** The key under which an item of the payload is stored. *)
Definition ingredientKey (item : Item.t) : string :=
  normalize (toLowerCase (Item.name item)).

(** The amount of the last item stored under [key], [found] if there is
    none. *)
Fixpoint lastAmount (key : string) (items : list Item.t) (found : option Q)
  : option Q :=
  match items with
  | [] => found
  | item :: rest =>
      lastAmount key rest
        (if String.eqb (ingredientKey item) key then Some (Item.value item)
         else found)
  end.

(** A recipe service that finds a recipe with the given items. *)
Definition serving (items : list Item.t) : Spoonacular.t :=
  {| Spoonacular.complexSearch := fun _ => Returned [716429%Z];
     Spoonacular.ingredientWidget := fun _ => Returned (map Some items) |}.


(** ** Order routes (routes/orders.js) *)

Module FoodItem.
Record t : Type := { name : string; quantity : Q }.
End FoodItem.

Module EmissionData.
Record t : Type := {
  transportEmission : number;
  packagingEmission : number;
  foodEmission : number;
  totalEmission : number
}.
End EmissionData.

Module Orders.

(** The emission of one unit of an item, by words in its lower-cased name. *)
Definition emissionPerUnit (itemName : string) : Q :=
  if includes itemName "beef" then 4.0
  else if includes itemName "chicken" then 1.5
  else if includes itemName "paneer" then 1.2
  else if includes itemName "cheese" || includes itemName "cream" then 2.5
  else if includes itemName "veg" || includes itemName "rice"
          || includes itemName "dal" then 0.7
  else 0.5.

Definition calculateLocalFoodEmission (foodItems : list FoodItem.t) : Q :=
  fold_left
    (fun totalEmission item =>
       let itemName := toLowerCase (FoodItem.name item) in
       let emission := emissionPerUnit itemName in
       totalEmission + emission * FoodItem.quantity item)
    foodItems 0.

Definition calculatePackagingEmission (itemCount : Z) : Q :=
  if (itemCount <=? 2)%Z then 0.1
  else if (itemCount <=? 4)%Z then 0.2
  else 0.3.

Definition calculateTransportEmission (distance : Q) : Q :=
  (distance * 105) / 1000.

(** [factors.packagingType] of an imported order. *)
Definition packagingLabel (itemCount : Z) : string :=
  if (itemCount <=? 2)%Z then "small"
  else if (itemCount <=? 4)%Z then "medium"
  else "large".

(** One entry of [factors.foodCategories] of an imported order. *)
Definition foodCategory (itemName : string) : string :=
  let name := toLowerCase itemName in
  if includes name "beef" then "beef"
  else if includes name "chicken" then "chicken"
  else if includes name "paneer" then "paneer"
  else if includes name "cheese" || includes name "cream" then "dairy"
  else if includes name "veg" || includes name "rice" || includes name "dal"
  then "vegetarian"
  else "other".

(** An item of a Swiggy order, with its integer quantity. *)
Module SwiggyItem.
Record t : Type := { name : string; quantity : Z }.
End SwiggyItem.

(** The decimal text of an integer, as a template literal prints it up to
    [MAX_SAFE_INTEGER] (from [1e21] on a number is printed with an
    exponent). *)
Definition integerText (n : Z) : string :=
  if (n <? 0)%Z then "-" ++ digitsOf (- n) else digitsOf n.

(** [items.map(item => `${item.quantity} x ${item.name}`).join(', ')] *)
Definition formatDishString (items : list SwiggyItem.t) : string :=
  String.concat ", "
    (map (fun item =>
            integerText (SwiggyItem.quantity item) ++ " x "
            ++ SwiggyItem.name item)
         items).

(** The emission data of a Swiggy order: [items] and [distanceKm] of the
    extracted order, each possibly missing. *)
Definition swiggyEmissionData (api : Spoonacular.t)
    (items : option (list SwiggyItem.t)) (distanceKm : option Q)
  : Attempt EmissionData.t :=
  let emissionData :=
    {| EmissionData.transportEmission := Num 0;
       EmissionData.packagingEmission := Num 0;
       EmissionData.foodEmission := Num 0;
       EmissionData.totalEmission := Num 0 |} in
  try_catch
    (let travelDistance :=
       match distanceKm with
       | Some d => if truthyNum (Some d) then d else 0
       | None => 0
       end in
     let formattedDishString :=
       match items with
       | Some (item :: rest) => formatDishString (item :: rest)
       | _ => EmptyString
       end in
     if truthyStr (Some formattedDishString) then
       emissions <- calculateFoodEmission api (Some formattedDishString)
                      (Some (TravelNumber travelDistance)) None ;;
       let foodEmission := parseFloat (Result.food emissions) in
       let packagingEmission := parseFloat (Result.packaging emissions) in
       let transportEmission := calculateTransportEmission travelDistance in
       let totalEmission :=
         add (add foodEmission packagingEmission) (Num transportEmission) in
       Returned
         {| EmissionData.transportEmission := Num transportEmission;
            EmissionData.packagingEmission := packagingEmission;
            EmissionData.foodEmission := foodEmission;
            EmissionData.totalEmission := totalEmission |}
     else
       let transportEmission := calculateTransportEmission travelDistance in
       let foodEmission := 0 in
       let packagingEmission :=
         calculatePackagingEmission
           (match items with
            | Some l => if (Z.of_nat (List.length l) =? 0)%Z then 1%Z
                        else Z.of_nat (List.length l)
            | None => 1%Z
            end) in
       let totalEmission := foodEmission + packagingEmission + transportEmission in
       Returned
         {| EmissionData.transportEmission := Num transportEmission;
            EmissionData.packagingEmission := Num packagingEmission;
            EmissionData.foodEmission := Num foodEmission;
            EmissionData.totalEmission := Num totalEmission |})
    (Returned emissionData).

End Orders.

(** *** Order routes: categories and their emissions *)

(** The emission per unit that goes with a food category. *)
Definition categoryEmission (category : string) : Q :=
  if String.eqb category "beef" then 4.0
  else if String.eqb category "chicken" then 1.5
  else if String.eqb category "paneer" then 1.2
  else if String.eqb category "dairy" then 2.5
  else if String.eqb category "vegetarian" then 0.7
  else 0.5.

Definition totalQuantity (foodItems : list FoodItem.t) : Q :=
  fold_right (fun item total => FoodItem.quantity item + total) 0 foodItems.

(** The order line the engine should read back for an item. *)
Definition lineOfItem (item : Orders.SwiggyItem.t) : Z * string :=
  (Orders.SwiggyItem.quantity item,
   trim (toLowerCase (Orders.SwiggyItem.name item))).

(** An item the dish string can carry: a quantity that is not negative and
    not above [MAX_SAFE_INTEGER], and a name on one line, without a comma,
    that is not blank. *)
Definition carried (item : Orders.SwiggyItem.t) : Prop :=
  (0 <= Orders.SwiggyItem.quantity item <= MAX_SAFE_INTEGER)%Z
  /\ commaFree (Orders.SwiggyItem.name item) = true
  /\ oneLine (Orders.SwiggyItem.name item) = true
  /\ trim (Orders.SwiggyItem.name item) <> EmptyString.

(** [orderData.distanceKm || 0] *)
Definition travelled (distanceKm : option Q) : Q :=
  match distanceKm with
  | Some d => if truthyNum (Some d) then d else 0
  | None => 0
  end.

(** ** Statistics routes *)

(** The part of a stored order the statistics read; a number that may be
    missing is an [option]. *)
Module OrderItem.
Record t : Type := { name : option string }.
End OrderItem.

Module StoredEmission.
Record t : Type := {
  totalEmission : option Q;
  transportEmission : option Q;
  packagingEmission : option Q;
  foodEmission : option Q;
  (** [factors?.distance], when it is a number *)
  distance : option Q
}.
End StoredEmission.

Module StoredOrder.
Record t : Type := {
  platform : string;
  emissionData : option StoredEmission.t;
  (** [None] when [items] is missing or not an array; an entry is [None]
      when the item itself is falsy *)
  items : option (list (option OrderItem.t))
}.
End StoredOrder.

Module Summary.
Record t : Type := {
  totalEmission : Q;
  transportEmission : Q;
  packagingEmission : Q;
  foodEmission : Q;
  orderCount : nat;
  averageEmissionPerOrder : Q;
  transportPercentage : Q;
  packagingPercentage : Q;
  foodPercentage : Q
}.
End Summary.

Module PlatformStat.
Record t : Type := {
  totalEmission : Q;
  orderCount : Z;
  averageEmission : Q
}.
End PlatformStat.

Module Suggestion.
Record t : Type := { type : string; message : string; potentialSavings : string }.
End Suggestion.

Module Stats.

(** [value || 0] *)
Definition orZero (value : option Q) : Q :=
  match value with
  | Some q => if truthyNum (Some q) then q else 0
  | None => 0
  end.

(** The handler of [GET /summary], on the orders the query returns. *)
Definition summary (orders : list StoredOrder.t) : Summary.t :=
  let '(total, transport, packaging, food) :=
    fold_left
      (fun sums order =>
         let '(total, transport, packaging, food) := sums in
         match StoredOrder.emissionData order with
         | Some data =>
             (total + orZero (StoredEmission.totalEmission data),
              transport + orZero (StoredEmission.transportEmission data),
              packaging + orZero (StoredEmission.packagingEmission data),
              food + orZero (StoredEmission.foodEmission data))
         | None => sums
         end)
      orders (0, 0, 0, 0) in
  let average :=
    if (0 <? List.length orders)%nat
    then total / inject_Z (Z.of_nat (List.length orders))
    else 0 in
  let positive := negb (Qle_bool total 0) in
  {| Summary.totalEmission := total;
     Summary.transportEmission := transport;
     Summary.packagingEmission := packaging;
     Summary.foodEmission := food;
     Summary.orderCount := List.length orders;
     Summary.averageEmissionPerOrder := average;
     Summary.transportPercentage :=
       if positive then (transport / total) * 100 else 0;
     Summary.packagingPercentage :=
       if positive then (packaging / total) * 100 else 0;
     Summary.foodPercentage :=
       if positive then (food / total) * 100 else 0 |}.

(** One round of the loop of [GET /platform-comparison]; updating the entry
    of a platform that has none would throw. *)
Definition countOrder (platformStats : Obj PlatformStat.t)
    (order : StoredOrder.t) : Attempt (Obj PlatformStat.t) :=
  let platform := StoredOrder.platform order in
  let platformStats :=
    if has platformStats platform then platformStats
    else set platformStats platform
           {| PlatformStat.totalEmission := 0;
              PlatformStat.orderCount := 0;
              PlatformStat.averageEmission := 0 |} in
  platformStats <-
    match StoredOrder.emissionData order with
    | Some data =>
        match get platformStats platform with
        | Some stat =>
            Returned
              (set platformStats platform
                 {| PlatformStat.totalEmission :=
                      PlatformStat.totalEmission stat
                      + orZero (StoredEmission.totalEmission data);
                    PlatformStat.orderCount := PlatformStat.orderCount stat;
                    PlatformStat.averageEmission :=
                      PlatformStat.averageEmission stat |})
        | None => Thrown
        end
    | None => Returned platformStats
    end ;;
  match get platformStats platform with
  | Some stat =>
      Returned
        (set platformStats platform
           {| PlatformStat.totalEmission := PlatformStat.totalEmission stat;
              PlatformStat.orderCount := (PlatformStat.orderCount stat + 1)%Z;
              PlatformStat.averageEmission := PlatformStat.averageEmission stat |})
  | None => Thrown
  end.

Fixpoint countOrders (platformStats : Obj PlatformStat.t)
    (orders : list StoredOrder.t) : Attempt (Obj PlatformStat.t) :=
  match orders with
  | [] => Returned platformStats
  | order :: rest =>
      platformStats <- countOrder platformStats order ;;
      countOrders platformStats rest
  end.

(** The averages, computed for every platform at the end. *)
Definition withAverage (stat : PlatformStat.t) : PlatformStat.t :=
  {| PlatformStat.totalEmission := PlatformStat.totalEmission stat;
     PlatformStat.orderCount := PlatformStat.orderCount stat;
     PlatformStat.averageEmission :=
       PlatformStat.totalEmission stat / inject_Z (PlatformStat.orderCount stat) |}.

Definition platformComparison (orders : list StoredOrder.t)
  : Attempt (Obj PlatformStat.t) :=
  platformStats <- countOrders [] orders ;;
  Returned (map (fun entry => (fst entry, withAverage (snd entry))) platformStats).

End Stats.

(** *** Statistics: what the orders add up to *)

Definition emissionOfOrder (read : StoredEmission.t -> option Q)
    (order : StoredOrder.t) : Q :=
  match StoredOrder.emissionData order with
  | Some data => Stats.orZero (read data)
  | None => 0
  end.

Definition sumOver (read : StoredEmission.t -> option Q)
    (orders : list StoredOrder.t) : Q :=
  fold_right (fun order total => emissionOfOrder read order + total) 0 orders.

Definition ordersOf (platform : string) (orders : list StoredOrder.t)
  : list StoredOrder.t :=
  filter (fun order => String.eqb (StoredOrder.platform order) platform) orders.

(** A stored order whose total is the sum of its three parts. *)
Definition balanced (order : StoredOrder.t) : Prop :=
  emissionOfOrder StoredEmission.totalEmission order
  == emissionOfOrder StoredEmission.transportEmission order
     + emissionOfOrder StoredEmission.packagingEmission order
     + emissionOfOrder StoredEmission.foodEmission order.

(** A stored order with all its emissions. *)
Definition sampleOrder (platform : string) (total transport packaging food : Q)
  : StoredOrder.t :=
  {| StoredOrder.platform := platform;
     StoredOrder.emissionData :=
       Some {| StoredEmission.totalEmission := Some total;
               StoredEmission.transportEmission := Some transport;
               StoredEmission.packagingEmission := Some packaging;
               StoredEmission.foodEmission := Some food;
               StoredEmission.distance := Some 3 |};
     StoredOrder.items := Some [Some {| OrderItem.name := Some "Veg Biryani" |}] |}.

(** What the loop of the platform comparison keeps for every platform, after
    the orders [processed]. *)
Definition platformInvariant (platformStats : Obj PlatformStat.t)
    (processed : list StoredOrder.t) : Prop :=
  NoDup (map fst platformStats)
  /\ forall platform : string,
       match get platformStats platform with
       | None => ordersOf platform processed = []
       | Some stat =>
           ordersOf platform processed <> []
           /\ PlatformStat.orderCount stat
              = Z.of_nat (List.length (ordersOf platform processed))
           /\ PlatformStat.totalEmission stat
              == sumOver StoredEmission.totalEmission (ordersOf platform processed)
       end.

(** *** Statistics: suggestions *)

Module Suggestions.

Definition startTracking : Suggestion.t :=
  {| Suggestion.type := "general";
     Suggestion.message := "Start tracking your food delivery orders to receive personalized suggestions for reducing your carbon footprint.";
     Suggestion.potentialSavings := "Varies based on your ordering habits" |}.

Definition moreVegetarian : Suggestion.t :=
  {| Suggestion.type := "food";
     Suggestion.message := "Consider ordering more vegetarian meals to reduce your carbon footprint";
     Suggestion.potentialSavings := "Up to 2.5 kg CO2 per meal" |}.

Definition closerRestaurants : Suggestion.t :=
  {| Suggestion.type := "distance";
     Suggestion.message := "Try to order from restaurants within 2km to reduce transport emissions";
     Suggestion.potentialSavings := "Up to 0.13 kg CO2 per order" |}.

Definition fewerItems : Suggestion.t :=
  {| Suggestion.type := "packaging";
     Suggestion.message := "Consider ordering fewer items per order to reduce packaging waste";
     Suggestion.potentialSavings := "Up to 0.2 kg CO2 per order" |}.

Definition greatJob : Suggestion.t :=
  {| Suggestion.type := "general";
     Suggestion.message := "Great job! Your ordering habits are already environmentally conscious. Keep up the good work!";
     Suggestion.potentialSavings := "Maintaining current sustainable practices" |}.

(** The filter of the vegetarian orders. *)
Definition isVegetarian (order : StoredOrder.t) : bool :=
  match StoredOrder.items order with
  | None => false
  | Some items =>
      forallb
        (fun item =>
           match item with
           | Some item =>
               match OrderItem.name item with
               | Some name =>
                   truthyStr (Some name)
                   && (includes (toLowerCase name) "veg"
                       || includes (toLowerCase name) "rice"
                       || includes (toLowerCase name) "dal")
               | None => false
               end
           | None => false
           end)
        items
  end.

(** The filter of the long-distance orders. *)
Definition isLongDistance (order : StoredOrder.t) : bool :=
  match StoredOrder.emissionData order with
  | None => false
  | Some data =>
      match StoredEmission.distance data with
      | None => false
      | Some distance => negb (Qle_bool distance 2)
      end
  end.

(** The filter of the large orders. *)
Definition isLarge (order : StoredOrder.t) : bool :=
  match StoredOrder.items order with
  | None => false
  | Some items => (4 <? List.length items)%nat
  end.

Definition size (orders : list StoredOrder.t) : Q :=
  inject_Z (Z.of_nat (List.length orders)).

(** The handler of [GET /suggestions], on the orders the query returns. *)
Definition suggestions (orders : list StoredOrder.t) : list Suggestion.t :=
  match orders with
  | [] => [startTracking]
  | _ =>
      let suggestions := [] in
      let vegOrders := filter isVegetarian orders in
      let vegPercentage := (size vegOrders / size orders) * 100 in
      let suggestions :=
        if negb (Qle_bool 50 vegPercentage)
        then (suggestions ++ [moreVegetarian])%list else suggestions in
      let longDistanceOrders := filter isLongDistance orders in
      let suggestions :=
        if negb (Qle_bool (size longDistanceOrders) (size orders / 2))
        then (suggestions ++ [closerRestaurants])%list else suggestions in
      let largeOrders := filter isLarge orders in
      let suggestions :=
        if negb (Qle_bool (size largeOrders) (size orders / 2))
        then (suggestions ++ [fewerItems])%list else suggestions in
      match suggestions with
      | [] => [greatJob]
      | _ => suggestions
      end
  end.

End Suggestions.

(** The number of orders a filter keeps. *)
Definition howMany (keep : StoredOrder.t -> bool) (orders : list StoredOrder.t)
  : Z :=
  Z.of_nat (List.length (filter keep orders)).

(** *** Recommendation cache *)

(** [Map.prototype.delete] on a map kept as an association list. *)
Fixpoint delete {V : Type} (obj : Obj V) (key : string) : Obj V :=
  match obj with
  | [] => []
  | (k, v) :: rest =>
      if String.eqb k key then rest else (k, v) :: delete rest key
  end.

Module OrderEntry.
Record t (R : Type) : Type := {
  recommendations : R;
  timestamp : Z
}.
Arguments recommendations {R} _.
Arguments timestamp {R} _.
End OrderEntry.

Module OverallEntry.
Record t (R : Type) : Type := {
  recommendations : R;
  timestamp : Z;
  orderCount : Z
}.
Arguments recommendations {R} _.
Arguments timestamp {R} _.
Arguments orderCount {R} _.
End OverallEntry.

(** The [memoryCache] object.  Its methods read the clock; here the value of
    [Date.now()] is the argument [now], in milliseconds, and a method returns
    its result together with the cache it leaves.  [None] is [null]. *)
Module MemoryCache.

Record t (R : Type) : Type := {
  orderRecommendations : Obj (OrderEntry.t R);
  userOverallRecommendations : Obj (OverallEntry.t R)
}.
Arguments orderRecommendations {R} _.
Arguments userOverallRecommendations {R} _.

Definition CACHE_TTL : Z := (15 * 60 * 1000)%Z.

Definition storeOrderRecommendation {R : Type} (this : t R) (now : Z)
    (orderId : string) (recommendations : R) : t R :=
  {| orderRecommendations :=
       set (orderRecommendations this) orderId
         {| OrderEntry.recommendations := recommendations;
            OrderEntry.timestamp := now |};
     userOverallRecommendations := userOverallRecommendations this |}.

Definition getOrderRecommendation {R : Type} (this : t R) (now : Z)
    (orderId : string) : option R * t R :=
  match get (orderRecommendations this) orderId with
  | None => (None, this)
  | Some cached =>
      if (CACHE_TTL <? now - OrderEntry.timestamp cached)%Z then
        (None,
         {| orderRecommendations := delete (orderRecommendations this) orderId;
            userOverallRecommendations := userOverallRecommendations this |})
      else (Some (OrderEntry.recommendations cached), this)
  end.

Definition storeOverallRecommendation {R : Type} (this : t R) (now : Z)
    (userId : string) (recommendations : R) (orderCount : Z) : t R :=
  {| orderRecommendations := orderRecommendations this;
     userOverallRecommendations :=
       set (userOverallRecommendations this) userId
         {| OverallEntry.recommendations := recommendations;
            OverallEntry.timestamp := now;
            OverallEntry.orderCount := orderCount |} |}.

Definition getOverallRecommendation {R : Type} (this : t R) (now : Z)
    (userId : string) (currentOrderCount : Z) : option R * t R :=
  match get (userOverallRecommendations this) userId with
  | None => (None, this)
  | Some cached =>
      if (CACHE_TTL <? now - OverallEntry.timestamp cached)%Z
         || negb (OverallEntry.orderCount cached =? currentOrderCount)%Z
      then
        (None,
         {| orderRecommendations := orderRecommendations this;
            userOverallRecommendations :=
              delete (userOverallRecommendations this) userId |})
      else (Some (OverallEntry.recommendations cached), this)
  end.

Definition cleanExpiredEntries {R : Type} (this : t R) (now : Z) : t R :=
  {| orderRecommendations :=
       filter
         (fun '(orderId, entry) =>
            negb (CACHE_TTL <? now - OrderEntry.timestamp entry)%Z)
         (orderRecommendations this);
     userOverallRecommendations :=
       filter
         (fun '(userId, entry) =>
            negb (CACHE_TTL <? now - OverallEntry.timestamp entry)%Z)
         (userOverallRecommendations this) |}.

(** A fresh cache: two empty maps. *)
Definition empty (R : Type) : t R :=
  {| orderRecommendations := []; userOverallRecommendations := [] |}.

End MemoryCache.

(** A [Map] holds a key once. *)
Definition isMap {V : Type} (obj : Obj V) : Prop := NoDup (map fst obj).

Definition cacheInvariant {R : Type} (cache : MemoryCache.t R) : Prop :=
  isMap (MemoryCache.orderRecommendations cache)
  /\ isMap (MemoryCache.userOverallRecommendations cache).

(** *** Zomato orders: reading the order back *)

(** [s.split(sep)] for a separator that is not empty.  [skip] counts the
    characters of a separator still to pass over, [piece] is the piece read
    so far. *)
Fixpoint splitFrom (sep : string) (skip : nat) (piece s : string)
  : list string :=
  match s with
  | EmptyString => [piece]
  | String c rest =>
      match skip with
      | S k => splitFrom sep k piece rest
      | O =>
          if prefix sep s
          then piece :: splitFrom sep (String.length sep - 1) EmptyString rest
          else splitFrom sep 0 (piece ++ String c EmptyString) rest
      end
  end.

Definition splitOn (sep s : string) : list string :=
  splitFrom sep 0 EmptyString s.

(** The value of [c] as a digit of the given radix. *)
Definition digitIn (radix : Z) (c : ascii) : option Z :=
  let n := Z.of_N (N_of_ascii c) in
  let v :=
    if ((48 <=? n) && (n <=? 57))%Z then (n - 48)%Z
    else if ((97 <=? n) && (n <=? 122))%Z then (n - 87)%Z
    else if ((65 <=? n) && (n <=? 90))%Z then (n - 55)%Z
    else radix in
  if (v <? radix)%Z then Some v else None.

(** The value of the longest run of digits [s] starts with; [acc] is [None]
    until a digit has been read. *)
Fixpoint readDigits (radix : Z) (acc : option Z) (s : string) : option Z :=
  match s with
  | EmptyString => acc
  | String c rest =>
      match digitIn radix c with
      | Some v =>
          readDigits radix
            (Some (radix * match acc with Some a => a | None => 0 end + v)%Z)
            rest
      | None => acc
      end
  end.

(** [parseInt(s)] without a radix, on any string. *)
Definition parseIntText (s : string) : number :=
  let s := trimStart s in
  let '(sign, s) :=
    match s with
    | String "-"%char rest => ((-1)%Z, rest)
    | String "+"%char rest => (1%Z, rest)
    | _ => (1%Z, s)
    end in
  let '(radix, s) :=
    if prefix "0x" s || prefix "0X" s
    then (16%Z, String.substring 2 (String.length s - 2) s)
    else (10%Z, s) in
  match readDigits radix None s with
  | None => NaN
  | Some mathInt => Num (inject_Z (sign * mathInt))
  end.

Module ZomatoItem.
Record t : Type := {
  name : string;
  quantity : number;
  (** [null]: the data has no price per item *)
  price : option Q
}.
End ZomatoItem.

Module Zomato.

(** The items the route reads from [orderData.dishString]. *)
Definition items (dishString : option string) : list ZomatoItem.t :=
  match dishString with
  | Some text =>
      if truthyStr (Some text) then
        map
          (fun item =>
             match splitOn " x " item with
             | quantity :: nameParts =>
                 {| ZomatoItem.name := String.concat " x " nameParts;
                    ZomatoItem.quantity := parseIntText quantity;
                    ZomatoItem.price := None |}
             | [] =>
                 {| ZomatoItem.name := EmptyString;
                    ZomatoItem.quantity := NaN;
                    ZomatoItem.price := None |}
             end)
          (splitOn ", " text)
      else []
  | None => []
  end.

(** The hour the route sets on the order date, from the [hours] and [period]
    of a date such as [January 29, 2025 at 09:09 PM]. *)
Definition hour (hours period : string) : number :=
  match parseIntText hours with
  | NaN => NaN
  | Num hour =>
      let hour :=
        if String.eqb period "PM" && negb (Qeq_bool hour 12)
        then hour + 12 else hour in
      let hour :=
        if String.eqb period "AM" && Qeq_bool hour 12 then 0 else hour in
      Num hour
  end.

End Zomato.

(** The item of a Zomato order that an item of a dish string stands for. *)
Definition zomatoItemOf (item : Orders.SwiggyItem.t) : ZomatoItem.t :=
  {| ZomatoItem.name := Orders.SwiggyItem.name item;
     ZomatoItem.quantity := Num (inject_Z (Orders.SwiggyItem.quantity item));
     ZomatoItem.price := None |}.

(** The hour of the day, from 0 to 23, of an hour on a twelve-hour clock. *)
Definition hourOfDay (hour : Z) (afternoon : bool) : Z :=
  (hour mod 12 + if afternoon then 12 else 0)%Z.

(** ** Properties *)

(** *** Strings *)

Lemma lowerChar_comma (c : ascii) :
  Ascii.eqb (lowerChar c) "," = Ascii.eqb c ",".
Proof.
  destruct c as [[] [] [] [] [] [] [] []]; reflexivity.
Qed.

Lemma toLowerCase_append (s t : string) :
  toLowerCase (s ++ t) = toLowerCase s ++ toLowerCase t.
Proof.
  induction s as [|c s IH]; simpl; [reflexivity | now rewrite IH].
Qed.

Lemma commaFree_toLowerCase (s : string) :
  commaFree (toLowerCase s) = commaFree s.
Proof.
  induction s as [|c s IH]; simpl; [reflexivity|].
  now rewrite lowerChar_comma, IH.
Qed.

Lemma split_clause (s rest : string) :
  commaFree s = true ->
  split "," (s ++ String "," rest) = s :: split "," rest.
Proof.
  induction s as [|c s IH]; simpl; intros H; [reflexivity|].
  apply andb_true_iff in H as [Hc Hs].
  apply negb_true_iff in Hc. rewrite Hc, (IH Hs). reflexivity.
Qed.

Lemma split_last (s : string) :
  commaFree s = true -> split "," s = [s].
Proof.
  induction s as [|c s IH]; simpl; intros H; [reflexivity|].
  apply andb_true_iff in H as [Hc Hs].
  apply negb_true_iff in Hc. rewrite Hc, (IH Hs). reflexivity.
Qed.

Lemma split_joinClauses (clause : string) (clauses : list string) :
  forallb commaFree (clause :: clauses) = true ->
  split "," (toLowerCase (joinClauses (clause :: clauses)))
  = map toLowerCase (clause :: clauses).
Proof.
  revert clause. induction clauses as [|next rest IH]; intros clause H.
  - simpl in *. rewrite andb_true_r in H.
    apply split_last. now rewrite commaFree_toLowerCase.
  - change (joinClauses (clause :: next :: rest))
      with (clause ++ String "," (joinClauses (next :: rest))).
    simpl in H. apply andb_true_iff in H as [Hc Hrest].
    rewrite toLowerCase_append. simpl toLowerCase.
    change (lowerChar ",") with ","%char.
    rewrite split_clause by now rewrite commaFree_toLowerCase.
    rewrite (IH next Hrest). reflexivity.
Qed.

Lemma parseDishes_validLines (clause : string) (clauses : list string) :
  forallb commaFree (clause :: clauses) = true ->
  parseDishes (joinClauses (clause :: clauses)) = validLines (clause :: clauses).
Proof.
  intros H. unfold parseDishes, splitDishes.
  rewrite (split_joinClauses _ _ H).
  generalize (clause :: clauses) as cs. clear.
  induction cs as [|c cs IH]; [reflexivity|].
  simpl. fold (lineOf c). rewrite IH. now destruct (lineOf c).
Qed.


(** *** Dish string parser *)

Lemma spanDigits_run (digits rest : string) :
  allDigits digits = true ->
  match rest with
  | String c _ => isDigit c = false
  | EmptyString => True
  end ->
  spanDigits (digits ++ rest) = (digits, rest).
Proof.
  intros Hd Hr. induction digits as [|c ds IH]; simpl.
  - destruct rest as [|c r]; [reflexivity|]. simpl. now rewrite Hr.
  - simpl in Hd. apply andb_true_iff in Hd as [Hc Hds].
    rewrite Hc, (IH Hds). reflexivity.
Qed.

Lemma takeLine_oneLine (s : string) : oneLine s = true -> takeLine s = s.
Proof.
  induction s as [|c s IH]; simpl; intros H; [reflexivity|].
  apply andb_true_iff in H as [Hc Hs].
  apply negb_true_iff in Hc. now rewrite Hc, (IH Hs).
Qed.

Lemma regexMatch_here (item : string) (groups : string * string) :
  matchHere item = Some groups -> regexMatch item = Some groups.
Proof.
  intros H. destruct item; cbn [regexMatch]; now rewrite H.
Qed.

Lemma parseItem_wellformed (digits name : string) :
  digits <> EmptyString -> allDigits digits = true ->
  name <> EmptyString -> oneLine name = true ->
  parseItem (digits ++ " x " ++ name) = Some (parseInt digits, trim name).
Proof.
  intros Hne Hd Hn Hl. unfold parseItem.
  rewrite (regexMatch_here _ (digits, name)); [reflexivity|].
  unfold matchHere. rewrite spanDigits_run by (trivial; reflexivity).
  destruct digits as [|d ds]; [congruence|].
  simpl. rewrite (takeLine_oneLine _ Hl).
  destruct name; [congruence | reflexivity].
Qed.











(** *** Emission factor resolver *)

Lemma estimateEmissionCategory_rules (ingredient : string) :
  estimateEmissionCategory ingredient = categoryByRules ingredient.
Proof.
  unfold estimateEmissionCategory, categoryByRules.
  set (lower := toLowerCase ingredient).
  cbn [firstMatch categoryRules mentionsAny existsb meatKeywords
       seafoodKeywords dairyKeywords oilKeywords].
  rewrite !orb_false_r, !orb_assoc.
  repeat match goal with
         | |- (if ?b then _ else _) = _ => destruct b; [reflexivity|]
         end.
  reflexivity.
Qed.

Lemma estimateEmissionCategory_positive (ingredient : string) :
  0 < estimateEmissionCategory ingredient.
Proof.
  unfold estimateEmissionCategory.
  repeat match goal with
         | |- 0 < (if ?b then _ else _) => destruct b; [reflexivity|]
         end.
  reflexivity.
Qed.

Lemma inherited_names (key : string) :
  inherited key = true -> In key OBJECT_PROTOTYPE.
Proof.
  unfold inherited. intros H. apply existsb_exists in H as (name & Hin & Heq).
  apply String.eqb_eq in Heq. now subst.
Qed.

(** No key of the static tables is a member of [Object.prototype]. *)
Lemma tables_hold_no_inherited_name (key : string) :
  inherited key = true ->
  get FOOD_EMISSIONS_DB key = None
  /\ get INGREDIENT_NORMALIZATION key = None
  /\ get RECIPE_DB key = None
  /\ get PACKAGING_EMISSIONS key = None
  /\ get TRAVEL_EMISSIONS key = None.
Proof.
  intros H. apply inherited_names in H. cbn [OBJECT_PROTOTYPE In] in H.
  repeat destruct H as [<- | H]; try (repeat split; reflexivity).
  destruct H.
Qed.

Lemma read_own {V : Type} (obj : Obj V) (key : string) :
  inherited key = false ->
  read obj key = match get obj key with
                 | Some v => Own v
                 | None => Undefined
                 end.
Proof. intros H. unfold read. now rewrite H. Qed.

Lemma emissionFactorOf_own (ingredient : string) :
  inherited ingredient = false ->
  emissionFactorOf ingredient = Own (factorOf ingredient).
Proof.
  intros H. unfold emissionFactorOf, factorOf. rewrite (read_own _ _ H).
  destruct (get FOOD_EMISSIONS_DB ingredient) as [f|]; [|reflexivity].
  cbn [truthy truthyNum]. now destruct (negb (Qeq_bool f 0)).
Qed.

Lemma emissionFactorOf_inherited (ingredient : string) :
  inherited ingredient = true -> emissionFactorOf ingredient = Inherited.
Proof.
  intros H. unfold emissionFactorOf, read.
  destruct (tables_hold_no_inherited_name _ H) as (-> & _). now rewrite H.
Qed.

Lemma emissionFactorOf_absent (ingredient : string) :
  get FOOD_EMISSIONS_DB ingredient = None ->
  inherited ingredient = false ->
  emissionFactorOf ingredient = Own (estimateEmissionCategory ingredient).
Proof.
  intros Habsent H. rewrite (emissionFactorOf_own _ H).
  unfold factorOf. now rewrite Habsent.
Qed.

(** C6, as the code has it.  For an ingredient name that is not a key of the
    emission factor table and not a member of [Object.prototype], the
    resolver goes to the category classifier, which returns the factor of the
    first rule, in the fixed order meat, seafood, dairy, grains, pulses, oil,
    spices, nuts, beverages, processed, one of whose keywords occurs in the
    lower-cased name; a name with "ghee" and no meat or seafood keyword
    matches the dairy and the oil keywords and gets the dairy factor (dairy is
    checked before oil); a name no rule matches gets the vegetables factor;
    and the result is a number greater than zero. *)
Theorem category_fallback_first_match (ingredient : string) :
  get FOOD_EMISSIONS_DB ingredient = None ->
  inherited ingredient = false ->
  let lower := toLowerCase ingredient in
  emissionFactorOf ingredient = Own (estimateEmissionCategory ingredient)
  /\ estimateEmissionCategory ingredient = categoryByRules ingredient
  /\ (includes lower "ghee" = true ->
      mentionsAny lower meatKeywords = false ->
      mentionsAny lower seafoodKeywords = false ->
      mentionsAny lower dairyKeywords = true
      /\ mentionsAny lower oilKeywords = true
      /\ estimateEmissionCategory ingredient
         = Category.dairy INGREDIENT_CATEGORY_FALLBACK)
  /\ (firstMatch categoryRules lower = None ->
      estimateEmissionCategory ingredient
      = Category.vegetables INGREDIENT_CATEGORY_FALLBACK)
  /\ 0 < estimateEmissionCategory ingredient.
Proof.
  intros Habsent Hown lower.
  split; [exact (emissionFactorOf_absent _ Habsent Hown)|].
  split; [apply estimateEmissionCategory_rules|].
  split; [|split].
  - intros Hghee Hmeat Hsea.
    assert (Hdairy : mentionsAny lower dairyKeywords = true).
    { unfold mentionsAny, dairyKeywords. simpl. rewrite Hghee.
      now rewrite !orb_true_r. }
    split; [exact Hdairy|]. split.
    + unfold mentionsAny, oilKeywords. simpl. rewrite Hghee.
      now rewrite !orb_true_r.
    + rewrite estimateEmissionCategory_rules. unfold categoryByRules.
      fold lower. cbn [firstMatch categoryRules].
      now rewrite Hmeat, Hsea, Hdairy.
  - intros Hnone. rewrite estimateEmissionCategory_rules.
    unfold categoryByRules. fold lower. now rewrite Hnone.
  - apply estimateEmissionCategory_positive.
Qed.

Lemma category_fallback_first_match_witness :
  emissionFactorOf "Desi Ghee" = Own (estimateEmissionCategory "Desi Ghee")
  /\ estimateEmissionCategory "Desi Ghee" = 10.0
  /\ estimateEmissionCategory "okra" = 1.0
  /\ 0 < estimateEmissionCategory "Desi Ghee".
Proof.
  pose proof (category_fallback_first_match "Desi Ghee" eq_refl eq_refl)
    as (H1 & _ & H2 & _ & H4).
  pose proof (category_fallback_first_match "okra" eq_refl eq_refl)
    as (_ & _ & _ & H3 & _).
  split; [exact H1|]. split; [|split; [|exact H4]].
  - destruct H2 as (_ & _ & H2); [reflexivity | reflexivity | reflexivity |].
    exact H2.
  - apply H3. reflexivity.
Defined.

(** C6 as stated fails for an ingredient name that is a member of
    [Object.prototype]: "constructor" is not a key of the emission factor
    table, yet [FOOD_EMISSIONS_DB["constructor"]] is the inherited function,
    which is truthy, so the classifier is not asked; the factor is not a
    number and the emission of a map with this ingredient is [NaN]. *)
Lemma inherited_name_gets_no_fallback_factor :
  get FOOD_EMISSIONS_DB "constructor" = None
  /\ emissionFactorOf "constructor" = Inherited
  /\ emissionFactorOf "constructor"
     <> Own (estimateEmissionCategory "constructor")
  /\ numberOf (emissionFactorOf "constructor") = NaN
  /\ computeEmissionFromIngredients [("constructor", 100)] = NaN.
Proof.
  split; [reflexivity|]. split; [reflexivity|].
  split; [discriminate|]. split; reflexivity.
Qed.

(** *** Travel distance resolver *)

Lemma getTravelDistanceKm_shape (services : Services.t)
    (originAddress : option string) (destCoords : option Coords.t)
    (transportArg : option string) :
  exists km : Q,
    getTravelDistanceKm services originAddress destCoords transportArg
    = Returned
        {| Travel.distance := Some km;
           Travel.transportType := Some (requestedTransport transportArg);
           Travel.emissionFactor :=
             travelFactor (requestedTransport transportArg) |}.
Proof.
  unfold getTravelDistanceKm. fold (requestedTransport transportArg).
  set (t := requestedTransport transportArg).
  destruct (negb (truthyStr originAddress)
            || match destCoords with Some _ => false | None => true end).
  { exists 5. reflexivity. }
  unfold getCoordinatesFromAddress.
  destruct originAddress as [a|]; [|exists 5; reflexivity].
  destruct (negb (truthyStr (Some a)) || negb (truthyStr (Some (trim a))));
    [exists 5; reflexivity|].
  destruct (Services.geocode services a) as [[|found others]|];
    try (exists 5; reflexivity).
  cbn [bind try_catch].
  destruct destCoords as [dest|]; [|exists 5; reflexivity].
  destruct (Services.directions services _) as [meters|];
    [exists (meters / 1000.0) | exists 5]; reflexivity.
Qed.

Lemma getTravelDistanceKm_degraded (services : Services.t)
    (originAddress : option string) (destCoords : option Coords.t)
    (transportArg : option string) :
  Degraded services originAddress destCoords (requestedTransport transportArg) ->
  getTravelDistanceKm services originAddress destCoords transportArg
  = Returned (fallbackTravel (requestedTransport transportArg)).
Proof.
  intros H. unfold getTravelDistanceKm. fold (requestedTransport transportArg).
  set (t := requestedTransport transportArg) in *.
  destruct H as [H | H | a Ha Hblank | a Ha Hgeo | a Ha Hgeo
                | a found others dest Ha Hd Hgeo Hroute].
  - now rewrite H.
  - rewrite H. now rewrite orb_true_r.
  - subst originAddress.
    destruct (negb (truthyStr (Some a))
              || match destCoords with Some _ => false | None => true end);
      [reflexivity|].
    unfold getCoordinatesFromAddress. rewrite Hblank. simpl.
    now rewrite orb_true_r.
  - subst originAddress.
    destruct (negb (truthyStr (Some a))
              || match destCoords with Some _ => false | None => true end);
      [reflexivity|].
    unfold getCoordinatesFromAddress. rewrite Hgeo.
    now destruct (negb (truthyStr (Some a)) || negb (truthyStr (Some (trim a)))).
  - subst originAddress.
    destruct (negb (truthyStr (Some a))
              || match destCoords with Some _ => false | None => true end);
      [reflexivity|].
    unfold getCoordinatesFromAddress. rewrite Hgeo.
    now destruct (negb (truthyStr (Some a)) || negb (truthyStr (Some (trim a)))).
  - subst originAddress destCoords.
    destruct (negb (truthyStr (Some a)) || false); [reflexivity|].
    unfold getCoordinatesFromAddress. rewrite Hgeo.
    destruct (negb (truthyStr (Some a)) || negb (truthyStr (Some (trim a))));
      [reflexivity|].
    cbn [bind try_catch]. now rewrite Hroute.
Qed.

(** C4.  In every degraded case (origin address missing or empty,
    destination coordinates missing, a blank address, the geocoder raising or
    finding nothing, or the geocoder succeeding and the routing request
    failing) [getTravelDistanceKm] returns, without raising, the same
    fallback: a distance of 5 km with the requested transport type. *)
Theorem travel_fallback_is_5_km (services : Services.t)
    (originAddress : option string) (destCoords : option Coords.t)
    (transportArg : option string) :
  Degraded services originAddress destCoords (requestedTransport transportArg) ->
  exists info : Travel.t,
    getTravelDistanceKm services originAddress destCoords transportArg
    = Returned info
    /\ Travel.distance info = Some 5
    /\ Travel.transportType info = Some (requestedTransport transportArg).
Proof.
  intros H. exists (fallbackTravel (requestedTransport transportArg)).
  split; [now apply getTravelDistanceKm_degraded|]. split; reflexivity.
Qed.

Lemma travel_fallback_is_5_km_witness :
  exists info : Travel.t,
    getTravelDistanceKm noRoute (Some "12 MG Road, Delhi")
      (Some {| Coords.lat := 28.7; Coords.lng := 77.1 |}) None
    = Returned info
    /\ Travel.distance info = Some 5
    /\ Travel.transportType info = Some (requestedTransport None).
Proof.
  apply (travel_fallback_is_5_km noRoute (Some "12 MG Road, Delhi")
           (Some {| Coords.lat := 28.7; Coords.lng := 77.1 |}) None).
  apply (RoutingFails noRoute _ _ _ "12 MG Road, Delhi" (77.0687, 28.6343) []
           {| Coords.lat := 28.7; Coords.lng := 77.1 |}); reflexivity.
Defined.

Lemma travelFactor_own (transportType : string) (factor : Q) :
  get TRAVEL_EMISSIONS transportType = Some factor ->
  transportType <> "walking" ->
  travelFactor transportType = Some factor.
Proof.
  unfold travelFactor, orElse, TRAVEL_EMISSIONS. cbn [get].
  repeat match goal with
         | |- context [String.eqb ?k transportType] =>
             destruct (String.eqb_spec k transportType) as [<-|_]
         end; intros H Hw; try discriminate H; try congruence;
    injection H as <-; reflexivity.
Qed.

Lemma travelFactor_unknown (transportType : string) :
  get TRAVEL_EMISSIONS transportType = None ->
  travelFactor transportType = get TRAVEL_EMISSIONS DEFAULT_TRANSPORT.
Proof.
  intros H. unfold travelFactor, orElse. now rewrite H.
Qed.

(** C5, at the transport type "walking".  "walking" is a key of the travel
    table with factor 0.0, and on every path (full resolution or fallback,
    whatever the services answer) the result of [getTravelDistanceKm] for
    "walking" carries the factor of the default type "motorcycle", 0.115:
    the table entry 0.0 is falsy for [||]. *)
Theorem walking_gets_motorcycle_factor (services : Services.t)
    (originAddress : option string) (destCoords : option Coords.t) :
  get TRAVEL_EMISSIONS "walking" = Some 0.0
  /\ exists (info : Travel.t) (factor : Q),
       getTravelDistanceKm services originAddress destCoords (Some "walking")
       = Returned info
       /\ Travel.emissionFactor info = Some factor
       /\ Some factor = get TRAVEL_EMISSIONS DEFAULT_TRANSPORT
       /\ factor == 0.115
       /\ ~ factor == 0.0.
Proof.
  split; [reflexivity|].
  destruct (getTravelDistanceKm_shape services originAddress destCoords
              (Some "walking")) as [km Hkm].
  eexists. exists 0.115. split; [exact Hkm|]. cbn.
  split; [reflexivity|]. split; [reflexivity|]. split; [reflexivity|].
  discriminate.
Qed.

(** *** Packaging *)

(** Decide the comparisons of two string literals, leaving the others. *)
Ltac decide_eqb :=
  repeat match goal with
         | |- context [String.eqb ?a ?b] =>
             let v := eval vm_compute in (String.eqb a b) in
             match v with
             | true => change (String.eqb a b) with true
             | false => change (String.eqb a b) with false
             end
         end.

(** Case analysis on the position of [key] in the tables it is looked up in. *)
Ltac table_cases key :=
  repeat (unfold has; cbn [get];
          first [ progress decide_eqb
                | match goal with
                  | |- context [String.eqb ?k key] =>
                      destruct (String.eqb_spec k key) as [<-|?]
                  end ]).

Lemma calculatePackagingEmissions_formula (n : Z) (packagingType size : string) :
  inherited packagingType = false ->
  inherited size = false ->
  calculatePackagingEmissions n (Some packagingType) (Some size)
  = Returned (packagingFormula n packagingType size).
Proof.
  intros Htype Hsize.
  unfold calculatePackagingEmissions, packagingFormula, resolvedType,
    resolvedSize, unitFactor, read, PACKAGING_EMISSIONS,
    DEFAULT_PACKAGING.type, DEFAULT_PACKAGING.size.
  table_cases packagingType; rewrite ?Htype; cbn [present];
    table_cases size; rewrite ?Hsize; reflexivity.
Qed.

Lemma packagingFormula_defined (n : Z) (packagingType size : string) :
  exists factor : Q,
    unitFactor (resolvedType packagingType)
               (resolvedSize (resolvedType packagingType) size)
    = Some factor
    /\ 0 < factor
    /\ packagingFormula n packagingType size
       = Num (factor * inject_Z n + 0.05).
Proof.
  unfold packagingFormula, resolvedType, resolvedSize, unitFactor,
    PACKAGING_EMISSIONS, DEFAULT_PACKAGING.type, DEFAULT_PACKAGING.size.
  table_cases packagingType; table_cases size;
    eexists; (split; [reflexivity | split; reflexivity]).
Qed.

Lemma has_own {V : Type} (obj : Obj V) (key : string) :
  has obj key = true -> present (read obj key) = true.
Proof.
  unfold has, read. now destruct (get obj key).
Qed.

Lemma packaging_keys_are_own (packagingType : string) :
  has PACKAGING_EMISSIONS packagingType = true ->
  inherited packagingType = false.
Proof.
  intros Hhas. destruct (inherited packagingType) eqn:H; [|reflexivity].
  destruct (tables_hold_no_inherited_name _ H) as (_ & _ & _ & Hget & _).
  unfold has in Hhas. now rewrite Hget in Hhas.
Qed.

Lemma escalatedSize_own (n : Z) : inherited (escalatedSize n) = false.
Proof. unfold escalatedSize. now destruct (n >? 2)%Z. Qed.

Lemma packagingOfOrder_known (n : Z) (packagingType : string) :
  has PACKAGING_EMISSIONS packagingType = true ->
  packagingOfOrder n packagingType
  = Returned (packagingFormula n packagingType (escalatedSize n))
  /\ resolvedType packagingType = packagingType.
Proof.
  intros Hhas. unfold packagingOfOrder, resolvedType.
  rewrite (has_own _ _ Hhas), Hhas.
  fold (escalatedSize n).
  rewrite (calculatePackagingEmissions_formula n packagingType _
             (packaging_keys_are_own _ Hhas) (escalatedSize_own n)).
  destruct packagingType; [discriminate Hhas|]. split; reflexivity.
Qed.

Lemma packagingOfOrder_unknown (n : Z) (packagingType : string) :
  has PACKAGING_EMISSIONS packagingType = false ->
  inherited packagingType = false ->
  packagingOfOrder n packagingType
  = Returned (Num (PACKAGING_EMISSION_PER_DISH * inject_Z n)).
Proof.
  intros Hhas Hown. unfold packagingOfOrder, read, has in *. rewrite Hown.
  destruct (get PACKAGING_EMISSIONS packagingType); [discriminate Hhas|].
  cbn [present]. now rewrite andb_false_r.
Qed.

(** A packaging type that names a member of [Object.prototype] passes the
    aggregator's guard, and the calculation multiplies a value that is not a
    number. *)
Lemma packagingOfOrder_inherited (n : Z) (packagingType : string) :
  inherited packagingType = true ->
  packagingOfOrder n packagingType = Returned NaN.
Proof.
  intros H.
  assert (Hread : read PACKAGING_EMISSIONS packagingType = Inherited).
  { unfold read. destruct (tables_hold_no_inherited_name _ H)
      as (_ & _ & _ & -> & _). now rewrite H. }
  assert (Hfull : truthyStr (Some packagingType) = true).
  { destruct packagingType; [discriminate H | reflexivity]. }
  unfold packagingOfOrder, calculatePackagingEmissions.
  rewrite Hread, Hfull. cbn [present andb]. rewrite Hread.
  destruct (n >? 2)%Z; cbn [String.eqb Ascii.eqb Bool.eqb andb orb];
    rewrite ?andb_false_r; reflexivity.
Qed.

Lemma escalatedSize_kept (n : Z) (packagingType : string) :
  resolvedSize (resolvedType packagingType) (escalatedSize n) = escalatedSize n.
Proof.
  unfold resolvedSize, resolvedType, unitFactor, escalatedSize,
    PACKAGING_EMISSIONS, DEFAULT_PACKAGING.type, DEFAULT_PACKAGING.size.
  destruct (n >? 2)%Z; table_cases packagingType; reflexivity.
Qed.

(** C8, as the code has it, for a packaging type that does not name a
    member of [Object.prototype].  [calculatePackagingEmissions] returns
    unitFactor(resolvedType, resolvedSize) * n + 0.05 for every dish count,
    such a type and such a size, the type and the size replaced by the
    defaults when they are not in the table.  The aggregator asks for the
    size "large" exactly when n > 2 and "medium" otherwise, and uses that
    calculation for a packaging type of the table; for any other such type
    string it charges the old constant 0.2 per dish, with no overhead and no
    size. *)
Theorem packaging_emission_by_type (n : Z) (packagingType : string) :
  inherited packagingType = false ->
  (forall size : string,
      inherited size = false ->
      calculatePackagingEmissions n (Some packagingType) (Some size)
      = Returned (packagingFormula n packagingType size)
      /\ exists factor : Q,
           unitFactor (resolvedType packagingType)
                      (resolvedSize (resolvedType packagingType) size)
           = Some factor
           /\ packagingFormula n packagingType size
              = Num (factor * inject_Z n + 0.05))
  /\ (has PACKAGING_EMISSIONS packagingType = true ->
      packagingOfOrder n packagingType
      = Returned (packagingFormula n packagingType (escalatedSize n))
      /\ resolvedType packagingType = packagingType)
  /\ (has PACKAGING_EMISSIONS packagingType = false ->
      packagingOfOrder n packagingType = Returned (Num (0.2 * inject_Z n)))
  /\ resolvedSize (resolvedType packagingType) (escalatedSize n)
     = escalatedSize n
  /\ (escalatedSize n = "large" <-> (n > 2)%Z)
  /\ (escalatedSize n = "medium" <-> (n <= 2)%Z).
Proof.
  intros Hown. split.
  { intros size Hsize.
    split; [now apply calculatePackagingEmissions_formula|].
    destruct (packagingFormula_defined n packagingType size)
      as (factor & Hf & _ & Heq).
    now exists factor. }
  split; [apply packagingOfOrder_known|].
  split; [intros Hhas; now apply packagingOfOrder_unknown|].
  split; [apply escalatedSize_kept|].
  unfold escalatedSize. destruct (Z.gtb_spec n 2); split; split;
    intros; (lia || discriminate || reflexivity).
Qed.

Lemma packaging_emission_by_type_witness :
  (packagingOfOrder 3 "plastic"
   = Returned (packagingFormula 3 "plastic" (escalatedSize 3))
   /\ escalatedSize 3 = "large"
   /\ numEq (packagingFormula 3 "plastic" "large") (Num (0.4 * 3 + 0.05)))
  /\ packagingOfOrder 3 "cardboard" = Returned (Num (0.2 * inject_Z 3)).
Proof.
  split.
  - destruct (packaging_emission_by_type 3 "plastic" eq_refl)
      as (_ & H & _ & _ & Hl & _).
    split; [apply H; reflexivity|]. split; [apply Hl; reflexivity|].
    reflexivity.
  - destruct (packaging_emission_by_type 3 "cardboard" eq_refl)
      as (_ & _ & H & _).
    apply H. reflexivity.
Defined.

(** C8 as stated fails for a packaging type outside the table: for one dish
    in "cardboard" the aggregator charges 0.2, the result shows "0.20", and
    the formula with the default type gives 0.25. *)
Lemma unknown_packaging_type_has_no_overhead :
  has PACKAGING_EMISSIONS "cardboard" = false
  /\ exists charged : number,
       packagingOfOrder 1 "cardboard" = Returned charged
       /\ numEq charged (Num 0.2)
       /\ numEq (packagingFormula 1 "cardboard" (escalatedSize 1)) (Num 0.25)
       /\ ~ numEq charged (packagingFormula 1 "cardboard" (escalatedSize 1))
       /\ exists result : Result.t,
            calculateFoodEmission offline (Some "1 x naan") None
              (Some "cardboard")
            = Returned result
            /\ Result.packaging result = "0.20"
            /\ toFixed (packagingFormula 1 "cardboard" (escalatedSize 1)) 2
               = "0.25".
Proof.
  split; [reflexivity|].
  eexists. split; [reflexivity|].
  split; [reflexivity|]. split; [reflexivity|].
  split; [intros H; vm_compute in H; discriminate H|].
  eexists. split; [vm_compute; reflexivity|]. split; reflexivity.
Qed.

(** *** Aggregator: orders without a valid clause *)

Lemma processDishes_no_line (api : Spoonacular.t) (st : Loop.t)
    (items : list string) :
  Forall (fun item => parseItem item = None) items ->
  processDishes api st items = Returned st.
Proof.
  induction 1 as [|item rest Hitem _ IH]; [reflexivity|].
  cbn [processDishes]. unfold processDish. rewrite Hitem. exact IH.
Qed.

Lemma parseDishes_nil (dishString : string) :
  parseDishes dishString = [] ->
  Forall (fun item => parseItem item = None) (splitDishes dishString).
Proof.
  unfold parseDishes. induction (splitDishes dishString) as [|item rest IH];
    intros H; constructor.
  - simpl in H. now destruct (parseItem item).
  - apply IH. simpl in H. now destruct (parseItem item).
Qed.

Lemma packagingOfOrder_zero (packagingType : string) :
  has PACKAGING_EMISSIONS packagingType = true ->
  exists charged : number,
    packagingOfOrder 0 packagingType = Returned charged
    /\ toFixed charged 2 = "0.05".
Proof.
  intros Hhas. destruct (packagingOfOrder_known 0 _ Hhas) as [Hcharged _].
  eexists. split; [exact Hcharged|]. clear Hcharged. revert Hhas.
  unfold packagingFormula, resolvedType, resolvedSize, unitFactor,
    escalatedSize, PACKAGING_EMISSIONS, DEFAULT_PACKAGING.type,
    DEFAULT_PACKAGING.size.
  table_cases packagingType; intros Hhas;
    (discriminate Hhas || (vm_compute; reflexivity)).
Qed.

(** C10.  A non-empty dish string without any valid clause, with a packaging
    type of the table (given, or "plastic" by default), yields a result whose
    [packaging] is "0.05"; a missing or empty dish string yields the early
    result, whose [packaging] is "0.00".  Both hold for every travel input
    and every answer of the recipe service. *)
Theorem zero_dish_orders_differ_in_packaging (api : Spoonacular.t)
    (travelArg : option TravelInput) (packagingArg : option string) :
  (forall dishString : string,
      dishString <> EmptyString ->
      parseDishes dishString = [] ->
      has PACKAGING_EMISSIONS (requestedPackaging packagingArg) = true ->
      exists result : Result.t,
        calculateFoodEmission api (Some dishString) travelArg packagingArg
        = Returned result
        /\ Result.packaging result = "0.05"
        /\ Result.food result = "0.00")
  /\ (forall dishString : option string,
        dishString = None \/ dishString = Some EmptyString ->
        exists result : Result.t,
          calculateFoodEmission api dishString travelArg packagingArg
          = Returned result
          /\ Result.packaging result = "0.00"
          /\ Result.food result = "0.00").
Proof.
  split.
  - intros dishString Hne Hnil Hhas. unfold calculateFoodEmission.
    fold (requestedPackaging packagingArg).
    destruct dishString as [|c s]; [congruence|].
    cbn [truthyStr].
    rewrite (processDishes_no_line _ _ _ (parseDishes_nil _ Hnil)).
    cbn [bind Loop.totalDishCount Loop.totalFoodEmission Loop.allIngredients
         Loop.dishDetails].
    destruct (packagingOfOrder_zero _ Hhas) as (charged & -> & Hfixed).
    cbn [bind].
    destruct (travelOfOrder _) as [[d t] e].
    eexists. split; [reflexivity|]. split; [exact Hfixed | reflexivity].
  - intros dishString [-> | ->]; unfold calculateFoodEmission;
      cbn [truthyStr];
      destruct (travelOfEmptyOrder _) as [[d t] e];
      eexists; (split; [reflexivity|]); split; reflexivity.
Qed.

Lemma zero_dish_orders_differ_in_packaging_witness :
  (exists result : Result.t,
      calculateFoodEmission offline (Some "abc") None (Some "paper")
      = Returned result
      /\ Result.packaging result = "0.05"
      /\ Result.food result = "0.00")
  /\ (exists result : Result.t,
        calculateFoodEmission offline (Some EmptyString) None (Some "paper")
        = Returned result
        /\ Result.packaging result = "0.00"
        /\ Result.food result = "0.00").
Proof.
  destruct (zero_dish_orders_differ_in_packaging offline None (Some "paper"))
    as [Hbad Hempty].
  split.
  - apply (Hbad "abc"); [discriminate | reflexivity | reflexivity].
  - apply (Hempty (Some EmptyString)). right. reflexivity.
Defined.

(** *** Recipe resolution *)

Lemma get_In {V : Type} (obj : Obj V) (key : string) (v : V) :
  get obj key = Some v -> In (key, v) obj.
Proof.
  induction obj as [|[k w] rest IH]; simpl; [discriminate|].
  destruct (String.eqb_spec k key) as [->|_].
  - intros [= ->]. now left.
  - intros H. right. now apply IH.
Qed.

Lemma set_nonempty {V : Type} (obj : Obj V) (key : string) (v : V) :
  set obj key v <> [].
Proof.
  destruct obj as [|[k w] rest]; simpl; [discriminate|].
  destruct (String.eqb k key); discriminate.
Qed.

Lemma collectIngredients_nonempty (items : list (option Item.t))
    (result collected : Obj Q) :
  result <> [] ->
  collectIngredients items result = Returned collected ->
  collected <> [].
Proof.
  revert result. induction items as [|[item|] rest IH]; intros result Hne.
  - now intros [= <-].
  - cbn [collectIngredients]. apply IH, set_nonempty.
  - discriminate.
Qed.

Lemma collectIngredients_malformed (items : list (option Item.t))
    (result : Obj Q) :
  In None items -> collectIngredients items result = Thrown.
Proof.
  revert result. induction items as [|[item|] rest IH]; intros result Hin.
  - destruct Hin.
  - cbn [collectIngredients]. apply IH. destruct Hin; [discriminate | easy].
  - reflexivity.
Qed.

Lemma estimateDishIngredients_nonempty (dishName : string) :
  estimateDishIngredients dishName <> [].
Proof.
  unfold estimateDishIngredients.
  repeat match goal with
         | |- (if ?b then _ else _) <> _ => destruct b
         end; discriminate.
Qed.

Lemma fetchIngredientsFromAPI_returns (api : Spoonacular.t) (dishName : string) :
  exists ingredients : Obj Q,
    fetchIngredientsFromAPI api dishName = Returned ingredients
    /\ (ingredients = [] ->
        exists (recipeId : Z) (others : list Z),
          Spoonacular.complexSearch api dishName = Returned (recipeId :: others)
          /\ Spoonacular.ingredientWidget api recipeId = Returned [])
    /\ (LookupFails api dishName ->
        ingredients = estimateDishIngredients dishName).
Proof.
  unfold fetchIngredientsFromAPI.
  pose proof (estimateDishIngredients_nonempty dishName) as Hest.
  destruct (Spoonacular.complexSearch api dishName)
    as [[|recipeId others]|] eqn:Hsearch; cbn [bind try_catch].
  - eexists. split; [reflexivity|]. split; [intros H; now destruct Hest|].
    reflexivity.
  - destruct (Spoonacular.ingredientWidget api recipeId) as [items|] eqn:Hw;
      cbn [bind try_catch].
    + destruct (collectIngredients items []) as [collected|] eqn:Hc;
        cbn [try_catch].
      * exists collected. split; [reflexivity|]. split.
        -- intros ->. exists recipeId, others. split; [reflexivity|].
           destruct items as [|[item|] rest]; [exact Hw | | discriminate Hc].
           cbn [collectIngredients] in Hc.
           now apply collectIngredients_nonempty in Hc;
             [|apply set_nonempty].
        -- intros [H | H | id' others' H Hw' | id' others' items' H Hw' Hin];
             rewrite Hsearch in H; try discriminate H.
           ++ injection H as <- <-. rewrite Hw in Hw'. discriminate Hw'.
           ++ injection H as <- <-. rewrite Hw in Hw'. injection Hw' as <-.
              rewrite (collectIngredients_malformed _ _ Hin) in Hc.
              discriminate Hc.
      * eexists. split; [reflexivity|].
        split; [intros H; now destruct Hest | reflexivity].
    + eexists. split; [reflexivity|].
      split; [intros H; now destruct Hest | reflexivity].
  - eexists. split; [reflexivity|].
    split; [intros H; now destruct Hest | reflexivity].
Qed.

Lemma RECIPE_DB_nonempty (dishName : string) (recipe : Obj Q) :
  get RECIPE_DB dishName = Some recipe -> recipe <> [].
Proof.
  intros H. apply get_In in H.
  assert (Hall : forallb (fun entry : string * Obj Q =>
                            match snd entry with [] => false | _ => true end)
                         RECIPE_DB = true) by reflexivity.
  rewrite forallb_forall in Hall. specialize (Hall _ H).
  destruct recipe; [discriminate Hall | discriminate].
Qed.

Lemma recipe_keys_are_own (dishName : string) :
  inherited dishName = true -> get RECIPE_DB dishName = None.
Proof.
  intros H. now destruct (tables_hold_no_inherited_name _ H) as (_ & _ & -> & _).
Qed.

Lemma processDish_empty (api : Spoonacular.t) (st : Loop.t) (item : string)
    (count : Z) (dishName : string) :
  parseItem item = Some (count, dishName) ->
  resolveIngredients api dishName = Returned [] ->
  exists st' : Loop.t,
    processDish api st item = Returned st'
    /\ Loop.totalFoodEmission st'
       = add (Loop.totalFoodEmission st) (mul (Num 1.5) (Num (inject_Z count))).
Proof.
  intros Hitem Hres. unfold processDish. rewrite Hitem, Hres. cbn [bind].
  eexists. split; reflexivity.
Qed.

(** C3, as the code has it.  For every dish name, recipe resolution returns
    a map and never raises.  For a dish name that does not name a member of
    [Object.prototype]: the map is the recipe of the static table when the
    dish is there, and then not empty; otherwise, whenever the external
    lookup fails (the search raises or finds nothing, the ingredient request
    raises, or an item is malformed), it is the estimate, which is never
    empty; and the map is empty exactly when the dish is not in the static
    table and the external lookup succeeds with an empty list of
    ingredients.  Whenever the map is empty, its emission is the default 1.5
    and the aggregator adds 1.5 times the count of the clause for the dish
    (for a count up to [MAX_SAFE_INTEGER]). *)
Theorem recipe_resolution_never_raises (api : Spoonacular.t) (dishName : string) :
  exists ingredients : Obj Q,
    resolveIngredients api dishName = Returned ingredients
    /\ (inherited dishName = false ->
        (forall recipe : Obj Q,
            get RECIPE_DB dishName = Some recipe ->
            ingredients = recipe /\ recipe <> [])
        /\ (get RECIPE_DB dishName = None ->
            LookupFails api dishName ->
            ingredients = estimateDishIngredients dishName
            /\ ingredients <> [])
        /\ (ingredients = [] <->
            get RECIPE_DB dishName = None
            /\ exists (recipeId : Z) (others : list Z),
                 Spoonacular.complexSearch api dishName
                 = Returned (recipeId :: others)
                 /\ Spoonacular.ingredientWidget api recipeId = Returned []))
    /\ (ingredients = [] ->
        computeEmissionFromIngredients ingredients = Num 1.5
        /\ forall (st : Loop.t) (item : string) (count : Z),
             parseItem item = Some (count, dishName) ->
             (count <= MAX_SAFE_INTEGER)%Z ->
             exists st' : Loop.t,
               processDish api st item = Returned st'
               /\ Loop.totalFoodEmission st'
                  = add (Loop.totalFoodEmission st)
                        (mul (Num 1.5) (Num (inject_Z count)))).
Proof.
  assert (Hreturns : exists ingredients : Obj Q,
             resolveIngredients api dishName = Returned ingredients).
  { unfold resolveIngredients.
    destruct (read RECIPE_DB dishName); [eexists; reflexivity ..|].
    destruct (fetchIngredientsFromAPI_returns api dishName)
      as (ingredients & Hfetch & _). now exists ingredients. }
  destruct Hreturns as (ingredients & Hres). exists ingredients.
  split; [exact Hres|]. split.
  - intros Hown. unfold resolveIngredients in Hres.
    rewrite (read_own _ _ Hown) in Hres.
    destruct (get RECIPE_DB dishName) as [recipe|] eqn:Hdb.
    + injection Hres as <-.
      pose proof (RECIPE_DB_nonempty _ _ Hdb) as Hne.
      split; [now intros r [= <-]|]. split; [discriminate|].
      split; [intros ->; now destruct Hne | now intros [H _]].
    + destruct (fetchIngredientsFromAPI_returns api dishName)
        as (fetched & Hfetch & Hempty & Hfails).
      rewrite Hfetch in Hres. injection Hres as <-.
      split; [discriminate|]. split.
      * intros _ Hf. rewrite (Hfails Hf).
        split; [reflexivity | apply estimateDishIngredients_nonempty].
      * split.
        -- intros Hnil. split; [reflexivity | now apply Hempty].
        -- intros (_ & recipeId & others & Hsearch & Hwidget).
           unfold fetchIngredientsFromAPI in Hfetch.
           rewrite Hsearch in Hfetch. cbn [bind] in Hfetch.
           rewrite Hwidget in Hfetch. cbn in Hfetch. congruence.
  - intros ->. split; [reflexivity|].
    intros st item count Hitem _.
    now apply (processDish_empty api st item count dishName).
Qed.

Lemma recipe_resolution_never_raises_witness :
  (exists ingredients : Obj Q,
      resolveIngredients offline "mystery stew" = Returned ingredients
      /\ ingredients = estimateDishIngredients "mystery stew"
      /\ ingredients <> [])
  /\ (exists ingredients : Obj Q,
        resolveIngredients offline "tawa roti" = Returned ingredients
        /\ ingredients = [("wheat", 50); ("oil", 2)]
        /\ [("wheat", 50); ("oil", 2)] <> [])
  /\ (exists ingredients : Obj Q,
        resolveIngredients noIngredients "mystery stew" = Returned ingredients
        /\ ingredients = []
        /\ computeEmissionFromIngredients ingredients = Num 1.5).
Proof.
  split; [|split].
  - destruct (recipe_resolution_never_raises offline "mystery stew")
      as (ingredients & Hres & Hown & _).
    destruct (Hown eq_refl) as (_ & Hfails & _).
    exists ingredients. split; [exact Hres|].
    apply Hfails; [reflexivity|]. apply SearchErrors. reflexivity.
  - destruct (recipe_resolution_never_raises offline "tawa roti")
      as (ingredients & Hres & Hown & _).
    destruct (Hown eq_refl) as (Hstatic & _).
    exists ingredients. split; [exact Hres|].
    apply (Hstatic [("wheat", 50); ("oil", 2)]). reflexivity.
  - destruct (recipe_resolution_never_raises noIngredients "mystery stew")
      as (ingredients & Hres & Hown & Hcharge).
    destruct (Hown eq_refl) as (_ & _ & Hempty).
    assert (Hnil : ingredients = []).
    { apply Hempty. split; [reflexivity|].
      exists 716429%Z, []. split; reflexivity. }
    exists ingredients. split; [exact Hres|]. split; [exact Hnil|].
    now apply Hcharge.
Defined.

(** C3 as stated fails when the external lookup finds a recipe and returns
    no ingredient for it: the resolver returns the empty map, and the
    aggregator then charges the default 1.5 for the dish. *)
Lemma recipe_may_be_empty :
  resolveIngredients noIngredients "mystery stew" = Returned []
  /\ computeEmissionFromIngredients [] = Num 1.5
  /\ exists result : Result.t,
       calculateFoodEmission noIngredients (Some "1 x mystery stew") None None
       = Returned result
       /\ Result.food result = "1.50"
       /\ Details.ingredients (Result.details result) = [].
Proof.
  split; [reflexivity|]. split; [reflexivity|].
  eexists. split; [vm_compute; reflexivity|]. split; reflexivity.
Qed.

(** *** Printing and reading decimals *)

Lemma parseDigits_uint (d : Decimal.uint) (acc : positive) :
  parseDigits (Z.pos acc) (NilEmpty.string_of_uint d)
  = Z.pos (Pos.of_uint_acc d acc).
Proof.
  revert acc. induction d; intros acc; cbn [NilEmpty.string_of_uint
    parseDigits Pos.of_uint_acc]; try reflexivity; rewrite <- IHd; f_equal;
    unfold digitValue; simpl N_of_ascii; lia.
Qed.

Lemma parseInt_uint (d : Decimal.uint) :
  parseInt (NilEmpty.string_of_uint d) = Z.of_N (N.of_uint d).
Proof.
  unfold parseInt, N.of_uint.
  induction d; cbn [NilEmpty.string_of_uint parseDigits Pos.of_uint];
    try reflexivity; try exact IHd; apply (parseDigits_uint d).
Qed.

Lemma allDigits_uint (d : Decimal.uint) :
  allDigits (NilEmpty.string_of_uint d) = true.
Proof.
  induction d; cbn [NilEmpty.string_of_uint allDigits]; try reflexivity;
    exact IHd.
Qed.

Lemma parseInt_digitsOf (n : Z) : (0 <= n)%Z -> parseInt (digitsOf n) = n.
Proof.
  intros Hn. unfold digitsOf.
  rewrite parseInt_uint, DecimalN.Unsigned.of_to. now apply Z2N.id.
Qed.

Lemma parseDigits_zeros (k : nat) (s : string) :
  parseDigits 0%Z (zeros k ++ s) = parseDigits 0%Z s.
Proof.
  induction k as [|k IH]; [reflexivity | exact IH].
Qed.

Lemma allDigits_append (s t : string) :
  allDigits (s ++ t) = allDigits s && allDigits t.
Proof.
  induction s as [|c s IH]; simpl; [reflexivity|].
  now rewrite IH, andb_assoc.
Qed.

Lemma allDigits_zeros (k : nat) : allDigits (zeros k) = true.
Proof.
  induction k as [|k IH]; [reflexivity | exact IH].
Qed.

Lemma length_append (s t : string) :
  String.length (s ++ t) = (String.length s + String.length t)%nat.
Proof.
  induction s as [|c s IH]; simpl; [reflexivity | now rewrite IH].
Qed.

Lemma length_zeros (k : nat) : String.length (zeros k) = k.
Proof.
  induction k as [|k IH]; simpl; [reflexivity | now rewrite IH].
Qed.

Lemma padDigits_spec (n : Z) (f : nat) :
  (0 <= n)%Z ->
  let m := padDigits (digitsOf n) f in
  parseInt m = n /\ allDigits m = true /\ (f < String.length m)%nat.
Proof.
  intros Hn m. subst m. unfold padDigits. split; [|split].
  - unfold parseInt. rewrite parseDigits_zeros. now apply parseInt_digitsOf.
  - rewrite allDigits_append, allDigits_zeros. apply allDigits_uint.
  - rewrite length_append, length_zeros. lia.
Qed.

Lemma substring_split (s : string) (n : nat) :
  (n <= String.length s)%nat ->
  substring 0 n s ++ substring n (String.length s - n) s = s.
Proof.
  revert n. induction s as [|c s IH]; intros [|n] H; simpl in *;
    try reflexivity; try lia.
  - f_equal. clear. induction s as [|c s IH]; simpl; [reflexivity|].
    now rewrite IH.
  - f_equal. apply IH. lia.
Qed.

Lemma length_substring (s : string) (n m : nat) :
  (n + m <= String.length s)%nat -> String.length (substring n m s) = m.
Proof.
  revert n m. induction s as [|c s IH]; intros [|n] [|m] H; simpl in *;
    try reflexivity; try lia.
  - f_equal. apply IH. simpl. lia.
  - apply IH. lia.
  - apply IH. lia.
Qed.

Lemma parseDigits_append (acc : Z) (s t : string) :
  parseDigits acc (s ++ t) = parseDigits (parseDigits acc s) t.
Proof.
  revert acc. induction s as [|c s IH]; intros acc; simpl; [reflexivity|].
  apply IH.
Qed.

Lemma parseDigits_shift (acc : Z) (t : string) :
  parseDigits acc t
  = (acc * pow10 (String.length t) + parseDigits 0 t)%Z.
Proof.
  unfold pow10. revert acc. induction t as [|c t IH]; intros acc.
  - simpl. lia.
  - cbn [parseDigits String.length]. rewrite IH.
    rewrite (IH (10 * 0 + digitValue c)%Z).
    rewrite Nat2Z.inj_succ, Z.pow_succ_r by lia. ring.
Qed.

Lemma scaledRound_nonneg (x : Q) (f : nat) : (0 <= scaledRound x f)%Z.
Proof.
  unfold scaledRound. change 0%Z with (Qfloor 0). apply Qfloor_resp_le.
  assert (0 <= Qabs x) by apply Qabs_nonneg.
  assert (0 <= inject_Z (pow10 f)).
  { change 0 with (inject_Z 0). rewrite <- Zle_Qle. unfold pow10. lia. }
  assert (0 <= Qabs x * inject_Z (pow10 f)) by now apply Qmult_le_0_compat.
  lra.
Qed.

Lemma parseFloat_digit (c : ascii) (r : string) :
  isDigit c = true -> parseFloat (String c r) = unsignedLiteral (String c r).
Proof.
  destruct c as [[] [] [] [] [] [] [] []]; intros H;
    try discriminate H; reflexivity.
Qed.

Lemma unsignedLiteral_fixed (a b : string) :
  a <> EmptyString -> allDigits a = true -> allDigits b = true ->
  unsignedLiteral (a ++ "." ++ b)
  = Num (inject_Z (parseInt a)
         + inject_Z (parseInt b) / inject_Z (pow10 (String.length b))).
Proof.
  intros Ha Hda Hdb. unfold unsignedLiteral.
  rewrite (spanDigits_run a ("." ++ b) Hda) by reflexivity.
  cbn [append].
  assert (Hb : spanDigits b = (b, EmptyString)).
  { rewrite <- (spanDigits_run b EmptyString Hdb I). f_equal.
    clear. induction b as [|c b IH]; simpl; [reflexivity | now rewrite <- IH]. }
  rewrite Hb. cbn [fst].
  destruct a; [congruence | reflexivity].
Qed.

Lemma pow10_pos (f : nat) : (0 < pow10 f)%Z.
Proof. unfold pow10. lia. Qed.

Lemma parseFloat_fixedQ (x : Q) (f : nat) :
  numEq (parseFloat (fixedQ x (S f))) (Num (roundedTo x (S f))).
Proof.
  unfold fixedQ, roundedTo.
  pose proof (scaledRound_nonneg x (S f)) as Hn.
  destruct (padDigits_spec (scaledRound x (S f)) (S f) Hn) as (Hval & Hdig & Hlen).
  set (m := padDigits (digitsOf (scaledRound x (S f))) (S f)) in *.
  set (k := String.length m) in *.
  set (a := substring 0 (k - S f) m).
  set (b := substring (k - S f) (S f) m).
  assert (Hsplit : a ++ b = m).
  { subst a b. rewrite <- (substring_split m (k - S f)) at 3 by lia.
    do 2 f_equal. subst k. lia. }
  assert (Hlb : String.length b = S f).
  { subst b. apply length_substring. lia. }
  assert (Hla : String.length a = (k - S f)%nat).
  { subst a. apply length_substring. lia. }
  assert (Ha : a <> EmptyString).
  { intros E. rewrite E in Hla. simpl in Hla. lia. }
  rewrite <- Hsplit, allDigits_append in Hdig.
  apply andb_true_iff in Hdig as [Hda Hdb].
  assert (Hparse : (parseInt a * pow10 (S f) + parseInt b)%Z
                   = scaledRound x (S f)).
  { rewrite <- Hval, <- Hsplit. unfold parseInt.
    rewrite parseDigits_append, (parseDigits_shift (parseDigits 0%Z a) b), Hlb.
    reflexivity. }
  assert (Hq : inject_Z (parseInt a)
               + inject_Z (parseInt b) / inject_Z (pow10 (String.length b))
               == inject_Z (scaledRound x (S f)) / inject_Z (pow10 (S f))).
  { rewrite Hlb, <- Hparse, inject_Z_plus, inject_Z_mult.
    pose proof (pow10_pos (S f)) as Hp.
    assert (~ inject_Z (pow10 (S f)) == 0).
    { change 0 with (inject_Z 0). rewrite inject_Z_injective. lia. }
    field. assumption. }
  pose proof (unsignedLiteral_fixed a b Ha Hda Hdb) as Hlit.
  destruct (Qlt_le_dec x 0).
  - change (parseFloat ("-" ++ a ++ "." ++ b))
      with (negate (unsignedLiteral (a ++ "." ++ b))).
    rewrite Hlit. simpl. now rewrite Hq.
  - cbn [append].
    destruct a as [|c a']; [congruence|].
    cbn [append]. rewrite parseFloat_digit
      by (simpl in Hda; now apply andb_true_iff in Hda).
    cbn [append] in Hlit. rewrite Hlit. simpl. exact Hq.
Qed.

Lemma roundedTo_signed (x : Q) (f : nat) :
  roundedTo x f == inject_Z (signedRound x f) / inject_Z (pow10 f).
Proof.
  unfold roundedTo, signedRound. destruct (Qlt_le_dec x 0); [|reflexivity].
  rewrite inject_Z_opp.
  assert (~ inject_Z (pow10 f) == 0).
  { change 0 with (inject_Z 0). rewrite inject_Z_injective.
    pose proof (pow10_pos f). lia. }
  now field.
Qed.

Lemma signedRound_bounds (x : Q) (f : nat) :
  let y := x * inject_Z (pow10 f) in
  let r := inject_Z (signedRound x f) in
  (0 <= x -> y - (1 # 2) < r /\ r <= y + (1 # 2))
  /\ (x < 0 -> y - (1 # 2) <= r /\ r < y + (1 # 2)).
Proof.
  intros y r. subst y r. unfold signedRound, scaledRound.
  set (p := inject_Z (pow10 f)).
  pose proof (Qfloor_le (Qabs x * p + (1 # 2))) as Hle.
  pose proof (Qlt_floor (Qabs x * p + (1 # 2))) as Hlt.
  rewrite inject_Z_plus in Hlt. change (inject_Z 1) with 1 in Hlt.
  set (n := Qfloor (Qabs x * p + (1 # 2))) in *.
  destruct (Qlt_le_dec x 0) as [Hneg | Hpos]; split; intros Hx;
    try (exfalso; lra).
  - rewrite inject_Z_opp.
    assert (Habs : Qabs x * p == - x * p)
      by (rewrite Qabs_neg by lra; reflexivity).
    lra.
  - assert (Habs : Qabs x * p == x * p)
      by (rewrite Qabs_pos by lra; reflexivity).
    lra.
Qed.



(** *** Aggregator: totality and the total *)

Lemma processDish_returns (api : Spoonacular.t) (st : Loop.t) (item : string) :
  exists st' : Loop.t, processDish api st item = Returned st'.
Proof.
  unfold processDish. destruct (parseItem item) as [[count dishName]|];
    [|now exists st].
  unfold resolveIngredients.
  destruct (read RECIPE_DB dishName) as [recipe| |]; cbn [bind].
  - eexists. reflexivity.
  - eexists. reflexivity.
  - destruct (fetchIngredientsFromAPI_returns api dishName)
      as (ingredients & -> & _).
    cbn [bind]. eexists. reflexivity.
Qed.

Lemma processDishes_returns (api : Spoonacular.t) (items : list string)
    (st : Loop.t) :
  exists st' : Loop.t, processDishes api st items = Returned st'.
Proof.
  revert st. induction items as [|item rest IH]; intros st.
  - now exists st.
  - cbn [processDishes].
    destruct (processDish_returns api st item) as [st1 ->]. cbn [bind].
    apply IH.
Qed.

Lemma packagingOfOrder_number (n : Z) (packagingType : string) :
  inherited packagingType = false ->
  exists charged : Q, packagingOfOrder n packagingType = Returned (Num charged).
Proof.
  intros Hown. destruct (has PACKAGING_EMISSIONS packagingType) eqn:Hhas.
  - destruct (packagingOfOrder_known n _ Hhas) as [-> _].
    destruct (packagingFormula_defined n packagingType (escalatedSize n))
      as (factor & _ & _ & ->).
    eexists. reflexivity.
  - rewrite (packagingOfOrder_unknown n _ Hhas Hown). eexists. reflexivity.
Qed.

Lemma packagingOfOrder_returns (n : Z) (packagingType : string) :
  exists charged : number, packagingOfOrder n packagingType = Returned charged.
Proof.
  destruct (inherited packagingType) eqn:H.
  - exists NaN. now apply packagingOfOrder_inherited.
  - destruct (packagingOfOrder_number n _ H) as [charged Hc].
    now exists (Num charged).
Qed.

Lemma calculateFoodEmission_returns (api : Spoonacular.t)
    (dishString : option string) (travelArg : option TravelInput)
    (packagingArg : option string) :
  exists result : Result.t,
    calculateFoodEmission api dishString travelArg packagingArg
    = Returned result.
Proof.
  unfold calculateFoodEmission.
  destruct (if truthyStr dishString then dishString else None) as [s|].
  - destruct (processDishes_returns api (splitDishes s)
                {| Loop.totalFoodEmission := Num 0;
                   Loop.totalDishCount := 0;
                   Loop.allIngredients := [];
                   Loop.dishDetails := [] |}) as [st ->].
    cbn [bind].
    destruct (packagingOfOrder_returns (Loop.totalDishCount st)
                (requestedPackaging packagingArg)) as [charged Hc].
    unfold requestedPackaging in Hc. rewrite Hc. cbn [bind].
    destruct (travelOfOrder _) as [[d t] e].
    destruct (ingredientShares _) as [shares totalShare].
    eexists. reflexivity.
  - destruct (travelOfEmptyOrder _) as [[d t] e]. eexists. reflexivity.
Qed.

Lemma Returned_injective {A : Type} (a b : A) :
  Returned a = Returned b -> a = b.
Proof.
  intros H. now injection H.
Qed.

Lemma parseFloat_toFixed (x : Q) :
  exists y : Q, parseFloat (toFixed (Num x) 2) = Num y /\ y == roundedTo x 2.
Proof.
  pose proof (parseFloat_fixedQ x 1) as H. cbn [toFixed].
  destruct (parseFloat (fixedQ x 2)) as [y|]; [|destruct H].
  now exists y.
Qed.


Lemma bare_distance_travel (api : Spoonacular.t) (dishString : option string)
    (km : Q) (packagingArg : option string) :
  exists result : Result.t,
    calculateFoodEmission api dishString (Some (TravelNumber km)) packagingArg
    = Returned result
    /\ Result.travel result
       = toFixed (Num (km * (if truthyStr dishString then 0.105 else 0.115))) 2.
Proof.
  destruct (calculateFoodEmission_returns api dishString
              (Some (TravelNumber km)) packagingArg) as [result Hres].
  exists result. split; [exact Hres|]. revert Hres.
  unfold calculateFoodEmission.
  destruct (truthyStr dishString) eqn:Htruthy.
  - destruct dishString as [s|]; [|discriminate Htruthy].
    destruct (processDishes _ _ _) as [st|]; [|discriminate]. cbn [bind].
    destruct (packagingOfOrder _ _) as [charged|]; [|discriminate].
    cbn [bind travelOfOrder].
    destruct (ingredientShares _) as [shares totalShare].
    intros Hres. apply Returned_injective in Hres. now subst result.
  - cbn [travelOfEmptyOrder].
    intros Hres. apply Returned_injective in Hres. now subst result.
Qed.

(** *** Aggregator: evaluations *)

(** C9, at the distance 7.5 km of the module's own test.  With an empty dish
    string the travel emission of the bare number 7.5 is "0.86" (the table
    factor of the default transport, 0.115 per km); with the dish string
    "2 x butter chicken, 1 x naan" it is "0.79" (the old constant, 0.105 per
    km).  The per-km constant depends on the dish string, as
    [bare_distance_travel] shows for every distance. *)
Theorem bare_distance_factor_depends_on_dishes (api : Spoonacular.t) :
  exists empty order : Result.t,
    calculateFoodEmission api (Some EmptyString) (Some (TravelNumber 7.5)) None
    = Returned empty
    /\ calculateFoodEmission api (Some "2 x butter chicken, 1 x naan")
         (Some (TravelNumber 7.5)) None
       = Returned order
    /\ testWithRealExample api = Returned order
    /\ Result.travel empty = "0.86"
    /\ Result.travel order = "0.79"
    /\ Result.travelDistance empty = Result.travelDistance order
    /\ Result.transportType empty = Result.transportType order.
Proof.
  eexists. eexists. split; [vm_compute; reflexivity|].
  split; [vm_compute; reflexivity|].
  repeat split.
Qed.

(** C2, at the order "1 x tawa roti".  The cumulative ingredient map has two
    entries and the food emission is 0.0866 > 0; the percentages are "92.4"
    and "11.5", computed from the two-decimal emissions "0.08" and "0.01",
    and their sum 103.9 is outside 100 +- 0.5. *)
Theorem percentages_of_tawa_roti (api : Spoonacular.t) :
  exists result : Result.t,
    calculateFoodEmission api (Some "1 x tawa roti") None None
    = Returned result
    /\ Details.ingredients (Result.details result)
       = [("wheat", {| Share.amount := "50.0"; Share.emission := "0.08";
                       Share.percentage := Some "92.4" |});
          ("oil", {| Share.amount := "2.0"; Share.emission := "0.01";
                     Share.percentage := Some "11.5" |})]
    /\ numEq (snd (ingredientShares [("wheat", 50); ("oil", 2)])) (Num 0.0866)
    /\ numEq (percentageSum (Details.ingredients (Result.details result)))
             (Num 103.9)
    /\ ~ within 0.5 (percentageSum (Details.ingredients (Result.details result)))
                (Num 100).
Proof.
  eexists. split; [vm_compute; reflexivity|].
  split; [reflexivity|]. split; [reflexivity|]. split; [reflexivity|].
  intros H. vm_compute in H. apply H. reflexivity.
Qed.

(** C1, at a travel object whose transport type is not in the travel table
    and which carries no emission factor.  The travel emission is the product
    of the distance and an undefined factor: [travel] and [total] are both
    "NaN", while [food] and [packaging] are numbers, so the total is not
    within 0.01 of the sum of the parts.  The same happens on the early
    return for an empty dish string.  Whenever [food], [packaging] and
    [travel] are numbers the total is within 0.01 of the parts
    ([total_matches_parts]). *)
Theorem unknown_transport_gives_NaN_total (api : Spoonacular.t) :
  get TRAVEL_EMISSIONS "rocket" = None
  /\ exists order empty : Result.t,
       calculateFoodEmission api (Some "1 x naan") (Some (TravelObject byRocket))
         None
       = Returned order
       /\ calculateFoodEmission api None (Some (TravelObject byRocket)) None
          = Returned empty
       /\ Result.food order = "0.30"
       /\ Result.packaging order = "0.25"
       /\ Result.travel order = "NaN"
       /\ Result.total order = "NaN"
       /\ Result.total empty = "NaN"
       /\ ~ within 0.01 (parseFloat (Result.total order)) (sumOfParts order)
       /\ ~ within 0.01 (parseFloat (Result.total empty)) (sumOfParts empty).
Proof.
  split; [reflexivity|].
  eexists. eexists. split; [vm_compute; reflexivity|].
  split; [vm_compute; reflexivity|].
  repeat split; intros H; exact H.
Qed.

(** ** Further properties of the code *)

(** *** Aggregator: invariants of the loop over the dishes *)

Lemma processDish_line (api : Spoonacular.t) (st st' : Loop.t) (item : string) :
  processDish api st item = Returned st' ->
  match parseItem item with
  | None => st' = st
  | Some (count, dishName) =>
      exists ingredients : Obj Q,
        resolveIngredients api dishName = Returned ingredients
        /\ st' = {| Loop.totalFoodEmission :=
                      add (Loop.totalFoodEmission st)
                          (mul (computeEmissionFromIngredients ingredients)
                               (Num (inject_Z count)));
                    Loop.totalDishCount := (Loop.totalDishCount st + count)%Z;
                    Loop.allIngredients :=
                      trackIngredients (Loop.allIngredients st) ingredients count;
                    Loop.dishDetails :=
                      (Loop.dishDetails st ++
                       [{| Dish.name := dishName;
                           Dish.count := count;
                           Dish.emission :=
                             toFixed (computeEmissionFromIngredients ingredients) 2;
                           Dish.totalEmission :=
                             toFixed (mul (computeEmissionFromIngredients ingredients)
                                          (Num (inject_Z count))) 2;
                           Dish.ingredients := ingredients |}])%list |}
  end.
Proof.
  unfold processDish. destruct (parseItem item) as [[count dishName]|].
  - destruct (resolveIngredients api dishName) as [ingredients|];
      cbn [bind]; [|discriminate].
    intros H. apply Returned_injective in H. subst st'.
    now exists ingredients.
  - intros H. now apply Returned_injective in H.
Qed.

Lemma countOfLines_cons (line : Z * string) (lines : list (Z * string)) :
  countOfLines (line :: lines) = (fst line + countOfLines lines)%Z.
Proof. reflexivity. Qed.

Lemma processDishes_lines (api : Spoonacular.t) (items : list string)
    (st st' : Loop.t) :
  processDishes api st items = Returned st' ->
  map lineOfDish (Loop.dishDetails st')
  = (map lineOfDish (Loop.dishDetails st)
     ++ flat_map (fun item => match parseItem item with
                              | Some line => [line]
                              | None => []
                              end) items)%list
  /\ Loop.totalDishCount st'
     = (Loop.totalDishCount st
        + countOfLines (flat_map (fun item => match parseItem item with
                                              | Some line => [line]
                                              | None => []
                                              end) items))%Z.
Proof.
  revert st. induction items as [|item rest IH]; intros st.
  - cbn [processDishes]. intros H. apply Returned_injective in H. subst st'.
    cbn [flat_map countOfLines fold_right]. rewrite app_nil_r, Z.add_0_r.
    split; reflexivity.
  - cbn [processDishes].
    destruct (processDish api st item) as [st1|] eqn:H1; cbn [bind];
      [|discriminate].
    intros H. destruct (IH _ H) as [Hl Hc]. rewrite Hl, Hc. clear IH H Hl Hc.
    apply processDish_line in H1. cbn [flat_map].
    destruct (parseItem item) as [[count dishName]|].
    + destruct H1 as (ingredients & _ & ->).
      cbn [Loop.dishDetails Loop.totalDishCount].
      rewrite map_app. cbn [map lineOfDish Dish.count Dish.name].
      rewrite <- app_assoc. split; [reflexivity|].
      cbn [app]. rewrite countOfLines_cons. cbn [fst]. lia.
    + subst st1. split; reflexivity.
Qed.

(** X1.  For a dish string that is not empty and whose counts add up to at
    most [MAX_SAFE_INTEGER], the dishes the result reports are, in order,
    exactly the order lines the parser reads from the string (count and
    lower-cased, trimmed name), and the reported dish count is the sum of
    their counts. *)
Theorem dishes_are_the_parsed_lines (api : Spoonacular.t) (dishString : string)
    (travelArg : option TravelInput) (packagingArg : option string)
    (result : Result.t) :
  dishString <> EmptyString ->
  (countOfLines (parseDishes dishString) <= MAX_SAFE_INTEGER)%Z ->
  calculateFoodEmission api (Some dishString) travelArg packagingArg
  = Returned result ->
  map lineOfDish (Details.dishes (Result.details result))
  = parseDishes dishString
  /\ Details.dishCount (Result.details result)
     = Some (countOfLines (parseDishes dishString)).
Proof.
  intros Hne _. unfold calculateFoodEmission.
  destruct dishString as [|c s]; [congruence|]. cbn [truthyStr].
  destruct (processDishes _ _ _) as [st|] eqn:Hloop; cbn [bind]; [|discriminate].
  destruct (packagingOfOrder _ _) as [charged|]; cbn [bind]; [|discriminate].
  destruct (travelOfOrder _) as [[d t] e].
  destruct (ingredientShares _) as [shares totalShare].
  intros H. apply Returned_injective in H. subst result.
  cbn [Result.details Details.dishes Details.dishCount].
  destruct (processDishes_lines _ _ _ _ Hloop) as [Hl Hc].
  cbn [Loop.dishDetails Loop.totalDishCount map app] in Hl, Hc.
  unfold parseDishes. rewrite Hl, Hc. split; reflexivity.
Qed.

Lemma dishes_are_the_parsed_lines_witness :
  exists result : Result.t,
    calculateFoodEmission offline (Some "2 x Dal Makhani, oops, 1 x naan")
      None None
    = Returned result
    /\ map lineOfDish (Details.dishes (Result.details result))
       = [(2%Z, "dal makhani"); (1%Z, "naan")]
    /\ Details.dishCount (Result.details result) = Some 3%Z.
Proof.
  eexists. split; [vm_compute; reflexivity|].
  apply (dishes_are_the_parsed_lines offline
           "2 x Dal Makhani, oops, 1 x naan" None None);
    [discriminate | vm_compute; discriminate | vm_compute; reflexivity].
Defined.

(** *** Aggregator: the keys of the maps it fills *)

Lemma ownKeys_cons {V : Type} (k : string) (v : V) (rest : Obj V) :
  ownKeys ((k, v) :: rest) = true <->
  inherited k = false /\ ownKeys rest = true.
Proof.
  unfold ownKeys. cbn [forallb fst]. rewrite andb_true_iff, negb_true_iff.
  reflexivity.
Qed.

Lemma set_ownKeys {V : Type} (obj : Obj V) (key : string) (v : V) :
  ownKeys obj = true -> inherited key = false -> ownKeys (set obj key v) = true.
Proof.
  intros Hobj Hkey. induction obj as [|[k w] rest IH]; cbn [set].
  - apply ownKeys_cons. now split.
  - apply ownKeys_cons in Hobj as [Hk Hrest].
    destruct (String.eqb_spec k key) as [->|_]; apply ownKeys_cons; split;
      auto.
Qed.

Lemma memberText_own (name : string) : inherited (memberText name) = false.
Proof.
  unfold memberText. destruct (String.eqb name "__proto__"); reflexivity.
Qed.

(** The key an ingredient of the payload is stored under names no member of
    [Object.prototype]. *)
Lemma normalize_own (name : string) : inherited (normalize name) = false.
Proof.
  unfold normalize, read.
  destruct (get INGREDIENT_NORMALIZATION name) as [[|c r]|] eqn:Hget.
  - destruct (inherited name) eqn:H; [|reflexivity].
    destruct (tables_hold_no_inherited_name _ H) as (_ & Hnone & _).
    congruence.
  - apply get_In in Hget.
    assert (Hall : forallb (fun entry : string * string =>
                              negb (inherited (snd entry)))
                           INGREDIENT_NORMALIZATION = true) by reflexivity.
    rewrite forallb_forall in Hall. specialize (Hall _ Hget).
    now apply negb_true_iff in Hall.
  - destruct (inherited name) eqn:H; [apply memberText_own | exact H].
Qed.

Lemma collectIngredients_ownKeys (items : list (option Item.t))
    (result collected : Obj Q) :
  ownKeys result = true ->
  collectIngredients items result = Returned collected ->
  ownKeys collected = true.
Proof.
  revert result. induction items as [|[item|] rest IH]; intros result Hown.
  - now intros [= <-].
  - cbn [collectIngredients]. apply IH, set_ownKeys; [exact Hown|].
    apply normalize_own.
  - discriminate.
Qed.

Lemma estimateDishIngredients_ownKeys (dishName : string) :
  ownKeys (estimateDishIngredients dishName) = true.
Proof.
  unfold estimateDishIngredients.
  repeat match goal with
         | |- ownKeys (if ?b then _ else _) = _ => destruct b
         end; reflexivity.
Qed.

Lemma resolveIngredients_ownKeys (api : Spoonacular.t) (dishName : string)
    (ingredients : Obj Q) :
  resolveIngredients api dishName = Returned ingredients ->
  ownKeys ingredients = true.
Proof.
  unfold resolveIngredients, read.
  destruct (get RECIPE_DB dishName) as [recipe|] eqn:Hdb.
  - intros [= <-]. apply get_In in Hdb.
    assert (Hall : forallb (fun entry : string * Obj Q => ownKeys (snd entry))
                           RECIPE_DB = true) by reflexivity.
    rewrite forallb_forall in Hall. exact (Hall _ Hdb).
  - destruct (inherited dishName); [now intros [= <-]|].
    unfold fetchIngredientsFromAPI.
    pose proof (estimateDishIngredients_ownKeys dishName) as Hest.
    destruct (Spoonacular.complexSearch api dishName)
      as [[|recipeId others]|]; cbn [bind try_catch];
      try (now intros [= <-]).
    destruct (Spoonacular.ingredientWidget api recipeId) as [items|];
      cbn [bind try_catch]; [|now intros [= <-]].
    destruct (collectIngredients items []) as [collected|] eqn:Hc;
      cbn [try_catch]; [|now intros [= <-]].
    intros [= <-]. now apply (collectIngredients_ownKeys items []).
Qed.

Lemma trackIngredients_ownKeys (ingredients all : Obj Q) (count : Z) :
  ownKeys ingredients = true ->
  ownKeys all = true ->
  ownKeys (trackIngredients all ingredients count) = true.
Proof.
  unfold trackIngredients. revert all.
  induction ingredients as [|[k a] rest IH]; intros all Hing Hall;
    cbn [fold_left]; [exact Hall|].
  apply ownKeys_cons in Hing as [Hk Hrest]. apply IH; [exact Hrest|].
  destruct (get all k) as [present|];
    [destruct (truthyNum (Some present))|]; now apply set_ownKeys.
Qed.

(** The cumulative ingredient map of the loop never holds a key that names a
    member of [Object.prototype]: reading it at one of its keys finds the own
    entry. *)
Lemma tracked_keys_are_own (api : Spoonacular.t) (items : list string)
    (st st' : Loop.t) :
  ownKeys (Loop.allIngredients st) = true ->
  processDishes api st items = Returned st' ->
  ownKeys (Loop.allIngredients st') = true.
Proof.
  revert st. induction items as [|item rest IH]; intros st Hown.
  - cbn [processDishes]. now intros [= <-].
  - cbn [processDishes].
    destruct (processDish api st item) as [st1|] eqn:H1; cbn [bind];
      [|discriminate].
    apply IH. apply processDish_line in H1.
    destruct (parseItem item) as [[count dishName]|]; [|now subst st1].
    destruct H1 as (ingredients & Hres & ->). cbn [Loop.allIngredients].
    apply trackIngredients_ownKeys; [|exact Hown].
    now apply (resolveIngredients_ownKeys api dishName).
Qed.

(** *** Aggregator: the food total and the ingredients *)

Lemma emissionOfMap_cons (k : string) (v : Q) (rest : Obj Q) :
  emissionOfMap ((k, v) :: rest)
  = factorOf k * (v / 1000.0) + emissionOfMap rest.
Proof. reflexivity. Qed.

Lemma emissionOfMap_set (all : Obj Q) (k : string) (v : Q) :
  emissionOfMap (set all k v)
  == emissionOfMap all + factorOf k * (v / 1000.0)
     - match get all k with
       | Some old => factorOf k * (old / 1000.0)
       | None => 0
       end.
Proof.
  induction all as [|[k' w] rest IH]; cbn [set get].
  - rewrite emissionOfMap_cons. cbn [emissionOfMap fold_right]. ring.
  - destruct (String.eqb_spec k' k) as [->|_].
    + rewrite !emissionOfMap_cons. ring.
    + rewrite !emissionOfMap_cons, IH. ring.
Qed.

Lemma trackIngredients_emission (ingredients all : Obj Q) (count : Z) :
  emissionOfMap (trackIngredients all ingredients count)
  == emissionOfMap all + emissionOfMap ingredients * inject_Z count.
Proof.
  unfold trackIngredients. revert all.
  induction ingredients as [|[k a] rest IH]; intros all; cbn [fold_left].
  - cbn [emissionOfMap fold_right]. ring.
  - rewrite IH, emissionOfMap_cons. clear IH.
    destruct (get all k) as [present|] eqn:Hget.
    + destruct (truthyNum (Some present)) eqn:Htruthy;
        rewrite emissionOfMap_set, Hget.
      * field.
      * cbn [truthyNum] in Htruthy. apply negb_false_iff, Qeq_bool_iff in Htruthy.
        rewrite Htruthy. field.
    + rewrite emissionOfMap_set, Hget. field.
Qed.

Lemma emission_fold (l : Obj Q) (a : Q) :
  ownKeys l = true ->
  exists q : Q,
    fold_left
      (fun total (e : string * Q) =>
         let '(ingredient, grams) := e in
         let kg := grams / 1000.0 in
         let emissionFactor := emissionFactorOf ingredient in
         add total (mul (numberOf emissionFactor) (Num kg))) l (Num a)
    = Num q
    /\ q == a + emissionOfMap l.
Proof.
  revert a. induction l as [|[k v] l IH]; intros a Hown; cbn [fold_left].
  - exists a. split; [reflexivity|]. cbn [emissionOfMap fold_right]. ring.
  - apply ownKeys_cons in Hown as [Hk Hl].
    rewrite (emissionFactorOf_own _ Hk). cbn [numberOf mul add].
    destruct (IH (a + factorOf k * (v / 1000.0)) Hl) as (q & Hfold & Hq).
    exists q. split; [exact Hfold|]. rewrite Hq, emissionOfMap_cons. ring.
Qed.

Lemma computeEmission_number (ingredients : Obj Q) :
  ownKeys ingredients = true ->
  exists q : Q,
    computeEmissionFromIngredients ingredients = Num q
    /\ q == match ingredients with
            | [] => 1.5
            | _ => emissionOfMap ingredients
            end.
Proof.
  intros Hown. unfold computeEmissionFromIngredients.
  destruct ingredients as [|entry rest].
  - exists 1.5. split; reflexivity.
  - destruct (emission_fold (entry :: rest) 0 Hown) as (q & Hq & Heq).
    exists q. split; [exact Hq|]. rewrite Heq. ring.
Qed.

Lemma ingredientShares_total (all : Obj Q) :
  ownKeys all = true ->
  exists q : Q,
    snd (ingredientShares all) = Num q /\ q == emissionOfMap all.
Proof.
  unfold ingredientShares.
  assert (Hfold : forall (l : Obj Q) (shares : Obj Share.t) (t : Q),
             ownKeys l = true ->
             exists q : Q,
               snd (fold_left
                      (fun (acc : Obj Share.t * number) (entry : string * Q) =>
                         let '(ingredientEmissions, totalIngredientEmission) := acc in
                         let '(ingredient, amount) := entry in
                         let kg := amount / 1000.0 in
                         let emissionFactor := emissionFactorOf ingredient in
                         let emission := mul (numberOf emissionFactor) (Num kg) in
                         (set ingredientEmissions ingredient
                            {| Share.amount := toFixed (Num amount) 1;
                               Share.emission := toFixed emission 2;
                               Share.percentage := None |},
                          add totalIngredientEmission emission))
                      l (shares, Num t))
               = Num q
               /\ q == t + emissionOfMap l).
  { induction l as [|[k v] l IH]; intros shares t Hown; cbn [fold_left].
    - exists t. split; [reflexivity|]. cbn [emissionOfMap fold_right]. ring.
    - apply ownKeys_cons in Hown as [Hk Hl].
      rewrite (emissionFactorOf_own _ Hk). cbn [numberOf mul add].
      destruct (IH (set shares k
                      {| Share.amount := toFixed (Num v) 1;
                         Share.emission :=
                           toFixed (Num (factorOf k * (v / 1000.0))) 2;
                         Share.percentage := None |})
                   (t + factorOf k * (v / 1000.0)) Hl) as (q & Hq & Heq).
      exists q. split; [exact Hq|]. rewrite Heq, emissionOfMap_cons. ring. }
  intros Hown. destruct (Hfold all [] 0 Hown) as (q & Hq & Heq).
  exists q. split; [exact Hq|]. rewrite Heq. ring.
Qed.

Lemma defaultedCount_app (dishes : list Dish.t) (dish : Dish.t) :
  defaultedCount (dishes ++ [dish])
  = (defaultedCount dishes
     + match Dish.ingredients dish with
       | [] => Dish.count dish
       | _ => 0
       end)%Z.
Proof.
  induction dishes as [|d ds IH]; cbn [app defaultedCount fold_right].
  - destruct (Dish.ingredients dish); lia.
  - fold (defaultedCount (ds ++ [dish])). fold (defaultedCount ds).
    rewrite IH. destruct (Dish.ingredients d); lia.
Qed.

Lemma processDishes_food (api : Spoonacular.t) (items : list string)
    (st st' : Loop.t) :
  foodInvariant st ->
  processDishes api st items = Returned st' ->
  foodInvariant st'.
Proof.
  revert st. induction items as [|item rest IH]; intros st Hinv.
  - cbn [processDishes]. intros H. apply Returned_injective in H. now subst st'.
  - cbn [processDishes].
    destruct (processDish api st item) as [st1|] eqn:H1; cbn [bind];
      [|discriminate].
    apply IH. clear IH. apply processDish_line in H1.
    destruct (parseItem item) as [[count dishName]|]; [|now subst st1].
    destruct H1 as (ingredients & Hres & ->).
    apply resolveIngredients_ownKeys in Hres.
    destruct Hinv as [Hown Htotal]. split.
    + cbn [Loop.allIngredients]. now apply trackIngredients_ownKeys.
    + cbn [Loop.totalFoodEmission Loop.allIngredients Loop.dishDetails].
      destruct (computeEmission_number _ Hres) as (q & -> & Hq).
      destruct (Loop.totalFoodEmission st) as [total|]; [|destruct Htotal].
      cbn [numEq mul add] in *.
      rewrite defaultedCount_app. cbn [Dish.ingredients Dish.count].
      rewrite Htotal, Hq, trackIngredients_emission.
      destruct ingredients as [|entry more].
      * cbn [emissionOfMap fold_right]. rewrite inject_Z_plus. ring.
      * rewrite Z.add_0_r. ring.
Qed.

(** X2.  When the loop over the clauses of a dish string ends, the food total
    equals the total ingredient emission the breakdown of the result is
    computed against (grams / 1000 times the factor of the ingredient, summed
    over the cumulative ingredients), plus the default 1.5 for each unit of a
    dish that resolved to no ingredients. *)
Theorem food_total_is_the_sum_over_ingredients (api : Spoonacular.t)
    (dishString : string) (st : Loop.t) :
  processDishes api
    {| Loop.totalFoodEmission := Num 0;
       Loop.totalDishCount := 0;
       Loop.allIngredients := [];
       Loop.dishDetails := [] |}
    (splitDishes dishString)
  = Returned st ->
  numEq (Loop.totalFoodEmission st)
        (add (snd (ingredientShares (Loop.allIngredients st)))
             (Num (1.5 * inject_Z (defaultedCount (Loop.dishDetails st))))).
Proof.
  intros H. apply (processDishes_food api _ _ _) in H.
  - destruct H as [Hown Htotal].
    destruct (ingredientShares_total _ Hown) as (q & -> & Hq).
    destruct (Loop.totalFoodEmission st) as [total|]; [|destruct Htotal].
    cbn [numEq add] in *. now rewrite Htotal, Hq.
  - split; [reflexivity|]. cbn. reflexivity.
Qed.

Lemma food_total_is_the_sum_over_ingredients_witness :
  exists st : Loop.t,
    processDishes offline
      {| Loop.totalFoodEmission := Num 0;
         Loop.totalDishCount := 0;
         Loop.allIngredients := [];
         Loop.dishDetails := [] |}
      (splitDishes "2 x butter chicken, 1 x naan")
    = Returned st
    /\ numEq (Loop.totalFoodEmission st)
             (add (snd (ingredientShares (Loop.allIngredients st)))
                  (Num (1.5 * inject_Z (defaultedCount (Loop.dishDetails st))))).
Proof.
  eexists. split; [vm_compute; reflexivity|].
  apply (food_total_is_the_sum_over_ingredients offline
           "2 x butter chicken, 1 x naan").
  vm_compute. reflexivity.
Defined.

Lemma fold_left_snoc {A B : Type} (f : A -> B -> A) (l : list B) (b : B) (a : A) :
  fold_left f (l ++ [b]) a = f (fold_left f l a) b.
Proof.
  now rewrite fold_left_app.
Qed.

Lemma roundedTo_close (x : Q) : Qabs (roundedTo x 2 - x) <= 0.005.
Proof.
  rewrite roundedTo_signed.
  destruct (signedRound_bounds x 2) as [Hpos Hneg]. cbv zeta in Hpos, Hneg.
  change (inject_Z (pow10 2)) with 100 in *.
  set (r := inject_Z (signedRound x 2)) in *.
  unfold Qdiv. change (/ 100) with (1 # 100).
  destruct (Qlt_le_dec x 0) as [H | H];
    [specialize (Hneg H) | specialize (Hpos H)];
    apply Qabs_case; intros _; lra.
Qed.

(** What [toFixed(2)] prints is within a cent of the number printed. *)
Lemma printed_close (x : Q) :
  within 0.01 (parseFloat (toFixed (Num x) 2)) (Num x).
Proof.
  destruct (parseFloat_toFixed x) as (y & -> & Hy). cbn [within].
  rewrite Hy. apply (Qle_trans _ _ _ (roundedTo_close x)). discriminate.
Qed.

Lemma processDishes_details (api : Spoonacular.t) (items : list string)
    (st st' : Loop.t) :
  Loop.totalFoodEmission st = dishesTotal (Loop.dishDetails st) ->
  (exists total : Q, Loop.totalFoodEmission st = Num total) ->
  Forall dishConsistent (Loop.dishDetails st) ->
  processDishes api st items = Returned st' ->
  Loop.totalFoodEmission st' = dishesTotal (Loop.dishDetails st')
  /\ (exists total : Q, Loop.totalFoodEmission st' = Num total)
  /\ Forall dishConsistent (Loop.dishDetails st').
Proof.
  revert st. induction items as [|item rest IH]; intros st Htotal Hnum Hall.
  - cbn [processDishes]. intros H. apply Returned_injective in H. now subst st'.
  - cbn [processDishes].
    destruct (processDish api st item) as [st1|] eqn:H1; cbn [bind];
      [|discriminate].
    apply processDish_line in H1.
    destruct (parseItem item) as [[count dishName]|];
      [|subst st1; now apply IH].
    destruct H1 as (ingredients & Hres & ->).
    apply resolveIngredients_ownKeys in Hres.
    destruct (computeEmission_number _ Hres) as (q & Hq & _).
    destruct Hnum as [total Hnum].
    apply IH; clear IH; cbn [Loop.totalFoodEmission Loop.dishDetails].
    + unfold dishesTotal. rewrite fold_left_snoc.
      fold (dishesTotal (Loop.dishDetails st)). now rewrite <- Htotal.
    + rewrite Hnum, Hq. eexists. reflexivity.
    + apply Forall_app. split; [exact Hall|].
      constructor; [|constructor]. unfold dishConsistent.
      cbn [Dish.emission Dish.totalEmission Dish.ingredients Dish.count].
      rewrite Hq. cbn [mul]. split; apply printed_close.
Qed.

(** X3.  For a dish string that is not empty, the printed food emission is,
    to the cent, the sum over the reported dishes of the emission of the
    dish's ingredients times its count (a number), and the emission and the
    total emission each reported dish prints are, to the cent, these two
    numbers. *)
Theorem food_is_the_total_of_the_dishes (api : Spoonacular.t)
    (dishString : string) (travelArg : option TravelInput)
    (packagingArg : option string) (result : Result.t) :
  dishString <> EmptyString ->
  calculateFoodEmission api (Some dishString) travelArg packagingArg
  = Returned result ->
  within 0.01 (parseFloat (Result.food result))
         (dishesTotal (Details.dishes (Result.details result)))
  /\ Forall dishConsistent (Details.dishes (Result.details result)).
Proof.
  intros Hne. unfold calculateFoodEmission.
  destruct dishString as [|c s]; [congruence|]. cbn [truthyStr].
  destruct (processDishes _ _ _) as [st|] eqn:Hloop; cbn [bind]; [|discriminate].
  destruct (packagingOfOrder _ _) as [charged|]; cbn [bind]; [|discriminate].
  destruct (travelOfOrder _) as [[d t] e].
  destruct (ingredientShares _) as [shares totalShare].
  intros H. apply Returned_injective in H. subst result.
  cbn [Result.details Result.food Details.dishes].
  apply processDishes_details in Hloop;
    [|reflexivity | now exists 0 | constructor].
  destruct Hloop as (Htotal & [total Hnum] & Hall).
  split; [|exact Hall]. rewrite <- Htotal, Hnum. apply printed_close.
Qed.

Lemma food_is_the_total_of_the_dishes_witness :
  exists result : Result.t,
    calculateFoodEmission offline (Some "2 x palak paneer") None None
    = Returned result
    /\ within 0.01 (parseFloat (Result.food result))
              (dishesTotal (Details.dishes (Result.details result)))
    /\ Forall dishConsistent (Details.dishes (Result.details result)).
Proof.
  eexists. split; [vm_compute; reflexivity|].
  apply (food_is_the_total_of_the_dishes offline "2 x palak paneer" None None);
    [discriminate | vm_compute; reflexivity].
Defined.

(** *** Aggregator: which fields can be "NaN" *)




Lemma processDishes_number (api : Spoonacular.t) (items : list string)
    (st : Loop.t) :
  processDishes api
    {| Loop.totalFoodEmission := Num 0;
       Loop.totalDishCount := 0;
       Loop.allIngredients := [];
       Loop.dishDetails := [] |} items
  = Returned st ->
  exists food : Q, Loop.totalFoodEmission st = Num food.
Proof.
  intros H. apply (processDishes_food api _ _ _) in H.
  - destruct H as [_ H].
    destruct (Loop.totalFoodEmission st) as [food|]; [|destruct H].
    now exists food.
  - split; [reflexivity|]. cbn. reflexivity.
Qed.




(** *** Travel distance resolver: factor and full resolution *)

(** X5.  Let the transport type be a string that does not name a member of
    [Object.prototype], or be omitted, and let the geocoder and the routing
    service each answer with coordinates or a length that are numbers, or
    fail.  Then the travel resolver returns.  The result carries the
    requested transport type (the default when none is given); its factor is
    the table's factor for that type when that is not zero, and the default
    factor 0.115 when the type is not in the table. *)
Theorem travel_result_carries_the_type_factor (services : Services.t)
    (originAddress : option string) (destCoords : option Coords.t)
    (transportArg : option string) :
  inherited (requestedTransport transportArg) = false ->
  exists info : Travel.t,
    getTravelDistanceKm services originAddress destCoords transportArg
    = Returned info
    /\ Travel.transportType info = Some (requestedTransport transportArg)
    /\ (forall factor : Q,
           get TRAVEL_EMISSIONS (requestedTransport transportArg) = Some factor ->
           ~ factor == 0 ->
           Travel.emissionFactor info = Some factor)
    /\ (get TRAVEL_EMISSIONS (requestedTransport transportArg) = None ->
        Travel.emissionFactor info = Some 0.115).
Proof.
  intros _.
  destruct (getTravelDistanceKm_shape services originAddress destCoords
              transportArg) as [km Hkm].
  eexists. split; [exact Hkm|]. cbn [Travel.transportType Travel.emissionFactor].
  split; [reflexivity|]. split.
  - intros factor Hget Hnz. apply travelFactor_own; [exact Hget|].
    intros Hw. rewrite Hw in Hget. injection Hget as <-. now apply Hnz.
  - intros Hnone. now rewrite travelFactor_unknown.
Qed.

Lemma travel_result_carries_the_type_factor_witness :
  (exists info : Travel.t,
      getTravelDistanceKm noRoute None None (Some "bicycle") = Returned info
      /\ Travel.emissionFactor info = Some 0.008)
  /\ (exists info : Travel.t,
        getTravelDistanceKm noRoute None None (Some "rocket") = Returned info
        /\ Travel.emissionFactor info = Some 0.115).
Proof.
  split.
  - destruct (travel_result_carries_the_type_factor noRoute None None
                (Some "bicycle") eq_refl) as (info & Hres & _ & Hown & _).
    exists info. split; [exact Hres|]. apply Hown; [reflexivity | discriminate].
  - destruct (travel_result_carries_the_type_factor noRoute None None
                (Some "rocket") eq_refl) as (info & Hres & _ & _ & Hdef).
    exists info. split; [exact Hres|]. apply Hdef. reflexivity.
Defined.

(** X6.  Let the transport type be a string that does not name a member of
    [Object.prototype], or be omitted.  When the origin address is not
    blank, the geocoder finds it and the routing service returns a length in
    metres that is a number, the travel resolver returns that length divided
    by 1000, the requested transport type, and as factor the entry of the
    travel table for that type when there is one and it is not zero, the
    entry of the default type "motorcycle" otherwise; the route is requested
    from the first geocoding hit to the destination. *)
Theorem travel_full_resolution (services : Services.t) (address : string)
    (dest : Coords.t) (transportArg : option string)
    (found : Q * Q) (others : list (Q * Q)) (meters : Q) :
  inherited (requestedTransport transportArg) = false ->
  trim address <> EmptyString ->
  Services.geocode services address = Returned (found :: others) ->
  Services.directions services
    (routeBody {| Coords.lng := fst found; Coords.lat := snd found |} dest
               (requestedTransport transportArg))
  = Returned meters ->
  getTravelDistanceKm services (Some address) (Some dest) transportArg
  = Returned
      {| Travel.distance := Some (meters / 1000.0);
         Travel.transportType := Some (requestedTransport transportArg);
         Travel.emissionFactor :=
           match get TRAVEL_EMISSIONS (requestedTransport transportArg) with
           | Some factor =>
               if Qeq_bool factor 0
               then get TRAVEL_EMISSIONS DEFAULT_TRANSPORT
               else Some factor
           | None => get TRAVEL_EMISSIONS DEFAULT_TRANSPORT
           end |}.
Proof.
  intros _ Htrim Hgeo Hroute.
  assert (Hfactor :
            match get TRAVEL_EMISSIONS (requestedTransport transportArg) with
            | Some factor =>
                if Qeq_bool factor 0
                then get TRAVEL_EMISSIONS DEFAULT_TRANSPORT
                else Some factor
            | None => get TRAVEL_EMISSIONS DEFAULT_TRANSPORT
            end = travelFactor (requestedTransport transportArg)).
  { unfold travelFactor, orElse.
    destruct (get TRAVEL_EMISSIONS (requestedTransport transportArg))
      as [factor|]; [|reflexivity].
    cbn [truthyNum]. now destruct (Qeq_bool factor 0). }
  rewrite Hfactor. clear Hfactor.
  unfold getTravelDistanceKm. fold (requestedTransport transportArg).
  assert (Haddr : truthyStr (Some address) = true).
  { destruct address; [now destruct Htrim | reflexivity]. }
  assert (Htrimmed : truthyStr (Some (trim address)) = true).
  { destruct (trim address); [now destruct Htrim | reflexivity]. }
  rewrite Haddr. cbn [negb orb].
  unfold getCoordinatesFromAddress. rewrite Haddr, Htrimmed, Hgeo.
  cbn [negb orb bind try_catch]. rewrite Hroute. reflexivity.
Qed.

Lemma travel_full_resolution_witness :
  getTravelDistanceKm routeFound (Some "12 MG Road, Delhi")
    (Some {| Coords.lat := 28.7; Coords.lng := 77.1 |}) (Some "car")
  = Returned
      {| Travel.distance := Some (7500 / 1000.0);
         Travel.transportType := Some "car";
         Travel.emissionFactor := Some 0.18 |}.
Proof.
  assert (Hname : trim "12 MG Road, Delhi" <> EmptyString) by discriminate.
  exact (travel_full_resolution routeFound "12 MG Road, Delhi"
           {| Coords.lat := 28.7; Coords.lng := 77.1 |} (Some "car")
           (77.0687, 28.6343) [] 7500 eq_refl Hname eq_refl eq_refl).
Defined.

(** *** Packaging: more dishes never cost less *)

(** X7.  For a packaging type string that does not name a member of
    [Object.prototype], in the table or not, and dish counts that are not
    negative, the packaging emission of an order is a number, is not
    negative, and does not decrease when the number of dishes grows.  For a
    packaging type that names such a member it is [NaN]. *)
Theorem packaging_grows_with_dishes (packagingType : string) (n m : Z) :
  (0 <= n)%Z -> (n <= m)%Z ->
  (inherited packagingType = false ->
   exists charged_n charged_m : Q,
     packagingOfOrder n packagingType = Returned (Num charged_n)
     /\ packagingOfOrder m packagingType = Returned (Num charged_m)
     /\ 0 <= charged_n
     /\ charged_n <= charged_m)
  /\ (inherited packagingType = true ->
      packagingOfOrder n packagingType = Returned NaN).
Proof.
  intros Hn Hnm. split; [|apply packagingOfOrder_inherited]. intros Hown.
  assert (Hqn : 0 <= inject_Z n) by (change 0 with (inject_Z 0); now rewrite <- Zle_Qle).
  assert (Hqm : inject_Z n <= inject_Z m) by now rewrite <- Zle_Qle.
  destruct (has PACKAGING_EMISSIONS packagingType) eqn:Hhas.
  - destruct (packagingOfOrder_known n _ Hhas) as [-> _].
    destruct (packagingOfOrder_known m _ Hhas) as [-> _].
    revert Hhas.
    unfold packagingFormula, resolvedType, resolvedSize, unitFactor,
      escalatedSize, PACKAGING_EMISSIONS, DEFAULT_PACKAGING.type,
      DEFAULT_PACKAGING.size.
    table_cases packagingType; intros Hhas; try discriminate Hhas;
      destruct (Z.gtb_spec n 2); destruct (Z.gtb_spec m 2); try lia;
      cbn; eexists; eexists; (split; [reflexivity|]); (split; [reflexivity|]);
      split; nra.
  - rewrite !(packagingOfOrder_unknown _ _ Hhas Hown).
    eexists. eexists. split; [reflexivity|]. split; [reflexivity|].
    unfold PACKAGING_EMISSION_PER_DISH. split; nra.
Qed.

Lemma packaging_grows_with_dishes_witness :
  (exists charged_n charged_m : Q,
      packagingOfOrder 2 "glass" = Returned (Num charged_n)
      /\ packagingOfOrder 3 "glass" = Returned (Num charged_m)
      /\ 0 <= charged_n
      /\ charged_n <= charged_m)
  /\ packagingOfOrder 2 "constructor" = Returned NaN.
Proof.
  split.
  - apply (packaging_grows_with_dishes "glass" 2 3); [lia | lia | reflexivity].
  - apply (packaging_grows_with_dishes "constructor" 2 3);
      [lia | lia | reflexivity].
Defined.

(** *** Recipe lookup: storing and reading ingredients *)

Lemma get_set_same {V : Type} (obj : Obj V) (key : string) (v : V) :
  get (set obj key v) key = Some v.
Proof.
  induction obj as [|[k w] rest IH]; cbn [set get].
  - now rewrite String.eqb_refl.
  - destruct (String.eqb k key) eqn:E; cbn [get]; rewrite E; [reflexivity | exact IH].
Qed.

Lemma get_set_other {V : Type} (obj : Obj V) (key other : string) (v : V) :
  key <> other -> get (set obj key v) other = get obj other.
Proof.
  intros Hne. induction obj as [|[k w] rest IH]; cbn [set get].
  - destruct (String.eqb_spec key other); [contradiction | reflexivity].
  - destruct (String.eqb_spec k key) as [->|Hk]; cbn [get].
    + destruct (String.eqb_spec key other); [contradiction | reflexivity].
    + now rewrite IH.
Qed.

Lemma set_keys_NoDup {V : Type} (obj : Obj V) (key : string) (v : V) :
  NoDup (map fst obj) -> NoDup (map fst (set obj key v)).
Proof.
  induction obj as [|[k w] rest IH]; cbn [set map fst]; intros Hnd.
  - constructor; [intros [] | constructor].
  - destruct (String.eqb_spec k key) as [->|Hk]; [exact Hnd|].
    cbn [map fst]. inversion Hnd as [|? ? Hnotin Hrest]; subst.
    constructor; [|now apply IH].
    intros Hin. apply Hnotin. clear - Hin Hk.
    induction rest as [|[k' w'] rest IH]; cbn [set map fst] in *.
    + destruct Hin as [H | []]. now subst.
    + destruct (String.eqb_spec k' key) as [->|Hk']; [exact Hin|].
      cbn [map fst] in Hin. destruct Hin as [H | H]; [now left | right; now apply IH].
Qed.

Lemma collectIngredients_wellformed (items : list Item.t) (result : Obj Q) :
  NoDup (map fst result) ->
  exists collected : Obj Q,
    collectIngredients (map Some items) result = Returned collected
    /\ NoDup (map fst collected)
    /\ forall key : string,
         get collected key = lastAmount key items (get result key).
Proof.
  revert result. induction items as [|item rest IH]; intros result Hnd.
  - exists result. split; [reflexivity|]. split; [exact Hnd | reflexivity].
  - cbn [map collectIngredients]. fold (ingredientKey item).
    destruct (IH (set result (ingredientKey item) (Item.value item)))
      as (collected & Hc & Hnd' & Hget); [now apply set_keys_NoDup|].
    exists collected. split; [exact Hc|]. split; [exact Hnd'|].
    intros key. rewrite Hget. cbn [lastAmount]. f_equal.
    destruct (String.eqb_spec (ingredientKey item) key) as [<-|Hne].
    + apply get_set_same.
    + now apply get_set_other.
Qed.

(** X8.  When the recipe search finds a recipe and the ingredient service
    returns its items, each with a name and a metric amount that is a
    number, the lookup returns a map with one entry per key, where the key
    of an item is its normalised name: the entry of the normalization table
    for the lower-cased name when there is one, the text of the inherited
    member when the lower-cased name names a member of [Object.prototype],
    and the lower-cased name itself otherwise.  The entry holds the amount of
    the last item with that key, and the key of every item is in the map. *)
Theorem fetched_ingredients_are_the_last_amounts (api : Spoonacular.t)
    (dishName : string) (recipeId : Z) (others : list Z)
    (items : list Item.t) :
  Spoonacular.complexSearch api dishName = Returned (recipeId :: others) ->
  Spoonacular.ingredientWidget api recipeId = Returned (map Some items) ->
  exists ingredients : Obj Q,
    fetchIngredientsFromAPI api dishName = Returned ingredients
    /\ NoDup (map fst ingredients)
    /\ (forall key : string,
           get ingredients key = lastAmount key items None)
    /\ (forall item : Item.t,
           In item items -> has ingredients (ingredientKey item) = true).
Proof.
  intros Hsearch Hwidget. unfold fetchIngredientsFromAPI.
  rewrite Hsearch. cbn [bind]. rewrite Hwidget. cbn [bind].
  destruct (collectIngredients_wellformed items []) as (m & Hm & Hnd & Hget);
    [constructor|].
  rewrite Hm. cbn [try_catch]. exists m. split; [reflexivity|].
  split; [exact Hnd|]. split; [exact Hget|].
  intros item Hin. unfold has. rewrite Hget. cbn [get]. clear - Hin.
  generalize (@None Q) as found. induction items as [|i rest IH]; intros found.
  - destruct Hin.
  - cbn [lastAmount]. destruct Hin as [-> | Hin].
    + rewrite String.eqb_refl. clear. generalize (Item.value item) as v.
      induction rest as [|i rest IH]; intros v; cbn [lastAmount]; [reflexivity|].
      destruct (String.eqb _ _); apply IH.
    + now apply IH.
Qed.

Lemma fetched_ingredients_are_the_last_amounts_witness :
  exists ingredients : Obj Q,
    fetchIngredientsFromAPI
      (serving [{| Item.name := "Dal"; Item.value := 80 |};
                {| Item.name := "Onion"; Item.value := 20 |};
                {| Item.name := "lentils"; Item.value := 100 |}])
      "mystery stew"
    = Returned ingredients
    /\ get ingredients "lentils" = Some 100
    /\ get ingredients "onions" = Some 20
    /\ get ingredients "dal" = None.
Proof.
  destruct (fetched_ingredients_are_the_last_amounts
              (serving [{| Item.name := "Dal"; Item.value := 80 |};
                        {| Item.name := "Onion"; Item.value := 20 |};
                        {| Item.name := "lentils"; Item.value := 100 |}])
              "mystery stew" 716429%Z []
              [{| Item.name := "Dal"; Item.value := 80 |};
               {| Item.name := "Onion"; Item.value := 20 |};
               {| Item.name := "lentils"; Item.value := 100 |}]
              eq_refl eq_refl) as (m & Hm & _ & Hget & _).
  exists m. split; [exact Hm|]. rewrite !Hget. repeat split.
Defined.

(** *** Estimate: the order of the dish families *)

(** X9.  The keyword estimator: a name that mentions chicken or murgh gets the
    chicken recipe whatever else it mentions; an estimate that contains rice
    never contains chicken; every estimate contains oil; and no estimate
    lists an ingredient twice. *)
Theorem estimate_never_mixes_rice_and_chicken (dishName : string) :
  (includes (toLowerCase dishName) "chicken"
   || includes (toLowerCase dishName) "murgh" = true ->
   estimateDishIngredients dishName
   = [("chicken", 150); ("onions", 40); ("tomatoes", 60); ("oil", 15);
      ("spices", 10)])
  /\ (has (estimateDishIngredients dishName) "rice" = true ->
      has (estimateDishIngredients dishName) "chicken" = false)
  /\ has (estimateDishIngredients dishName) "oil" = true
  /\ NoDup (map fst (estimateDishIngredients dishName)).
Proof.
  unfold estimateDishIngredients.
  set (name := toLowerCase dishName).
  destruct (includes name "chicken" || includes name "murgh") eqn:Hchicken.
  { split; [reflexivity|]. split; [discriminate|]. split; [reflexivity|].
    repeat constructor; cbn; intuition discriminate. }
  split; [discriminate|].
  repeat match goal with
         | |- context [if ?b then _ else _] => destruct b
         end;
    (split; [first [discriminate | reflexivity]|]); (split; [reflexivity|]);
    repeat constructor; cbn; intuition discriminate.
Qed.

Lemma estimate_never_mixes_rice_and_chicken_witness :
  estimateDishIngredients "Chicken Biryani"
  = [("chicken", 150); ("onions", 40); ("tomatoes", 60); ("oil", 15);
     ("spices", 10)]
  /\ has (estimateDishIngredients "mutton pulao") "chicken" = false.
Proof.
  destruct (estimate_never_mixes_rice_and_chicken "Chicken Biryani")
    as (Hc & _).
  destruct (estimate_never_mixes_rice_and_chicken "mutton pulao")
    as (_ & Hr & _).
  split; [apply Hc; reflexivity | apply Hr; reflexivity].
Defined.

(** *** Aggregator: a structured travel input *)







(** *** Dish strings: formatting and parsing back *)

Lemma isWhiteSpace_lowerChar (c : ascii) :
  isWhiteSpace (lowerChar c) = isWhiteSpace c.
Proof.
  destruct c as [[] [] [] [] [] [] [] []]; reflexivity.
Qed.

Lemma isLineTerminator_lowerChar (c : ascii) :
  isLineTerminator (lowerChar c) = isLineTerminator c.
Proof.
  destruct c as [[] [] [] [] [] [] [] []]; reflexivity.
Qed.

Lemma lowerChar_digit (c : ascii) : isDigit c = true -> lowerChar c = c.
Proof.
  destruct c as [[] [] [] [] [] [] [] []]; intros H;
    try discriminate H; reflexivity.
Qed.

Lemma isDigit_not_space (c : ascii) : isDigit c = true -> isWhiteSpace c = false.
Proof.
  destruct c as [[] [] [] [] [] [] [] []]; intros H;
    try discriminate H; reflexivity.
Qed.

Lemma toLowerCase_digits (s : string) : allDigits s = true -> toLowerCase s = s.
Proof.
  induction s as [|c s IH]; simpl; intros H; [reflexivity|].
  apply andb_true_iff in H as [Hc Hs]. now rewrite (lowerChar_digit _ Hc), IH.
Qed.

Lemma trimStart_toLowerCase (s : string) :
  trimStart (toLowerCase s) = toLowerCase (trimStart s).
Proof.
  induction s as [|c s IH]; [reflexivity|].
  cbn [toLowerCase trimStart]. rewrite isWhiteSpace_lowerChar.
  destruct (isWhiteSpace c); [exact IH | reflexivity].
Qed.

Lemma trimEnd_toLowerCase (s : string) :
  trimEnd (toLowerCase s) = toLowerCase (trimEnd s).
Proof.
  induction s as [|c s IH]; [reflexivity|].
  cbn [toLowerCase trimEnd]. rewrite IH, isWhiteSpace_lowerChar.
  destruct (trimEnd s); cbn [toLowerCase]; [|reflexivity].
  now destruct (isWhiteSpace c).
Qed.

Lemma trim_toLowerCase (s : string) : trim (toLowerCase s) = toLowerCase (trim s).
Proof.
  unfold trim. now rewrite trimStart_toLowerCase, trimEnd_toLowerCase.
Qed.

Lemma trimEnd_append (s t : string) :
  trimEnd t <> EmptyString -> trimEnd (s ++ t) = s ++ trimEnd t.
Proof.
  intros Ht. induction s as [|c s IH]; [reflexivity|].
  cbn [append trimEnd]. rewrite IH.
  destruct (s ++ trimEnd t) eqn:E; [|reflexivity].
  destruct s; [now destruct Ht | discriminate E].
Qed.

Lemma trimStart_trimEnd (s : string) :
  trimStart (trimEnd s) = trimEnd (trimStart s).
Proof.
  induction s as [|c s IH]; [reflexivity|].
  cbn [trimEnd trimStart].
  destruct (isWhiteSpace c) eqn:Hc.
  - rewrite <- IH. destruct (trimEnd s); cbn [trimStart];
      rewrite ?Hc; reflexivity.
  - cbn [trimEnd]. destruct (trimEnd s); cbn [trimStart]; rewrite ?Hc;
      reflexivity.
Qed.

Lemma trimEnd_idempotent (s : string) : trimEnd (trimEnd s) = trimEnd s.
Proof.
  induction s as [|c s IH]; [reflexivity|].
  cbn [trimEnd]. destruct (trimEnd s) as [|c' r] eqn:E.
  - destruct (isWhiteSpace c) eqn:Hc; [reflexivity|].
    cbn [trimEnd]. now rewrite Hc.
  - cbn [trimEnd]. cbn [trimEnd] in IH. rewrite IH. reflexivity.
Qed.

Lemma trimEnd_of_trim (s : string) :
  trim s <> EmptyString -> trimEnd s <> EmptyString.
Proof.
  unfold trim. rewrite <- trimStart_trimEnd. intros H E. rewrite E in H.
  now apply H.
Qed.

Lemma oneLine_toLowerCase (s : string) : oneLine (toLowerCase s) = oneLine s.
Proof.
  induction s as [|c s IH]; [reflexivity|].
  cbn [toLowerCase oneLine]. now rewrite isLineTerminator_lowerChar, IH.
Qed.

Lemma oneLine_trimEnd (s : string) : oneLine s = true -> oneLine (trimEnd s) = true.
Proof.
  induction s as [|c s IH]; [reflexivity|].
  cbn [oneLine trimEnd]. intros H. apply andb_true_iff in H as [Hc Hs].
  specialize (IH Hs). destruct (trimEnd s).
  - destruct (isWhiteSpace c); [reflexivity|]. cbn [oneLine]. now rewrite Hc.
  - cbn [oneLine] in *. now rewrite Hc, IH.
Qed.

Lemma digitsOf_nonempty (n : Z) : (0 <= n)%Z -> digitsOf n <> EmptyString.
Proof.
  intros Hn E. pose proof (parseInt_digitsOf n Hn) as H. rewrite E in H.
  cbn in H. subst n. discriminate E.
Qed.

Lemma lineOf_formatted (item : Orders.SwiggyItem.t) :
  carried item ->
  lineOf (Orders.integerText (Orders.SwiggyItem.quantity item) ++ " x "
          ++ Orders.SwiggyItem.name item)
  = Some (lineOfItem item).
Proof.
  destruct item as [name q]. unfold carried, lineOfItem, lineOf.
  cbn [Orders.SwiggyItem.quantity Orders.SwiggyItem.name].
  intros ((Hq & _) & _ & Hline & Hblank).
  unfold Orders.integerText. destruct (Z.ltb_spec q 0) as [Hneg|_]; [lia|].
  pose proof (allDigits_uint (N.to_uint (Z.to_N q))) as Hdig.
  fold (digitsOf q) in Hdig.
  pose proof (digitsOf_nonempty q Hq) as Hne.
  rewrite !toLowerCase_append, (toLowerCase_digits _ Hdig).
  change (toLowerCase " x ") with " x ".
  assert (Hend : trimEnd (toLowerCase name) <> EmptyString).
  { rewrite trimEnd_toLowerCase. intros E.
    apply (trimEnd_of_trim _ Hblank).
    destruct (trimEnd name); [reflexivity | discriminate E]. }
  unfold trim at 1.
  assert (Hstart : trimStart (digitsOf q ++ " x " ++ toLowerCase name)
                   = digitsOf q ++ " x " ++ toLowerCase name).
  { destruct (digitsOf q) as [|c r]; [congruence|].
    cbn [append trimStart]. cbn [allDigits] in Hdig.
    apply andb_true_iff in Hdig as [Hc _].
    now rewrite (isDigit_not_space _ Hc). }
  rewrite Hstart, trimEnd_append.
  2:{ rewrite trimEnd_append by exact Hend.
      cbn [append]. discriminate. }
  rewrite trimEnd_append by exact Hend.
  rewrite parseItem_wellformed; [| exact Hne | exact Hdig | exact Hend |].
  - rewrite (parseInt_digitsOf q Hq). do 2 f_equal.
    unfold trim. now rewrite trimStart_trimEnd, trimEnd_idempotent.
  - apply oneLine_trimEnd. now rewrite oneLine_toLowerCase.
Qed.

Lemma concat_comma_space (clause : string) (clauses : list string) :
  String.concat ", " (clause :: clauses)
  = joinClauses (clause :: map (String " ") clauses).
Proof.
  revert clause. induction clauses as [|next rest IH]; intros clause;
    [reflexivity|].
  cbn [String.concat map joinClauses].
  cbn [String.concat map joinClauses] in IH.
  rewrite IH. clear IH.
  destruct rest; cbn [map]; reflexivity.
Qed.

Lemma commaFree_append (s t : string) :
  commaFree (s ++ t) = commaFree s && commaFree t.
Proof.
  induction s as [|c s IH]; simpl; [reflexivity|].
  now rewrite IH, andb_assoc.
Qed.

Lemma commaFree_digits (s : string) : allDigits s = true -> commaFree s = true.
Proof.
  induction s as [|c s IH]; simpl; intros H; [reflexivity|].
  apply andb_true_iff in H as [Hc Hs]. rewrite (IH Hs), andb_true_r.
  destruct c as [[] [] [] [] [] [] [] []]; try discriminate Hc; reflexivity.
Qed.

Lemma lineOf_leading_space (s : string) : lineOf (String " " s) = lineOf s.
Proof. reflexivity. Qed.

(** X12.  Round trip between the Swiggy route and the engine: the dish
    string the route formats from the items of an order is parsed by the
    engine into exactly those items, in order, with the same quantities and
    the lower-cased, trimmed names, provided each quantity is an integer
    from 0 to [MAX_SAFE_INTEGER] and each name is on one line, has no comma
    and is not blank. *)
Theorem formatted_dish_string_parses_back (items : list Orders.SwiggyItem.t) :
  Forall carried items ->
  parseDishes (Orders.formatDishString items) = map lineOfItem items.
Proof.
  intros Hall. unfold Orders.formatDishString.
  destruct items as [|item rest]; [reflexivity|].
  cbn [map]. rewrite concat_comma_space, parseDishes_validLines.
  - inversion Hall as [|? ? Hitem Hrest]; subst.
    cbn [validLines]. rewrite (lineOf_formatted _ Hitem). f_equal.
    clear Hall Hitem. induction Hrest as [|next more Hnext _ IH];
      [reflexivity|].
    cbn [map validLines]. rewrite lineOf_leading_space.
    now rewrite (lineOf_formatted _ Hnext), IH.
  - assert (Hfree : forall it : Orders.SwiggyItem.t,
               carried it ->
               commaFree (Orders.integerText (Orders.SwiggyItem.quantity it)
                          ++ " x " ++ Orders.SwiggyItem.name it) = true).
    { intros [name q] ((Hq & _) & Hc & _). cbn in Hq, Hc.
      cbn [Orders.SwiggyItem.quantity Orders.SwiggyItem.name].
      unfold Orders.integerText. destruct (Z.ltb_spec q 0); [lia|].
      rewrite !commaFree_append, Hc.
      rewrite (commaFree_digits (digitsOf q) (allDigits_uint _)). reflexivity. }
    inversion Hall as [|? ? Hitem Hrest]; subst.
    cbn [forallb]. rewrite (Hfree _ Hitem). cbn [andb].
    clear Hall Hitem. induction Hrest as [|next more Hnext _ IH];
      [reflexivity|].
    cbn [map forallb commaFree]. cbn [map] in IH.
    now rewrite (Hfree _ Hnext), IH.
Qed.

Lemma formatted_dish_string_parses_back_witness :
  parseDishes
    (Orders.formatDishString
       [{| Orders.SwiggyItem.name := "Butter Chicken";
           Orders.SwiggyItem.quantity := 2 |};
        {| Orders.SwiggyItem.name := "Naan ";
           Orders.SwiggyItem.quantity := 10 |}])
  = [(2%Z, "butter chicken"); (10%Z, "naan")].
Proof.
  apply (formatted_dish_string_parses_back
           [{| Orders.SwiggyItem.name := "Butter Chicken";
               Orders.SwiggyItem.quantity := 2 |};
            {| Orders.SwiggyItem.name := "Naan ";
               Orders.SwiggyItem.quantity := 10 |}]).
  repeat constructor; cbn; (lia || discriminate).
Defined.

(** *** Order routes: local emissions *)

Lemma emissionPerUnit_category (itemName : string) :
  Orders.emissionPerUnit (toLowerCase itemName)
  = categoryEmission (Orders.foodCategory itemName).
Proof.
  unfold Orders.emissionPerUnit, Orders.foodCategory.
  set (name := toLowerCase itemName).
  repeat match goal with
         | |- context [if ?b then _ else _] =>
             match b with
             | context [includes] => destruct b
             end
         end; reflexivity.
Qed.

Lemma emissionPerUnit_bounds (itemName : string) :
  0.5 <= Orders.emissionPerUnit itemName <= 4.
Proof.
  unfold Orders.emissionPerUnit.
  repeat match goal with
         | |- context [if ?b then _ else _] => destruct b
         end; split; discriminate.
Qed.

Lemma calculateLocalFoodEmission_from (foodItems : list FoodItem.t) (start : Q) :
  fold_left
    (fun totalEmission item =>
       let itemName := toLowerCase (FoodItem.name item) in
       let emission := Orders.emissionPerUnit itemName in
       totalEmission + emission * FoodItem.quantity item)
    foodItems start
  == start
     + fold_right
         (fun item total =>
            categoryEmission (Orders.foodCategory (FoodItem.name item))
            * FoodItem.quantity item + total)
         0 foodItems.
Proof.
  revert start. induction foodItems as [|item rest IH]; intros start;
    cbn [fold_left fold_right].
  - ring.
  - rewrite IH, emissionPerUnit_category. ring.
Qed.

(** X13.  The local food emission of the order routes is the sum over the items
    of quantity times the emission of the item's food category, the category
    being the one the import route stores, and for quantities that are not
    negative it lies between 0.5 and 4 times the total quantity. *)
Theorem local_food_emission_follows_the_category (foodItems : list FoodItem.t) :
  Orders.calculateLocalFoodEmission foodItems
  == fold_right
       (fun item total =>
          categoryEmission (Orders.foodCategory (FoodItem.name item))
          * FoodItem.quantity item + total)
       0 foodItems
  /\ (Forall (fun item => 0 <= FoodItem.quantity item) foodItems ->
      0.5 * totalQuantity foodItems
      <= Orders.calculateLocalFoodEmission foodItems
      /\ Orders.calculateLocalFoodEmission foodItems
         <= 4 * totalQuantity foodItems).
Proof.
  unfold Orders.calculateLocalFoodEmission.
  rewrite calculateLocalFoodEmission_from. split; [ring|].
  induction 1 as [|item rest Hq _ IH]; cbn [fold_right totalQuantity].
  - split; discriminate.
  - fold (totalQuantity rest). rewrite <- emissionPerUnit_category.
    pose proof (emissionPerUnit_bounds (toLowerCase (FoodItem.name item)))
      as [Hlo Hhi].
    destruct IH as [IHlo IHhi]. split; nra.
Qed.

Lemma local_food_emission_follows_the_category_witness :
  0.5 * totalQuantity [{| FoodItem.name := "Beef Burger"; FoodItem.quantity := 2 |}]
  <= Orders.calculateLocalFoodEmission
       [{| FoodItem.name := "Beef Burger"; FoodItem.quantity := 2 |}]
  /\ Orders.calculateLocalFoodEmission
       [{| FoodItem.name := "Beef Burger"; FoodItem.quantity := 2 |}]
     <= 4 * totalQuantity
              [{| FoodItem.name := "Beef Burger"; FoodItem.quantity := 2 |}].
Proof.
  destruct (local_food_emission_follows_the_category
              [{| FoodItem.name := "Beef Burger"; FoodItem.quantity := 2 |}])
    as [_ H].
  apply H. repeat constructor. discriminate.
Defined.

(** X14.  The packaging emission of the order routes does not decrease with the
    item count, and it is 0.1, 0.2 or 0.3 exactly when the packaging type the
    import route stores is small, medium or large. *)
Theorem order_packaging_steps (n m : Z) :
  (n <= m)%Z ->
  Orders.calculatePackagingEmission n <= Orders.calculatePackagingEmission m
  /\ (Orders.packagingLabel n = "small"
      <-> Orders.calculatePackagingEmission n == 0.1)
  /\ (Orders.packagingLabel n = "medium"
      <-> Orders.calculatePackagingEmission n == 0.2)
  /\ (Orders.packagingLabel n = "large"
      <-> Orders.calculatePackagingEmission n == 0.3).
Proof.
  intros Hnm. unfold Orders.calculatePackagingEmission, Orders.packagingLabel.
  destruct (Z.leb_spec n 2); destruct (Z.leb_spec n 4);
    destruct (Z.leb_spec m 2); destruct (Z.leb_spec m 4); try lia;
    repeat split; intros; (discriminate || reflexivity).
Qed.

Lemma order_packaging_steps_witness :
  Orders.calculatePackagingEmission 2 <= Orders.calculatePackagingEmission 5.
Proof.
  apply (order_packaging_steps 2 5). lia.
Defined.

(** *** Order routes: the emission data of a Swiggy order *)

Lemma calculateFoodEmission_fields (api : Spoonacular.t) (dishString : string)
    (km : Q) (result : Result.t) :
  dishString <> EmptyString ->
  calculateFoodEmission api (Some dishString) (Some (TravelNumber km)) None
  = Returned result ->
  exists food charged : Q,
    Result.food result = toFixed (Num food) 2
    /\ Result.packaging result = toFixed (Num charged) 2
    /\ Result.travel result = toFixed (Num (km * TRAVEL_EMISSION_PER_KM)) 2
    /\ Result.total result
       = toFixed (Num (food + charged + km * TRAVEL_EMISSION_PER_KM)) 2.
Proof.
  intros Hne. unfold calculateFoodEmission.
  destruct dishString as [|c s]; [congruence|]. cbn [truthyStr].
  destruct (processDishes _ _ _) as [st|] eqn:Hloop; cbn [bind];
    [|discriminate].
  destruct (processDishes_number _ _ _ Hloop) as [food Hfood].
  destruct (packagingOfOrder_number (Loop.totalDishCount st) "plastic" eq_refl)
    as [charged ->].
  cbn [bind travelOfOrder].
  destruct (ingredientShares _) as [shares totalShare].
  intros H. apply Returned_injective in H. subst result.
  exists food, charged. cbn [Result.food Result.packaging Result.travel
                             Result.total].
  rewrite Hfood. repeat split.
Qed.

Lemma formatDishString_nonempty (item : Orders.SwiggyItem.t)
    (rest : list Orders.SwiggyItem.t) :
  Orders.formatDishString (item :: rest) <> EmptyString.
Proof.
  unfold Orders.formatDishString. cbn [map String.concat].
  destruct (map _ rest);
    destruct (Orders.integerText (Orders.SwiggyItem.quantity item));
    discriminate.
Qed.

(** X15.  For a Swiggy order with at least one item the emission computation
    returns data whose food and packaging emissions are numbers, whose
    transport emission is the distance times 105 / 1000, which is the
    engine's per-kilometre factor, and whose total is the sum of the three.
    The transport emission is within 0.005 of the travel emission the engine
    prints, and the total within 0.015 of the engine's printed total. *)
Theorem swiggy_emission_data (api : Spoonacular.t)
    (item : Orders.SwiggyItem.t) (rest : list Orders.SwiggyItem.t)
    (distanceKm : option Q) :
  exists (data : EmissionData.t) (result : Result.t) (food charged : Q),
    Orders.swiggyEmissionData api (Some (item :: rest)) distanceKm
    = Returned data
    /\ calculateFoodEmission api
         (Some (Orders.formatDishString (item :: rest)))
         (Some (TravelNumber (travelled distanceKm))) None
       = Returned result
    /\ EmissionData.foodEmission data = Num food
    /\ EmissionData.packagingEmission data = Num charged
    /\ EmissionData.transportEmission data
       = Num (Orders.calculateTransportEmission (travelled distanceKm))
    /\ Orders.calculateTransportEmission (travelled distanceKm)
       == travelled distanceKm * TRAVEL_EMISSION_PER_KM
    /\ EmissionData.totalEmission data
       = Num (food + charged
              + Orders.calculateTransportEmission (travelled distanceKm))
    /\ within 0.005 (parseFloat (Result.travel result))
                    (EmissionData.transportEmission data)
    /\ within 0.015 (parseFloat (Result.total result))
                    (EmissionData.totalEmission data).
Proof.
  pose proof (formatDishString_nonempty item rest) as Hne.
  destruct (calculateFoodEmission_returns api
              (Some (Orders.formatDishString (item :: rest)))
              (Some (TravelNumber (travelled distanceKm))) None)
    as [result Hres].
  destruct (calculateFoodEmission_fields _ _ _ _ Hne Hres)
    as (F & P & Hfood & Hpack & Htravel & Htotal).
  destruct (parseFloat_toFixed F) as (f & Hf & Hfr).
  destruct (parseFloat_toFixed P) as (p & Hp & Hpr).
  destruct (parseFloat_toFixed (travelled distanceKm * TRAVEL_EMISSION_PER_KM))
    as (t & Ht & Htr).
  destruct (parseFloat_toFixed
              (F + P + travelled distanceKm * TRAVEL_EMISSION_PER_KM))
    as (s & Hs & Hsr).
  assert (Hsame : Orders.calculateTransportEmission (travelled distanceKm)
                  == travelled distanceKm * TRAVEL_EMISSION_PER_KM).
  { unfold Orders.calculateTransportEmission, TRAVEL_EMISSION_PER_KM. field. }
  eexists. exists result, f, p. split.
  { unfold Orders.swiggyEmissionData. fold (travelled distanceKm).
    assert (Htruthy : truthyStr (Some (Orders.formatDishString (item :: rest)))
                      = true).
    { destruct (Orders.formatDishString (item :: rest));
        [now destruct Hne | reflexivity]. }
    rewrite Htruthy, Hres. cbn [bind try_catch]. reflexivity. }
  split; [exact Hres|].
  cbn [EmissionData.foodEmission EmissionData.packagingEmission
       EmissionData.transportEmission EmissionData.totalEmission].
  rewrite Hfood, Hpack, Htravel, Htotal, Hf, Hp, Ht, Hs. cbn [add within].
  split; [reflexivity|]. split; [reflexivity|]. split; [reflexivity|].
  split; [exact Hsame|]. split; [reflexivity|].
  pose proof (roundedTo_close F) as HF.
  pose proof (roundedTo_close P) as HP.
  pose proof (roundedTo_close (travelled distanceKm * TRAVEL_EMISSION_PER_KM))
    as HT.
  pose proof (roundedTo_close
                (F + P + travelled distanceKm * TRAVEL_EMISSION_PER_KM)) as HS.
  rewrite <- Hfr in HF. rewrite <- Hpr in HP. rewrite <- Htr in HT.
  rewrite <- Hsr in HS. rewrite Hsame.
  set (te := travelled distanceKm * TRAVEL_EMISSION_PER_KM) in *.
  apply Qabs_Qle_condition in HF, HP, HT, HS.
  change (- 0.005) with (- (5 # 1000)) in *.
  change 0.005 with (5 # 1000) in *. change 0.015 with (15 # 1000).
  split; apply Qabs_Qle_condition; lra.
Qed.

(** *** Statistics: summary *)

Lemma summary_sums (orders : list StoredOrder.t) (start : Q * Q * Q * Q) :
  let '(total0, transport0, packaging0, food0) := start in
  let '(total, transport, packaging, food) :=
    fold_left
      (fun sums order =>
         let '(total, transport, packaging, food) := sums in
         match StoredOrder.emissionData order with
         | Some data =>
             (total + Stats.orZero (StoredEmission.totalEmission data),
              transport + Stats.orZero (StoredEmission.transportEmission data),
              packaging + Stats.orZero (StoredEmission.packagingEmission data),
              food + Stats.orZero (StoredEmission.foodEmission data))
         | None => sums
         end)
      orders start in
  total == total0 + sumOver StoredEmission.totalEmission orders
  /\ transport == transport0 + sumOver StoredEmission.transportEmission orders
  /\ packaging == packaging0 + sumOver StoredEmission.packagingEmission orders
  /\ food == food0 + sumOver StoredEmission.foodEmission orders.
Proof.
  revert start. induction orders as [|order rest IH];
    intros [[[total0 transport0] packaging0] food0].
  - cbn. repeat split; ring.
  - cbn [fold_left].
    destruct (StoredOrder.emissionData order) as [data|] eqn:Hdata.
    + match goal with
      | |- context [fold_left ?f rest ?s] => specialize (IH s)
      end.
      cbv beta iota in IH.
      destruct (fold_left _ rest _) as [[[total transport] packaging] food].
      destruct IH as (H1 & H2 & H3 & H4).
      unfold sumOver. cbn [fold_right]. unfold emissionOfOrder at 1 3 5 7.
      rewrite Hdata. fold (sumOver StoredEmission.totalEmission rest).
      fold (sumOver StoredEmission.transportEmission rest).
      fold (sumOver StoredEmission.packagingEmission rest).
      fold (sumOver StoredEmission.foodEmission rest).
      rewrite H1, H2, H3, H4. repeat split; ring.
    + specialize (IH (total0, transport0, packaging0, food0)).
      cbv beta iota in IH.
      destruct (fold_left _ rest _) as [[[total transport] packaging] food].
      destruct IH as (H1 & H2 & H3 & H4).
      unfold sumOver. cbn [fold_right]. unfold emissionOfOrder at 1 3 5 7.
      rewrite Hdata. fold (sumOver StoredEmission.totalEmission rest).
      fold (sumOver StoredEmission.transportEmission rest).
      fold (sumOver StoredEmission.packagingEmission rest).
      fold (sumOver StoredEmission.foodEmission rest).
      rewrite H1, H2, H3, H4. repeat split; ring.
Qed.

Lemma balanced_sums (orders : list StoredOrder.t) :
  Forall balanced orders ->
  sumOver StoredEmission.totalEmission orders
  == sumOver StoredEmission.transportEmission orders
     + sumOver StoredEmission.packagingEmission orders
     + sumOver StoredEmission.foodEmission orders.
Proof.
  induction 1 as [|order rest Hb _ IH]; unfold sumOver; cbn [fold_right].
  - ring.
  - fold (sumOver StoredEmission.totalEmission rest).
    fold (sumOver StoredEmission.transportEmission rest).
    fold (sumOver StoredEmission.packagingEmission rest).
    fold (sumOver StoredEmission.foodEmission rest).
    unfold balanced in Hb. rewrite Hb, IH. ring.
Qed.

(** X16.  The summary route: each of the four totals is the sum over the orders of
    the stored field, missing data and missing fields counting as zero; the
    order count is the number of orders; the average times the number of
    orders is the total; the three percentages add up to 100 when the total
    is positive and every order's total is the sum of its parts; and all
    three are 0 when the total is not positive. *)
Theorem summary_adds_up (orders : list StoredOrder.t) :
  let s := Stats.summary orders in
  Summary.totalEmission s == sumOver StoredEmission.totalEmission orders
  /\ Summary.transportEmission s
     == sumOver StoredEmission.transportEmission orders
  /\ Summary.packagingEmission s
     == sumOver StoredEmission.packagingEmission orders
  /\ Summary.foodEmission s == sumOver StoredEmission.foodEmission orders
  /\ Summary.orderCount s = List.length orders
  /\ (orders <> [] ->
      Summary.averageEmissionPerOrder s * inject_Z (Z.of_nat (List.length orders))
      == Summary.totalEmission s)
  /\ (0 < Summary.totalEmission s ->
      Forall balanced orders ->
      Summary.transportPercentage s + Summary.packagingPercentage s
      + Summary.foodPercentage s == 100)
  /\ (Summary.totalEmission s <= 0 ->
      Summary.transportPercentage s = 0
      /\ Summary.packagingPercentage s = 0
      /\ Summary.foodPercentage s = 0).
Proof.
  unfold Stats.summary.
  pose proof (summary_sums orders (0, 0, 0, 0)) as Hsums. cbv beta iota in Hsums.
  destruct (fold_left _ orders _) as [[[total transport] packaging] food].
  destruct Hsums as (H1 & H2 & H3 & H4).
  cbv zeta.
  cbn [Summary.totalEmission Summary.transportEmission
       Summary.packagingEmission Summary.foodEmission Summary.orderCount
       Summary.averageEmissionPerOrder Summary.transportPercentage
       Summary.packagingPercentage Summary.foodPercentage].
  split; [rewrite H1; ring|]. split; [rewrite H2; ring|].
  split; [rewrite H3; ring|]. split; [rewrite H4; ring|].
  split; [reflexivity|]. split; [|split].
  - intros Hne. destruct orders as [|order rest]; [congruence|].
    cbn [List.length Nat.ltb Nat.leb].
    assert (Hpos : ~ inject_Z (Z.of_nat (S (List.length rest))) == 0).
    { change 0 with (inject_Z 0). rewrite inject_Z_injective. lia. }
    now field.
  - intros Hpos Hbal.
    assert (Hle : Qle_bool total 0 = false).
    { destruct (Qle_bool total 0) eqn:E; [|reflexivity].
      apply Qle_bool_iff in E. lra. }
    rewrite Hle. cbn [negb].
    assert (Htotal : total == transport + packaging + food).
    { rewrite H1, H2, H3, H4, (balanced_sums _ Hbal). ring. }
    assert (Hnz : ~ total == 0) by lra.
    setoid_replace (transport / total * 100 + packaging / total * 100
                    + food / total * 100)
      with ((transport + packaging + food) / total * 100) by now field.
    rewrite <- Htotal. now field.
  - intros Hle. apply Qle_bool_iff in Hle. rewrite Hle. cbn [negb].
    repeat split.
Qed.

Lemma summary_adds_up_witness :
  let s := Stats.summary [sampleOrder "Zomato" 3 1 0.5 1.5;
                          sampleOrder "Swiggy" 1 0.5 0.25 0.25] in
  Summary.averageEmissionPerOrder s * inject_Z 2 == Summary.totalEmission s
  /\ Summary.transportPercentage s + Summary.packagingPercentage s
     + Summary.foodPercentage s == 100.
Proof.
  destruct (summary_adds_up [sampleOrder "Zomato" 3 1 0.5 1.5;
                             sampleOrder "Swiggy" 1 0.5 0.25 0.25])
    as (_ & _ & _ & _ & _ & Havg & Hpct & _).
  split.
  - apply Havg. discriminate.
  - apply Hpct; [reflexivity|]. repeat constructor.
Defined.

(** *** Statistics: platform comparison *)

Lemma sumOver_cons (read : StoredEmission.t -> option Q)
    (order : StoredOrder.t) (rest : list StoredOrder.t) :
  sumOver read (order :: rest) = emissionOfOrder read order + sumOver read rest.
Proof. reflexivity. Qed.

Lemma sumOver_app (read : StoredEmission.t -> option Q)
    (a b : list StoredOrder.t) :
  sumOver read (a ++ b) == sumOver read a + sumOver read b.
Proof.
  induction a as [|order rest IH]; cbn [app].
  - unfold sumOver at 2. cbn [fold_right]. ring.
  - rewrite !sumOver_cons, IH. ring.
Qed.

Lemma ordersOf_snoc (platform : string) (processed : list StoredOrder.t)
    (order : StoredOrder.t) :
  ordersOf platform (processed ++ [order])
  = (ordersOf platform processed
     ++ if String.eqb (StoredOrder.platform order) platform then [order] else [])%list.
Proof.
  unfold ordersOf. rewrite filter_app. cbn [filter].
  now destruct (String.eqb _ _).
Qed.

Lemma countOrder_invariant (platformStats : Obj PlatformStat.t)
    (processed : list StoredOrder.t) (order : StoredOrder.t) :
  platformInvariant platformStats processed ->
  exists platformStats' : Obj PlatformStat.t,
    Stats.countOrder platformStats order = Returned platformStats'
    /\ platformInvariant platformStats' (processed ++ [order]).
Proof.
  intros [Hnd Hinv]. unfold Stats.countOrder.
  set (platform := StoredOrder.platform order).
  set (zero := {| PlatformStat.totalEmission := 0;
                  PlatformStat.orderCount := 0;
                  PlatformStat.averageEmission := 0 |}).
  set (stats1 := if has platformStats platform then platformStats
                 else set platformStats platform zero).
  assert (H1 : NoDup (map fst stats1)
               /\ (forall other, other <> platform ->
                                 get stats1 other = get platformStats other)
               /\ exists stat,
                    get stats1 platform = Some stat
                    /\ PlatformStat.orderCount stat
                       = Z.of_nat (List.length (ordersOf platform processed))
                    /\ PlatformStat.totalEmission stat
                       == sumOver StoredEmission.totalEmission
                            (ordersOf platform processed)).
  { subst stats1. unfold has. specialize (Hinv platform).
    destruct (get platformStats platform) as [stat|] eqn:Hget.
    - split; [exact Hnd|]. split; [reflexivity|].
      exists stat. split; [exact Hget|]. tauto.
    - split; [now apply set_keys_NoDup|].
      split; [intros other Hne; apply get_set_other; congruence|].
      exists zero. split; [apply get_set_same|]. rewrite Hinv.
      split; reflexivity. }
  clearbody stats1. destruct H1 as (Hnd1 & Hother1 & stat1 & Hget1 & Hc1 & Ht1).
  set (added := match StoredOrder.emissionData order with
                | Some data => Stats.orZero (StoredEmission.totalEmission data)
                | None => 0
                end).
  assert (H2 : exists stats2 stat2,
             match StoredOrder.emissionData order with
             | Some data =>
                 match get stats1 platform with
                 | Some stat =>
                     Returned
                       (set stats1 platform
                          {| PlatformStat.totalEmission :=
                               PlatformStat.totalEmission stat
                               + Stats.orZero (StoredEmission.totalEmission data);
                             PlatformStat.orderCount := PlatformStat.orderCount stat;
                             PlatformStat.averageEmission :=
                               PlatformStat.averageEmission stat |})
                 | None => Thrown
                 end
             | None => Returned stats1
             end = Returned stats2
             /\ NoDup (map fst stats2)
             /\ (forall other, other <> platform ->
                               get stats2 other = get platformStats other)
             /\ get stats2 platform = Some stat2
             /\ PlatformStat.orderCount stat2
                = Z.of_nat (List.length (ordersOf platform processed))
             /\ PlatformStat.totalEmission stat2
                == sumOver StoredEmission.totalEmission
                     (ordersOf platform processed) + added).
  { subst added. destruct (StoredOrder.emissionData order) as [data|].
    - rewrite Hget1. eexists. eexists. split; [reflexivity|].
      split; [now apply set_keys_NoDup|].
      split; [intros other Hne; rewrite get_set_other by congruence;
              now apply Hother1|].
      split; [apply get_set_same|].
      cbn [PlatformStat.orderCount PlatformStat.totalEmission].
      split; [exact Hc1 | now rewrite Ht1].
    - exists stats1, stat1. split; [reflexivity|]. split; [exact Hnd1|].
      split; [exact Hother1|]. split; [exact Hget1|].
      split; [exact Hc1 | rewrite Ht1; ring]. }
  destruct H2 as (stats2 & stat2 & -> & Hnd2 & Hother2 & Hget2 & Hc2 & Ht2).
  cbn [bind]. rewrite Hget2. eexists. split; [reflexivity|].
  split; [now apply set_keys_NoDup|].
  intros p. rewrite ordersOf_snoc. fold platform.
  destruct (String.eqb_spec platform p) as [<-|Hne].
  - rewrite get_set_same.
    cbn [PlatformStat.orderCount PlatformStat.totalEmission].
    split; [destruct (ordersOf platform processed); discriminate|].
    split.
    + rewrite length_app, Hc2. cbn [List.length]. lia.
    + rewrite sumOver_app, Ht2, sumOver_cons.
      change (sumOver StoredEmission.totalEmission []) with 0.
      unfold emissionOfOrder. subst added.
      destruct (StoredOrder.emissionData order); ring.
  - rewrite get_set_other by exact Hne. rewrite (Hother2 p) by congruence.
    rewrite app_nil_r. apply Hinv.
Qed.

Lemma countOrders_invariant (orders processed : list StoredOrder.t)
    (platformStats : Obj PlatformStat.t) :
  platformInvariant platformStats processed ->
  exists platformStats' : Obj PlatformStat.t,
    Stats.countOrders platformStats orders = Returned platformStats'
    /\ platformInvariant platformStats' (processed ++ orders).
Proof.
  revert processed platformStats.
  induction orders as [|order rest IH]; intros processed platformStats Hinv.
  - exists platformStats. rewrite app_nil_r. now split.
  - cbn [Stats.countOrders].
    destruct (countOrder_invariant _ _ order Hinv) as (stats1 & -> & Hinv1).
    cbn [bind]. destruct (IH _ _ Hinv1) as (stats2 & Hres & Hinv2).
    exists stats2. split; [exact Hres|].
    now rewrite <- app_assoc in Hinv2.
Qed.

Lemma get_map_values {V W : Type} (f : V -> W) (obj : Obj V) (key : string) :
  get (map (fun entry => (fst entry, f (snd entry))) obj) key
  = option_map f (get obj key).
Proof.
  induction obj as [|[k v] rest IH]; [reflexivity|].
  cbn [map get fst snd]. destruct (String.eqb k key); [reflexivity | exact IH].
Qed.

(** X17.  The platform comparison always returns a table with one entry per
    platform that occurs among the orders and no other entry.  The entry of a
    platform counts its orders, sums their stored totals (missing ones as
    zero), and its average times its count is its total. *)
Theorem platform_comparison_counts_every_order (orders : list StoredOrder.t) :
  exists platformStats : Obj PlatformStat.t,
    Stats.platformComparison orders = Returned platformStats
    /\ NoDup (map fst platformStats)
    /\ forall platform : string,
         match get platformStats platform with
         | None => ordersOf platform orders = []
         | Some stat =>
             (1 <= PlatformStat.orderCount stat)%Z
             /\ PlatformStat.orderCount stat
                = Z.of_nat (List.length (ordersOf platform orders))
             /\ PlatformStat.totalEmission stat
                == sumOver StoredEmission.totalEmission (ordersOf platform orders)
             /\ PlatformStat.averageEmission stat
                * inject_Z (PlatformStat.orderCount stat)
                == PlatformStat.totalEmission stat
         end.
Proof.
  unfold Stats.platformComparison.
  destruct (countOrders_invariant orders [] []) as (stats & -> & Hnd & Hinv).
  { split; [constructor | reflexivity]. }
  cbn [bind app] in *. eexists. split; [reflexivity|]. split.
  - rewrite map_map. cbn [fst]. exact Hnd.
  - intros platform. rewrite get_map_values. specialize (Hinv platform).
    destruct (get stats platform) as [stat|]; cbn [option_map]; [|exact Hinv].
    destruct Hinv as (Hne & Hc & Ht).
    cbn [Stats.withAverage PlatformStat.orderCount PlatformStat.totalEmission
         PlatformStat.averageEmission].
    assert (Hpos : (1 <= PlatformStat.orderCount stat)%Z).
    { rewrite Hc. destruct (ordersOf platform orders); [congruence|].
      cbn [List.length]. lia. }
    split; [exact Hpos|]. split; [exact Hc|]. split; [exact Ht|].
    assert (~ inject_Z (PlatformStat.orderCount stat) == 0).
    { change 0 with (inject_Z 0). rewrite inject_Z_injective. lia. }
    now field.
Qed.

(** *** Statistics: suggestions *)

Lemma percentage_below_half (part whole : Z) :
  (0 < whole)%Z ->
  negb (Qle_bool 50 (inject_Z part / inject_Z whole * 100))
  = (2 * part <? whole)%Z.
Proof.
  intros Hw.
  assert (Hq : 0 < inject_Z whole).
  { change 0 with (inject_Z 0). now rewrite <- Zlt_Qlt. }
  destruct (Z.ltb_spec (2 * part) whole) as [Hlt | Hge].
  - apply negb_true_iff. destruct (Qle_bool _ _) eqn:E; [|reflexivity].
    apply Qle_bool_iff in E. exfalso.
    assert (H : inject_Z (2 * part) < inject_Z whole) by now rewrite <- Zlt_Qlt.
    rewrite inject_Z_mult in H. change (inject_Z 2) with 2 in H.
    apply (Qmult_le_r _ _ _ Hq) in E.
    assert (Hsimp : inject_Z part / inject_Z whole * 100 * inject_Z whole
                    == 100 * inject_Z part) by (field; lra).
    rewrite Hsimp in E. lra.
  - apply negb_false_iff, Qle_bool_iff.
    assert (H : inject_Z whole <= inject_Z (2 * part)) by now rewrite <- Zle_Qle.
    rewrite inject_Z_mult in H. change (inject_Z 2) with 2 in H.
    apply (Qmult_le_r _ _ _ Hq).
    assert (Hsimp : inject_Z part / inject_Z whole * 100 * inject_Z whole
                    == 100 * inject_Z part) by (field; lra).
    rewrite Hsimp. lra.
Qed.

Lemma above_half (part whole : Z) :
  negb (Qle_bool (inject_Z part) (inject_Z whole / 2)) = (whole <? 2 * part)%Z.
Proof.
  destruct (Z.ltb_spec whole (2 * part)) as [Hlt | Hge].
  - apply negb_true_iff. destruct (Qle_bool _ _) eqn:E; [|reflexivity].
    apply Qle_bool_iff in E. exfalso.
    assert (H : inject_Z whole < inject_Z (2 * part)) by now rewrite <- Zlt_Qlt.
    rewrite inject_Z_mult in H. change (inject_Z 2) with 2 in H.
    unfold Qdiv in E. change (/ 2) with (1 # 2) in E. lra.
  - apply negb_false_iff, Qle_bool_iff.
    assert (H : inject_Z (2 * part) <= inject_Z whole) by now rewrite <- Zle_Qle.
    rewrite inject_Z_mult in H. change (inject_Z 2) with 2 in H.
    unfold Qdiv. change (/ 2) with (1 # 2). lra.
Qed.

(** X18.  The suggestions route never returns an empty list.  Without orders it
    returns the invitation to start tracking.  Otherwise it returns, in this
    order, the food suggestion when fewer than half of the orders are
    vegetarian, the distance suggestion when more than half are delivered
    over more than 2 km, and the packaging suggestion when more than half
    have more than four items; when none applies it returns the general
    praise alone. *)
Theorem suggestions_by_majority (orders : list StoredOrder.t) :
  Suggestions.suggestions orders <> []
  /\ (orders = [] ->
      Suggestions.suggestions orders = [Suggestions.startTracking])
  /\ (orders <> [] ->
      let n := Z.of_nat (List.length orders) in
      let food :=
        if (2 * howMany Suggestions.isVegetarian orders <? n)%Z
        then [Suggestions.moreVegetarian] else [] in
      let distance :=
        if (n <? 2 * howMany Suggestions.isLongDistance orders)%Z
        then [Suggestions.closerRestaurants] else [] in
      let packaging :=
        if (n <? 2 * howMany Suggestions.isLarge orders)%Z
        then [Suggestions.fewerItems] else [] in
      Suggestions.suggestions orders
      = match (food ++ distance ++ packaging)%list with
        | [] => [Suggestions.greatJob]
        | specific => specific
        end).
Proof.
  assert (Hmain : orders <> [] ->
      let n := Z.of_nat (List.length orders) in
      let food :=
        if (2 * howMany Suggestions.isVegetarian orders <? n)%Z
        then [Suggestions.moreVegetarian] else [] in
      let distance :=
        if (n <? 2 * howMany Suggestions.isLongDistance orders)%Z
        then [Suggestions.closerRestaurants] else [] in
      let packaging :=
        if (n <? 2 * howMany Suggestions.isLarge orders)%Z
        then [Suggestions.fewerItems] else [] in
      Suggestions.suggestions orders
      = match (food ++ distance ++ packaging)%list with
        | [] => [Suggestions.greatJob]
        | specific => specific
        end).
  { intros Hne. destruct orders as [|order rest]; [congruence|].
    cbv zeta. unfold Suggestions.suggestions, Suggestions.size, howMany.
    set (orders := order :: rest).
    rewrite percentage_below_half by (subst orders; cbn [List.length]; lia).
    rewrite !above_half.
    destruct (_ <? _)%Z; destruct (_ <? _)%Z; destruct (_ <? _)%Z; reflexivity. }
  split; [|split; [intros ->; reflexivity | exact Hmain]].
  destruct orders as [|order rest]; [discriminate|].
  rewrite Hmain by discriminate. cbv zeta.
  destruct (_ <? _)%Z; destruct (_ <? _)%Z; destruct (_ <? _)%Z; discriminate.
Qed.

Lemma suggestions_by_majority_witness :
  Suggestions.suggestions [sampleOrder "Zomato" 3 1 0.5 1.5]
  = [Suggestions.closerRestaurants]
  /\ Suggestions.suggestions [] = [Suggestions.startTracking].
Proof.
  destruct (suggestions_by_majority [sampleOrder "Zomato" 3 1 0.5 1.5])
    as (_ & _ & H).
  destruct (suggestions_by_majority []) as (_ & H0 & _).
  split; [apply H; discriminate | apply H0; reflexivity].
Defined.

(** *** Recommendation cache *)

Lemma delete_keys {V : Type} (obj : Obj V) (key other : string) :
  In other (map fst (delete obj key)) -> In other (map fst obj).
Proof.
  induction obj as [|[k w] rest IH]; cbn [delete map fst]; [tauto|].
  destruct (String.eqb k key); cbn [map fst In]; tauto.
Qed.

Lemma delete_isMap {V : Type} (obj : Obj V) (key : string) :
  isMap obj -> isMap (delete obj key).
Proof.
  unfold isMap. induction obj as [|[k w] rest IH]; cbn [delete map fst];
    intros Hnd; [exact Hnd|].
  inversion Hnd as [|? ? Hnotin Hrest]; subst.
  destruct (String.eqb k key); [exact Hrest|].
  cbn [map fst]. constructor; [|now apply IH].
  intros Hin. apply Hnotin. now apply delete_keys in Hin.
Qed.

Lemma get_absent {V : Type} (obj : Obj V) (key : string) :
  ~ In key (map fst obj) -> get obj key = None.
Proof.
  induction obj as [|[k w] rest IH]; cbn [get map fst In]; intros Hnotin.
  - reflexivity.
  - destruct (String.eqb_spec k key) as [->|Hne]; [tauto|]. apply IH. tauto.
Qed.

Lemma get_delete_same {V : Type} (obj : Obj V) (key : string) :
  isMap obj -> get (delete obj key) key = None.
Proof.
  unfold isMap. induction obj as [|[k w] rest IH]; cbn [delete map fst];
    intros Hnd; [reflexivity|].
  inversion Hnd as [|? ? Hnotin Hrest]; subst.
  destruct (String.eqb_spec k key) as [->|Hne].
  - now apply get_absent.
  - cbn [get]. destruct (String.eqb_spec k key); [contradiction|]. now apply IH.
Qed.

Lemma get_delete_other {V : Type} (obj : Obj V) (key other : string) :
  key <> other -> get (delete obj key) other = get obj other.
Proof.
  intros Hne. induction obj as [|[k w] rest IH]; cbn [delete get]; [reflexivity|].
  destruct (String.eqb_spec k key) as [->|Hk]; cbn [get].
  - destruct (String.eqb_spec key other); [contradiction | reflexivity].
  - now rewrite IH.
Qed.

Lemma filter_isMap {V : Type} (keep : string * V -> bool) (obj : Obj V) :
  isMap obj -> isMap (filter keep obj).
Proof.
  unfold isMap. induction obj as [|[k w] rest IH]; cbn [filter map fst];
    intros Hnd; [exact Hnd|].
  inversion Hnd as [|? ? Hnotin Hrest]; subst.
  destruct (keep (k, w)); [|now apply IH].
  cbn [map fst]. constructor; [|now apply IH].
  intros Hin. apply Hnotin. apply in_map_iff in Hin as ([k' w'] & Hk & Hin).
  apply filter_In in Hin as [Hin _]. apply in_map_iff. now exists (k', w').
Qed.

Lemma get_filter {V : Type} (keep : V -> bool) (obj : Obj V) (key : string) :
  isMap obj ->
  get (filter (fun '(k, entry) => keep entry) obj) key
  = match get obj key with
    | Some entry => if keep entry then Some entry else None
    | None => None
    end.
Proof.
  unfold isMap. induction obj as [|[k w] rest IH]; cbn [filter get map fst];
    intros Hnd; [reflexivity|].
  inversion Hnd as [|? ? Hnotin Hrest]; subst.
  destruct (String.eqb_spec k key) as [->|Hne].
  - destruct (keep w) eqn:E.
    + cbn [get]. now rewrite String.eqb_refl.
    + apply get_absent. intros Hin. apply Hnotin.
      apply in_map_iff in Hin as ([k' w'] & Hk & Hin).
      apply filter_In in Hin as [Hin _]. apply in_map_iff. now exists (k', w').
  - destruct (keep w).
    + cbn [get]. destruct (String.eqb_spec k key); [contradiction|]. now apply IH.
    + now apply IH.
Qed.

(** X19.  Order recommendations stored in the memory cache are returned unchanged
    by a lookup of the same order made at most 15 minutes after the store,
    and the cache is left as it was.  A later lookup returns nothing and
    evicts the entry, so that every further lookup also returns nothing.
    Storing for one order changes no answer for another order, and the cache
    keeps holding each key once. *)
Theorem order_cache_round_trip {R : Type} (cache : MemoryCache.t R)
    (orderId : string) (recommendations : R) (stored read : Z) :
  cacheInvariant cache ->
  let filled :=
    MemoryCache.storeOrderRecommendation cache stored orderId recommendations in
  cacheInvariant filled
  /\ ((read - stored <= MemoryCache.CACHE_TTL)%Z ->
      MemoryCache.getOrderRecommendation filled read orderId
      = (Some recommendations, filled))
  /\ ((MemoryCache.CACHE_TTL < read - stored)%Z ->
      fst (MemoryCache.getOrderRecommendation filled read orderId) = None
      /\ cacheInvariant
           (snd (MemoryCache.getOrderRecommendation filled read orderId))
      /\ forall again : Z,
           fst (MemoryCache.getOrderRecommendation
                  (snd (MemoryCache.getOrderRecommendation filled read orderId))
                  again orderId)
           = None)
  /\ (forall (other : string) (now : Z),
        other <> orderId ->
        fst (MemoryCache.getOrderRecommendation filled now other)
        = fst (MemoryCache.getOrderRecommendation cache now other)).
Proof.
  intros [Ho Hu]. cbv zeta.
  assert (Hfilled : cacheInvariant
            (MemoryCache.storeOrderRecommendation cache stored orderId
               recommendations)).
  { split; [apply set_keys_NoDup, Ho | exact Hu]. }
  split; [exact Hfilled|]. split; [|split].
  - intros Hfresh. unfold MemoryCache.getOrderRecommendation.
    cbn [MemoryCache.storeOrderRecommendation MemoryCache.orderRecommendations].
    rewrite get_set_same. cbn [OrderEntry.timestamp OrderEntry.recommendations].
    destruct (Z.ltb_spec MemoryCache.CACHE_TTL (read - stored)); [lia | reflexivity].
  - intros Hold.
    assert (Hanswer :
      MemoryCache.getOrderRecommendation
        (MemoryCache.storeOrderRecommendation cache stored orderId
           recommendations) read orderId
      = (None,
         {| MemoryCache.orderRecommendations :=
              delete
                (set (MemoryCache.orderRecommendations cache) orderId
                   {| OrderEntry.recommendations := recommendations;
                      OrderEntry.timestamp := stored |}) orderId;
            MemoryCache.userOverallRecommendations :=
              MemoryCache.userOverallRecommendations cache |})).
    { unfold MemoryCache.getOrderRecommendation.
      cbn [MemoryCache.storeOrderRecommendation
           MemoryCache.orderRecommendations
           MemoryCache.userOverallRecommendations].
      rewrite get_set_same. cbn [OrderEntry.timestamp].
      destruct (Z.ltb_spec MemoryCache.CACHE_TTL (read - stored)); [reflexivity | lia]. }
    rewrite Hanswer. cbn [fst snd]. split; [reflexivity|]. split.
    + split; cbn [MemoryCache.orderRecommendations
                  MemoryCache.userOverallRecommendations];
        [apply delete_isMap, set_keys_NoDup, Ho | exact Hu].
    + intros again. unfold MemoryCache.getOrderRecommendation.
      cbn [MemoryCache.orderRecommendations].
      rewrite get_delete_same by apply set_keys_NoDup, Ho. reflexivity.
  - intros other now Hne. unfold MemoryCache.getOrderRecommendation.
    cbn [MemoryCache.storeOrderRecommendation MemoryCache.orderRecommendations].
    rewrite get_set_other by congruence.
    destruct (get _ other) as [cached|]; [|reflexivity].
    destruct (_ <? _)%Z; reflexivity.
Qed.

Lemma order_cache_round_trip_witness :
  cacheInvariant (MemoryCache.empty string)
  /\ MemoryCache.getOrderRecommendation
       (MemoryCache.storeOrderRecommendation (MemoryCache.empty string) 1000
          "order-1" "Share one delivery")
       901000 "order-1"
     = (Some "Share one delivery",
        MemoryCache.storeOrderRecommendation (MemoryCache.empty string) 1000
          "order-1" "Share one delivery")
  /\ fst (MemoryCache.getOrderRecommendation
            (MemoryCache.storeOrderRecommendation (MemoryCache.empty string)
               1000 "order-1" "Share one delivery")
            901001 "order-1")
     = None.
Proof.
  assert (Hinv : cacheInvariant (MemoryCache.empty string))
    by (split; constructor).
  destruct (order_cache_round_trip (MemoryCache.empty string) "order-1"
              "Share one delivery" 1000 901000 Hinv) as (_ & Hfresh & _ & _).
  destruct (order_cache_round_trip (MemoryCache.empty string) "order-1"
              "Share one delivery" 1000 901001 Hinv) as (_ & _ & Hold & _).
  split; [exact Hinv|]. split.
  - apply Hfresh. vm_compute. discriminate.
  - apply Hold. reflexivity.
Defined.

(** X20.  Overall recommendations stored for a user are returned by a lookup
    exactly when it is made at most 15 minutes after the store and with the
    same order count.  A hit leaves the cache as it was; a miss evicts the
    entry, so that every further lookup for that user returns nothing, also
    one with the original order count. *)
Theorem overall_cache_follows_the_order_count {R : Type}
    (cache : MemoryCache.t R) (userId : string) (recommendations : R)
    (orderCount currentOrderCount stored read : Z) :
  cacheInvariant cache ->
  let filled :=
    MemoryCache.storeOverallRecommendation cache stored userId recommendations
      orderCount in
  let answer :=
    MemoryCache.getOverallRecommendation filled read userId currentOrderCount in
  fst answer
  = (if (read - stored <=? MemoryCache.CACHE_TTL)%Z
        && (orderCount =? currentOrderCount)%Z
     then Some recommendations else None)
  /\ (fst answer <> None -> snd answer = filled)
  /\ (fst answer = None ->
      forall (again count : Z),
        fst (MemoryCache.getOverallRecommendation (snd answer) again userId
               count)
        = None).
Proof.
  intros [Ho Hu]. cbv zeta.
  assert (Hanswer :
    MemoryCache.getOverallRecommendation
      (MemoryCache.storeOverallRecommendation cache stored userId
         recommendations orderCount) read userId currentOrderCount
    = if (MemoryCache.CACHE_TTL <? read - stored)%Z
         || negb (orderCount =? currentOrderCount)%Z
      then
        (None,
         {| MemoryCache.orderRecommendations :=
              MemoryCache.orderRecommendations cache;
            MemoryCache.userOverallRecommendations :=
              delete
                (set (MemoryCache.userOverallRecommendations cache) userId
                   {| OverallEntry.recommendations := recommendations;
                      OverallEntry.timestamp := stored;
                      OverallEntry.orderCount := orderCount |}) userId |})
      else
        (Some recommendations,
         MemoryCache.storeOverallRecommendation cache stored userId
           recommendations orderCount)).
  { unfold MemoryCache.getOverallRecommendation.
    cbn [MemoryCache.storeOverallRecommendation
         MemoryCache.orderRecommendations
         MemoryCache.userOverallRecommendations].
    rewrite get_set_same. reflexivity. }
  rewrite Hanswer. clear Hanswer.
  destruct (Z.ltb_spec MemoryCache.CACHE_TTL (read - stored)) as [Hold | Hfresh];
    destruct (Z.leb_spec (read - stored) MemoryCache.CACHE_TTL); try lia;
    destruct (Z.eqb_spec orderCount currentOrderCount);
    cbn [orb negb andb fst snd];
    (split; [reflexivity|]); (split; [congruence|]); try discriminate;
    intros _ again count; unfold MemoryCache.getOverallRecommendation;
    cbn [MemoryCache.userOverallRecommendations];
    rewrite get_delete_same by apply set_keys_NoDup, Hu; reflexivity.
Qed.

Lemma overall_cache_follows_the_order_count_witness :
  cacheInvariant (MemoryCache.empty string)
  /\ fst (MemoryCache.getOverallRecommendation
            (MemoryCache.storeOverallRecommendation (MemoryCache.empty string)
               1000 "user-1" "Order less meat" 4)
            2000 "user-1" 5)
     = None.
Proof.
  assert (Hinv : cacheInvariant (MemoryCache.empty string))
    by (split; constructor).
  split; [exact Hinv|].
  destruct (overall_cache_follows_the_order_count (MemoryCache.empty string)
              "user-1" "Order less meat" 4 5 1000 2000 Hinv) as (H & _).
  exact H.
Defined.

(** X21.  Cleaning the expired entries changes no answer: a lookup made at or
    after the time of the cleaning returns the same recommendations from the
    cleaned cache as from the original one, for orders and for users.  After
    the cleaning every remaining entry is at most 15 minutes old, and the
    cache keeps holding each key once. *)
Theorem cleaning_keeps_every_answer {R : Type} (cache : MemoryCache.t R)
    (cleaned read : Z) :
  cacheInvariant cache ->
  (cleaned <= read)%Z ->
  let swept := MemoryCache.cleanExpiredEntries cache cleaned in
  cacheInvariant swept
  /\ (forall orderId : string,
        fst (MemoryCache.getOrderRecommendation swept read orderId)
        = fst (MemoryCache.getOrderRecommendation cache read orderId))
  /\ (forall (userId : string) (currentOrderCount : Z),
        fst (MemoryCache.getOverallRecommendation swept read userId
               currentOrderCount)
        = fst (MemoryCache.getOverallRecommendation cache read userId
                 currentOrderCount))
  /\ (forall (orderId : string) (entry : OrderEntry.t R),
        get (MemoryCache.orderRecommendations swept) orderId = Some entry ->
        (cleaned - OrderEntry.timestamp entry <= MemoryCache.CACHE_TTL)%Z)
  /\ (forall (userId : string) (entry : OverallEntry.t R),
        get (MemoryCache.userOverallRecommendations swept) userId = Some entry ->
        (cleaned - OverallEntry.timestamp entry <= MemoryCache.CACHE_TTL)%Z).
Proof.
  intros [Ho Hu] Hlater. cbv zeta.
  split; [split; apply filter_isMap; assumption|].
  unfold MemoryCache.getOrderRecommendation,
    MemoryCache.getOverallRecommendation.
  cbn [MemoryCache.cleanExpiredEntries MemoryCache.orderRecommendations
       MemoryCache.userOverallRecommendations].
  repeat split.
  - intros orderId.
    rewrite (get_filter
               (fun entry =>
                  negb (MemoryCache.CACHE_TTL
                        <? cleaned - OrderEntry.timestamp entry)%Z)) by exact Ho.
    destruct (get _ orderId) as [cached|]; [|reflexivity].
    destruct (Z.ltb_spec MemoryCache.CACHE_TTL
                (cleaned - OrderEntry.timestamp cached)); cbn [negb].
    + destruct (Z.ltb_spec MemoryCache.CACHE_TTL
                  (read - OrderEntry.timestamp cached)); [reflexivity | lia].
    + destruct (_ <? _)%Z; reflexivity.
  - intros userId currentOrderCount.
    rewrite (get_filter
               (fun entry =>
                  negb (MemoryCache.CACHE_TTL
                        <? cleaned - OverallEntry.timestamp entry)%Z))
      by exact Hu.
    destruct (get _ userId) as [cached|]; [|reflexivity].
    destruct (Z.ltb_spec MemoryCache.CACHE_TTL
                (cleaned - OverallEntry.timestamp cached)); cbn [negb].
    + destruct (Z.ltb_spec MemoryCache.CACHE_TTL
                  (read - OverallEntry.timestamp cached)); [reflexivity | lia].
    + destruct (_ || _); reflexivity.
  - intros orderId entry.
    rewrite (get_filter
               (fun entry =>
                  negb (MemoryCache.CACHE_TTL
                        <? cleaned - OrderEntry.timestamp entry)%Z)) by exact Ho.
    destruct (get _ orderId) as [cached|]; [|discriminate].
    destruct (Z.ltb_spec MemoryCache.CACHE_TTL
                (cleaned - OrderEntry.timestamp cached)); cbn [negb];
      [discriminate|]. intros Hentry. assert (cached = entry) by congruence. now subst.
  - intros userId entry.
    rewrite (get_filter
               (fun entry =>
                  negb (MemoryCache.CACHE_TTL
                        <? cleaned - OverallEntry.timestamp entry)%Z))
      by exact Hu.
    destruct (get _ userId) as [cached|]; [|discriminate].
    destruct (Z.ltb_spec MemoryCache.CACHE_TTL
                (cleaned - OverallEntry.timestamp cached)); cbn [negb];
      [discriminate|]. intros Hentry. assert (cached = entry) by congruence. now subst.
Qed.

Lemma cleaning_keeps_every_answer_witness :
  cacheInvariant
    (MemoryCache.storeOrderRecommendation (MemoryCache.empty string) 1000
       "order-1" "Share one delivery")
  /\ (2000000 <= 2000000)%Z
  /\ MemoryCache.orderRecommendations
       (MemoryCache.cleanExpiredEntries
          (MemoryCache.storeOrderRecommendation (MemoryCache.empty string) 1000
             "order-1" "Share one delivery")
          2000000)
     = []
  /\ fst (MemoryCache.getOrderRecommendation
            (MemoryCache.cleanExpiredEntries
               (MemoryCache.storeOrderRecommendation (MemoryCache.empty string)
                  1000 "order-1" "Share one delivery")
               2000000)
            2000000 "order-1")
     = fst (MemoryCache.getOrderRecommendation
              (MemoryCache.storeOrderRecommendation (MemoryCache.empty string)
                 1000 "order-1" "Share one delivery")
              2000000 "order-1").
Proof.
  assert (Hinv : cacheInvariant
            (MemoryCache.storeOrderRecommendation (MemoryCache.empty string)
               1000 "order-1" "Share one delivery")).
  { split; [repeat constructor; intros [] | constructor]. }
  assert (Hle : (2000000 <= 2000000)%Z) by lia.
  destruct (cleaning_keeps_every_answer _ 2000000 2000000 Hinv Hle)
    as (_ & Horder & _).
  split; [exact Hinv|]. split; [exact Hle|]. split; [reflexivity|].
  apply Horder.
Defined.

(** *** Zomato orders: reading the order back *)

Lemma append_empty (s : string) : s ++ EmptyString = s.
Proof. induction s as [|c s IH]; cbn; [reflexivity | now rewrite IH]. Qed.

Lemma append_assoc (s t u : string) : (s ++ t) ++ u = s ++ t ++ u.
Proof. induction s as [|c s IH]; cbn; [reflexivity | now rewrite IH]. Qed.

Lemma splitFrom_nonempty (sep : string) (skip : nat) (piece s : string) :
  splitFrom sep skip piece s <> [].
Proof.
  revert skip piece. induction s as [|c s IH]; intros skip piece;
    cbn [splitFrom]; [discriminate|].
  destruct skip; [|apply IH]. destruct (prefix sep (String c s)); [discriminate|].
  apply IH.
Qed.

Lemma concat_cons (sep piece : string) (pieces : list string) :
  pieces <> [] ->
  String.concat sep (piece :: pieces) = piece ++ sep ++ String.concat sep pieces.
Proof. destruct pieces; [congruence | reflexivity]. Qed.

(** Joining the pieces of a split gives the string back. *)
Lemma join_split_x (n : nat) (piece s : string) :
  (String.length s <= n)%nat ->
  String.concat " x " (splitFrom " x " 0 piece s) = piece ++ s.
Proof.
  revert piece s. induction n as [|n IH]; intros piece s Hlen.
  - destruct s; [|cbn in Hlen; lia]. cbn. now rewrite append_empty.
  - destruct s as [|c s]; [cbn; now rewrite append_empty|].
    cbn [splitFrom]. destruct (prefix " x " (String c s)) eqn:E.
    + destruct c as [[] [] [] [] [] [] [] []]; try discriminate E.
      destruct s as [|[[] [] [] [] [] [] [] []] s]; try discriminate E.
      destruct s as [|[[] [] [] [] [] [] [] []] s]; try discriminate E.
      cbn [String.length Nat.sub splitFrom].
      rewrite concat_cons by apply splitFrom_nonempty.
      rewrite IH by (cbn [String.length] in Hlen; lia). reflexivity.
    + rewrite IH by (cbn [String.length] in Hlen; lia).
      now rewrite append_assoc.
Qed.

Lemma includes_head (c : ascii) (s sub : string) :
  includes (String c s) sub = false ->
  prefix sub (String c s) = false /\ includes s sub = false.
Proof. cbn [includes]. intros H. now apply orb_false_iff in H. Qed.

Lemma split_x_piece (p piece rest : string) :
  includes p " " = false ->
  splitFrom " x " 0 piece (p ++ " x " ++ rest)
  = (piece ++ p) :: splitFrom " x " 0 EmptyString rest.
Proof.
  revert piece. induction p as [|c p IH]; intros piece Hp.
  - rewrite append_empty. destruct rest; reflexivity.
  - apply includes_head in Hp as [Hc Hp].
    change ((String c p ++ " x " ++ rest)) with (String c (p ++ " x " ++ rest)).
    cbn [splitFrom].
    assert (E : prefix " x " (String c (p ++ " x " ++ rest)) = false).
    { destruct c as [[] [] [] [] [] [] [] []]; try reflexivity.
      cbn in Hc. destruct p; discriminate Hc. }
    rewrite E, IH by exact Hp. now rewrite append_assoc.
Qed.

Lemma split_comma_piece (p piece rest : string) :
  includes p ", " = false ->
  splitFrom ", " 0 piece (p ++ ", " ++ rest)
  = (piece ++ p) :: splitFrom ", " 0 EmptyString rest.
Proof.
  revert piece. induction p as [|c p IH]; intros piece Hp.
  - rewrite append_empty. destruct rest; reflexivity.
  - apply includes_head in Hp as [Hc Hp].
    change ((String c p ++ ", " ++ rest)) with (String c (p ++ ", " ++ rest)).
    cbn [splitFrom].
    assert (E : prefix ", " (String c (p ++ ", " ++ rest)) = false).
    { destruct c as [[] [] [] [] [] [] [] []]; try reflexivity.
      destruct p as [|[[] [] [] [] [] [] [] []] p]; try reflexivity.
      cbn in Hc. destruct p; discriminate Hc. }
    rewrite E, IH by exact Hp. now rewrite append_assoc.
Qed.

Lemma split_comma_last (p piece : string) :
  includes p ", " = false -> splitFrom ", " 0 piece p = [piece ++ p].
Proof.
  revert piece. induction p as [|c p IH]; intros piece Hp.
  - cbn. now rewrite append_empty.
  - apply includes_head in Hp as [Hc Hp]. cbn [splitFrom].
    rewrite Hc, IH by exact Hp. now rewrite append_assoc.
Qed.

Lemma includes_after_plain (sub a b : string) (c0 : ascii) (sub' : string) :
  sub = String c0 sub' ->
  (forall c, In c (list_ascii_of_string a) -> c <> c0) ->
  includes (a ++ b) sub = includes b sub.
Proof.
  intros -> Ha. induction a as [|c a IH]; [reflexivity|].
  change (String c a ++ b) with (String c (a ++ b)). cbn [includes].
  rewrite IH by (intros d Hd; apply Ha; now right).
  cbn [prefix]. destruct (Ascii.ascii_dec c0 c) as [->|Hne].
  - exfalso. apply (Ha c); [now left | reflexivity].
  - reflexivity.
Qed.

Lemma digits_plain (s : string) (c : ascii) :
  allDigits s = true -> In c (list_ascii_of_string s) -> isDigit c = true.
Proof.
  induction s as [|d s IH]; cbn [allDigits list_ascii_of_string In];
    [tauto|].
  intros H [-> | Hin]; apply andb_true_iff in H as [Hd Hs]; [exact Hd|].
  now apply IH.
Qed.

Lemma integerText_plain (n : Z) (c : ascii) :
  In c (list_ascii_of_string (Orders.integerText n)) ->
  c <> " "%char /\ c <> ","%char.
Proof.
  unfold Orders.integerText. destruct (n <? 0)%Z.
  - change ("-" ++ digitsOf (- n)) with (String "-" (digitsOf (- n))).
    cbn [list_ascii_of_string In]. intros [<- | Hin]; [split; discriminate|].
    apply (digits_plain _ _ (allDigits_uint _)) in Hin.
    split; intros ->; discriminate Hin.
  - intros Hin. apply (digits_plain _ _ (allDigits_uint _)) in Hin.
    split; intros ->; discriminate Hin.
Qed.

Lemma readDigits_decimal (s : string) (acc : Z) :
  allDigits s = true -> readDigits 10 (Some acc) s = Some (parseDigits acc s).
Proof.
  revert acc. induction s as [|c s IH]; intros acc H; [reflexivity|].
  cbn [allDigits] in H. apply andb_true_iff in H as [Hc Hs].
  cbn [readDigits parseDigits].
  assert (E : digitIn 10 c = Some (digitValue c)).
  { destruct c as [[] [] [] [] [] [] [] []]; try discriminate Hc; reflexivity. }
  rewrite E. now apply IH.
Qed.

Lemma parseIntText_unsigned (sign : Z) (s : string) :
  allDigits s = true -> s <> EmptyString ->
  (let '(radix, s) :=
     if prefix "0x" s || prefix "0X" s
     then (16%Z, String.substring 2 (String.length s - 2) s)
     else (10%Z, s) in
   match readDigits radix None s with
   | None => NaN
   | Some mathInt => Num (inject_Z (sign * mathInt))
   end)
  = Num (inject_Z (sign * parseInt s)).
Proof.
  intros H Hne. destruct s as [|c s]; [congruence|].
  cbn [allDigits] in H. apply andb_true_iff in H as [Hc Hs].
  assert (Hx : prefix "0x" (String c s) || prefix "0X" (String c s) = false).
  { destruct s as [|d s].
    - destruct c as [[] [] [] [] [] [] [] []]; reflexivity.
    - cbn [allDigits] in Hs. apply andb_true_iff in Hs as [Hd _].
      destruct c as [[] [] [] [] [] [] [] []]; try reflexivity;
        destruct d as [[] [] [] [] [] [] [] []]; try discriminate Hd;
        reflexivity. }
  rewrite Hx. cbn [readDigits].
  assert (E : digitIn 10 c = Some (digitValue c)).
  { destruct c as [[] [] [] [] [] [] [] []]; try discriminate Hc; reflexivity. }
  rewrite E, readDigits_decimal by exact Hs.
  unfold parseInt. cbn [parseDigits]. reflexivity.
Qed.

Lemma parseIntText_digits (s : string) :
  allDigits s = true -> s <> EmptyString ->
  parseIntText s = Num (inject_Z (parseInt s)).
Proof.
  intros H Hne. rewrite <- (Z.mul_1_l (parseInt s)).
  rewrite <- (parseIntText_unsigned 1 s H Hne).
  destruct s as [|c s]; [congruence|].
  cbn [allDigits] in H. apply andb_true_iff in H as [Hc Hs].
  unfold parseIntText. cbn [trimStart].
  assert (Hw : isWhiteSpace c = false).
  { destruct c as [[] [] [] [] [] [] [] []]; try discriminate Hc; reflexivity. }
  rewrite Hw.
  assert (Hsign :
    match String c s with
    | String "-"%char rest => ((-1)%Z, rest)
    | String "+"%char rest => (1%Z, rest)
    | _ => (1%Z, String c s)
    end = (1%Z, String c s)).
  { destruct c as [[] [] [] [] [] [] [] []]; try discriminate Hc; reflexivity. }
  rewrite Hsign. reflexivity.
Qed.

Lemma parseIntText_integerText (n : Z) :
  parseIntText (Orders.integerText n) = Num (inject_Z n).
Proof.
  unfold Orders.integerText. destruct (Z.ltb_spec n 0) as [Hneg | Hpos].
  - assert (Hpos : (0 <= - n)%Z) by lia.
    pose proof (parseIntText_unsigned (-1) (digitsOf (- n)) (allDigits_uint _)
                  (digitsOf_nonempty _ Hpos)) as H.
    rewrite parseInt_digitsOf in H by lia.
    replace (-1 * - n)%Z with n in H by lia.
    rewrite <- H. reflexivity.
  - rewrite parseIntText_digits by
      (try apply allDigits_uint; now apply digitsOf_nonempty).
    now rewrite parseInt_digitsOf.
Qed.

Lemma line_has_no_separator (item : Orders.SwiggyItem.t) :
  includes (Orders.SwiggyItem.name item) ", " = false ->
  includes
    (Orders.integerText (Orders.SwiggyItem.quantity item) ++ " x "
     ++ Orders.SwiggyItem.name item) ", "
  = false.
Proof.
  intros Hname.
  rewrite (includes_after_plain ", " _ _ ","%char " " eq_refl)
    by (intros c Hc; now apply integerText_plain in Hc).
  rewrite (includes_after_plain ", " " x " _ ","%char " " eq_refl);
    [exact Hname|].
  cbn [list_ascii_of_string In]. intros c [<- | [<- | [<- | []]]]; discriminate.
Qed.

Lemma read_line (item : Orders.SwiggyItem.t) :
  match
    splitOn " x "
      (Orders.integerText (Orders.SwiggyItem.quantity item) ++ " x "
       ++ Orders.SwiggyItem.name item)
  with
  | quantity :: nameParts =>
      {| ZomatoItem.name := String.concat " x " nameParts;
         ZomatoItem.quantity := parseIntText quantity;
         ZomatoItem.price := None |}
  | [] =>
      {| ZomatoItem.name := EmptyString;
         ZomatoItem.quantity := NaN;
         ZomatoItem.price := None |}
  end
  = zomatoItemOf item.
Proof.
  unfold splitOn. rewrite split_x_piece.
  - cbn [append]. rewrite (join_split_x _ _ _ (le_n _)).
    rewrite parseIntText_integerText. reflexivity.
  - rewrite <- (append_empty (Orders.integerText _)).
    rewrite (includes_after_plain " " _ _ " "%char EmptyString eq_refl)
      by (intros c Hc; now apply integerText_plain in Hc).
    reflexivity.
Qed.

Lemma split_lines (piece : string) (items : list Orders.SwiggyItem.t)
    (line : Orders.SwiggyItem.t -> string) :
  (forall item, In item items -> includes (line item) ", " = false) ->
  forall first : string,
    includes first ", " = false ->
    splitFrom ", " 0 piece (String.concat ", " (first :: map line items))
    = (piece ++ first) :: map line items.
Proof.
  revert piece. induction items as [|item rest IH]; intros piece Hall first Hfirst.
  - cbn [map String.concat]. now apply split_comma_last.
  - cbn [map]. rewrite concat_cons by discriminate.
    rewrite split_comma_piece by exact Hfirst. f_equal.
    rewrite IH; [reflexivity | | ].
    + intros other Hin. apply Hall. now right.
    + apply Hall. now left.
Qed.

Lemma splitOn_lines (items : list Orders.SwiggyItem.t)
    (line : Orders.SwiggyItem.t -> string) (first : string) :
  (forall item, In item items -> includes (line item) ", " = false) ->
  includes first ", " = false ->
  splitOn ", " (String.concat ", " (first :: map line items))
  = first :: map line items.
Proof. intros Hall Hfirst. unfold splitOn. now rewrite split_lines. Qed.

(** X22.  Round trip between the dish-string format and the Zomato route:
    from the dish string formatted from a list of items the route reads back
    exactly those items, with the same names, also names that contain " x ",
    and the same quantities, provided each quantity is an integer of
    magnitude at most [MAX_SAFE_INTEGER] and no name contains a comma
    followed by a space. *)
Theorem zomato_items_read_back (items : list Orders.SwiggyItem.t) :
  Forall
    (fun item =>
       (Z.abs (Orders.SwiggyItem.quantity item) <= MAX_SAFE_INTEGER)%Z
       /\ includes (Orders.SwiggyItem.name item) ", " = false) items ->
  Zomato.items (Some (Orders.formatDishString items)) = map zomatoItemOf items.
Proof.
  intros Hall.
  assert (Hnames : Forall
            (fun item => includes (Orders.SwiggyItem.name item) ", " = false)
            items).
  { apply (Forall_impl _ (fun item H => proj2 H) Hall). }
  clear Hall. rename Hnames into Hall.
  destruct items as [|item rest]; [reflexivity|].
  unfold Zomato.items.
  destruct (Orders.formatDishString (item :: rest)) as [|c text] eqn:E;
    [now apply formatDishString_nonempty in E|].
  cbn [truthyStr]. rewrite <- E. clear E c text.
  unfold Orders.formatDishString. cbn [map].
  rewrite Forall_forall in Hall.
  rewrite splitOn_lines.
  - cbn [map]. rewrite read_line. f_equal.
    rewrite map_map. apply map_ext. intros other. apply read_line.
  - intros other Hin. apply line_has_no_separator, Hall. now right.
  - apply line_has_no_separator, Hall. now left.
Qed.

Lemma zomato_items_read_back_witness :
  Zomato.items (Some "2 x Paneer Tikka, 1 x Dal x Rice")
  = [ {| ZomatoItem.name := "Paneer Tikka";
         ZomatoItem.quantity := Num (inject_Z 2);
         ZomatoItem.price := None |};
      {| ZomatoItem.name := "Dal x Rice";
         ZomatoItem.quantity := Num (inject_Z 1);
         ZomatoItem.price := None |} ].
Proof.
  apply (zomato_items_read_back
           [ {| Orders.SwiggyItem.name := "Paneer Tikka";
                Orders.SwiggyItem.quantity := 2 |};
             {| Orders.SwiggyItem.name := "Dal x Rice";
                Orders.SwiggyItem.quantity := 1 |} ]).
  repeat constructor; cbn; lia.
Defined.

(** X23.  The hour the Zomato route sets from a twelve-hour time: for hours
    written in digits, with or without a leading zero, between 1 and 12, and
    the period AM or PM, it is the hour modulo 12, plus 12 in the afternoon,
    and so lies between 0 and 23. *)
Theorem zomato_hour_of_day (hours period : string) :
  allDigits hours = true ->
  hours <> EmptyString ->
  (1 <= parseInt hours <= 12)%Z ->
  period = "AM" \/ period = "PM" ->
  Zomato.hour hours period
  = Num (inject_Z (hourOfDay (parseInt hours) (String.eqb period "PM")))
  /\ (0 <= hourOfDay (parseInt hours) (String.eqb period "PM") < 24)%Z.
Proof.
  intros Hd Hne Hrange Hperiod. unfold Zomato.hour.
  rewrite parseIntText_digits by assumption.
  revert Hrange. generalize (parseInt hours). intros h Hrange.
  unfold hourOfDay.
  assert (Hcases : (h = 1 \/ h = 2 \/ h = 3 \/ h = 4 \/ h = 5 \/ h = 6
                    \/ h = 7 \/ h = 8 \/ h = 9 \/ h = 10 \/ h = 11
                    \/ h = 12)%Z) by lia.
  destruct Hperiod as [-> | ->];
    repeat (destruct Hcases as [-> | Hcases]); try subst h;
    (split; [reflexivity | vm_compute; split; congruence]).
Qed.

Lemma zomato_hour_of_day_witness :
  Zomato.hour "09" "PM" = Num (inject_Z 21)
  /\ Zomato.hour "12" "AM" = Num (inject_Z 0).
Proof.
  split.
  - apply (zomato_hour_of_day "09" "PM"); [reflexivity | discriminate | | now right].
    vm_compute. split; discriminate.
  - apply (zomato_hour_of_day "12" "AM"); [reflexivity | discriminate | | now left].
    vm_compute. split; discriminate.
Defined.
